(** * GoS3Api: the storage service of [internal/upload], embedded in Rocq

    The development follows the Go sources:
    - [entity.go]        the records [File], [FileSummary], [BucketStats], ...
    - [errors.go]        the sentinel errors
    - [repository.go]    the [Repository] interface
    - [s3_repository.go] [S3Repository] over the AWS client, and [formatBytes]
    - [service.go]       [uploadService]: validation, upload, listing, stats

    Go strings are byte strings ([string], one [ascii] per byte); [int64] and
    [int32] are [Z] with the wrap-around written out; a Go [error] is a
    value of the inductive [error]; a method that may fail returns a sum or
    an [option error].  Library code outside the repository (the AWS
    client, [uuid.NewV7], [http.DetectContentType], the Unicode tables) is
    a parameter.

    Part I holds the definitions, Part II the lemmas and theorems. *)

From Stdlib Require Import ZArith Lia Ascii String DecimalString.
From stdpp Require Import base option list strings gmap.

(** * Part I: definitions *)

(** ** Machine integers *)

Module Int.
Local Open Scope Z_scope.

Definition min_int64 : Z := - 2 ^ 63.
Definition max_int64 : Z := 2 ^ 63 - 1.

Definition in_int64 (z : Z) : Prop := min_int64 <= z <= max_int64.

(** Two's complement wrap-around of a [w]-bit signed integer. *)
Definition wrap (w : Z) (z : Z) : Z :=
  (z + 2 ^ (w - 1)) mod 2 ^ w - 2 ^ (w - 1).

Definition wrap64 : Z -> Z := wrap 64.
Definition wrap32 : Z -> Z := wrap 32.

End Int.

(** ** [fmt] verbs used by the repository *)

Module Fmt.
Local Open Scope Z_scope.

(** [%d] *)
Definition verb_d (z : Z) : string := NilZero.string_of_int (Z.to_int z).

(** [float64(b)] for an integer [b]: the nearest value with a 53-bit
    significand, ties to the even significand.  The result is again an
    integer, so it is kept as a [Z]. *)
Definition float64_of_int (b : Z) : Z :=
  let a := Z.abs b in
  let e := Z.log2 a in
  if e <? 53 then b
  else
    let sh := e - 52 in
    let q := a / 2 ^ sh in
    let r := a mod 2 ^ sh in
    let half := 2 ^ (sh - 1) in
    let q' := if (half <? r) || ((r =? half) && Z.odd q) then q + 1 else q in
    Z.sgn b * (q' * 2 ^ sh).

(** Nearest integer to [num / den] ([den > 0]), ties to even: the rounding
    [strconv] applies to the exact decimal expansion of a float. *)
Definition round_half_even (num den : Z) : Z :=
  let q := num / den in
  let r := num mod den in
  if (den <? 2 * r) || ((2 * r =? den) && Z.odd q) then q + 1 else q.

(** [%.1f] of the non-negative value [num / den].  In [formatBytes] the
    numerator is a float64 and the divisor a power of two, so the float64
    quotient is this exact rational; [strconv] prints its decimal expansion
    rounded at the first decimal. *)
Definition verb_1f (num den : Z) : string :=
  let t := round_half_even (10 * num) den in
  verb_d (t / 10) +:+ "." +:+ verb_d (t mod 10).

End Fmt.

(** ** [formatBytes] (s3_repository.go) *)

(** How a call ends: it returns, it panics (index out of range), or the
    model runs out of loop budget. *)
Inductive outcome (A : Type) : Type :=
  | Returned (a : A)
  | Panicked
  | OutOfFuel.
Arguments Returned {A} a.
Arguments Panicked {A}.
Arguments OutOfFuel {A}.

Module FormatBytes.
Local Open Scope Z_scope.
Import Int Fmt.

Definition unit : Z := 1024.

(** The loop [for n := b / unit; n >= unit; n /= unit { div *= unit; exp++ }]
    on the state [(n, div, exp)]; [div] is an [int64], [exp] an [int]. *)
Fixpoint loop (fuel : nat) (n div exp : Z) : option (Z * Z) :=
  if unit <=? n then
    match fuel with
    | O => None
    | S fuel' =>
        loop fuel' (Z.quot n unit) (wrap64 (div * unit)) (wrap64 (exp + 1))
    end
  else Some (div, exp).

(** ["KMGTPE"[exp]], which panics out of range. *)
Definition unit_letter (exp : Z) : option ascii :=
  if (0 <=? exp) && (exp <? 6) then String.get (Z.to_nat exp) "KMGTPE"
  else None.

Definition formatBytes_fuel (fuel : nat) (b : Z) : outcome string :=
  if b <? unit then Returned (verb_d b +:+ " B")
  else
    match loop fuel (Z.quot b unit) unit 0 with
    | None => OutOfFuel
    | Some (div, exp) =>
        match unit_letter exp with
        | None => Panicked
        | Some c =>
            Returned (verb_1f (float64_of_int b) div +:+ " " +:+ String c "B")
        end
    end.

(** Every pass takes ten bits off a 64-bit [n]; 64 passes are never used
    up, as Part II proves. *)
Definition formatBytes (b : Z) : outcome string := formatBytes_fuel 64 b.

(** The formatter as section 4.7 of the specification words it: divide by
    1024 and count until the quotient is below 1024, then print the final
    quotient with one decimal and the unit picked by the count minus one.
    The quotient is the exact one, [b / 1024 ^ k]: the specification has no
    rounding before the one to the decimal place. *)
Fixpoint division_count (fuel : nat) (q : Z) : nat :=
  match fuel with
  | O => O
  | S fuel' => if q / 1024 <? 1024 then 1%nat else S (division_count fuel' (q / 1024))
  end.

Definition spec_unit (count : nat) : ascii :=
  nth (count - 1) ["K"; "M"; "G"; "T"; "P"; "E"]%char "?"%char.

Definition spec_formatBytes (b : Z) : string :=
  if b <? 1024 then verb_d b +:+ " B"
  else
    let k := division_count 64 b in
    verb_1f b (1024 ^ Z.of_nat k) +:+ " " +:+ String (spec_unit k) "B".

End FormatBytes.

(** ** Go [strings] and [path/filepath] on byte strings *)

Module GoStrings.

Definition byte_lt (c : ascii) (n : nat) : bool := Nat.ltb (nat_of_ascii c) n.
Definition byte_in (lo hi c : ascii) : bool :=
  Nat.leb (nat_of_ascii lo) (nat_of_ascii c) && Nat.leb (nat_of_ascii c) (nat_of_ascii hi).

(** [c < utf8.RuneSelf] *)
Definition is_ascii_byte (c : ascii) : bool := byte_lt c 128.

Definition all_ascii (s : string) : bool :=
  forallb is_ascii_byte (list_ascii_of_string s).

Definition lower_byte (c : ascii) : ascii :=
  if byte_in "A" "Z" c then ascii_of_nat (nat_of_ascii c + 32) else c.

(** The table [asciiSpace] of package [strings]. *)
Definition asciiSpace (c : ascii) : bool :=
  match nat_of_ascii c with
  | 9 | 10 | 11 | 12 | 13 | 32 => true
  | _ => false
  end.

Fixpoint map_bytes (f : ascii -> ascii) (s : string) : string :=
  match s with
  | EmptyString => EmptyString
  | String c s' => String (f c) (map_bytes f s')
  end.

(** [strings.HasPrefix(s, prefix)] *)
Definition HasPrefix (s prefix : string) : bool := String.prefix prefix s.

(** [strings.Contains(s, substr)] *)
Fixpoint Contains (s substr : string) : bool :=
  String.prefix substr s ||
  match s with
  | EmptyString => false
  | String _ s' => Contains s' substr
  end.

(** [filepath.Ext] on a Unix path: the loop runs from the last byte down
    and stops at the first dot, or at a separator. *)
Fixpoint ext_scan (rev_path : list ascii) (suffix : list ascii) : list ascii :=
  match rev_path with
  | [] => []
  | c :: more =>
      if Ascii.eqb c "/" then []
      else if Ascii.eqb c "." then c :: suffix
      else ext_scan more (c :: suffix)
  end.

Definition Ext (path : string) : string :=
  string_of_list_ascii (ext_scan (rev (list_ascii_of_string path)) []).

End GoStrings.

(** ** The regular expressions the service compiles *)

Module Regexp.

(** The fragment of RE2 syntax that [bucketDNSNameRegex] uses: character
    classes, concatenation and bounded repetition; a pattern between [^]
    and [$] has to match the whole text. *)
Inductive regex : Type :=
  | Cls (p : ascii -> bool)
  | Cat (r1 r2 : regex)
  | Rep (r : regex) (lo hi : nat).

(** Backtracking matcher with a continuation for the rest of the text. *)
Fixpoint run (r : regex) (s : list ascii) (k : list ascii -> bool) : bool :=
  match r with
  | Cls p => match s with c :: s' => p c && k s' | [] => false end
  | Cat r1 r2 => run r1 s (fun s' => run r2 s' k)
  | Rep r1 lo hi =>
      (fix rep (lo hi : nat) (s : list ascii) : bool :=
         match hi with
         | O => match lo with O => k s | S _ => false end
         | S hi' =>
             run r1 s (fun s' => rep (pred lo) hi' s')
             || match lo with O => k s | S _ => false end
         end) lo hi s
  end.

(** [re.MatchString(s)] for an anchored pattern. *)
Definition MatchString (r : regex) (s : string) : bool :=
  run r (list_ascii_of_string s) (fun rest => match rest with [] => true | _ => false end).

(** What a regular expression denotes. *)
Inductive lang : regex -> list ascii -> Prop :=
  | lang_cls p c : p c = true -> lang (Cls p) [c]
  | lang_cat r1 r2 s1 s2 : lang r1 s1 -> lang r2 s2 -> lang (Cat r1 r2) (s1 ++ s2)
  | lang_rep_stop r hi : lang (Rep r 0 hi) []
  | lang_rep_more r lo hi s1 s2 :
      lang r s1 -> lang (Rep r (pred lo) hi) s2 -> lang (Rep r lo (S hi)) (s1 ++ s2).

End Regexp.

(** ** errors.go *)

Inductive error : Type :=
  | ErrBucketNameRequired
  | ErrFileNotFound
  | ErrInvalidFileType
  | ErrBucketAlreadyExists
  | ErrOperationTimeout
  | io_EOF
  (** [errors.New] / [fmt.Errorf] without [%w], or an error of a library *)
  | Errorf (msg : string)
  (** [fmt.Errorf("<msg>: %w", cause)] *)
  | Wrapf (msg : string) (cause : error).

#[global] Instance error_eq_dec : EqDecision error.
Proof. solve_decision. Defined.

(** ** Context *)

(** A [context.Context] as far as the service uses it: whether it is done,
    and the tightest timeout bound on it, in nanoseconds. *)
Record Ctx : Type := mkCtx { ctx_done : bool; ctx_timeout : option Z }.

Definition Background : Ctx := mkCtx false None.

Definition WithTimeout (ctx : Ctx) (d : Z) : Ctx :=
  mkCtx (ctx_done ctx)
        (Some match ctx_timeout ctx with Some d0 => Z.min d0 d | None => d end).

Definition cancel (ctx : Ctx) : Ctx := mkCtx true (ctx_timeout ctx).

Definition Second : Z := 1000000000.
Definition Minute : Z := 60 * Second.

(** ** Identifiers of [github.com/google/uuid] *)

Module UUID.

(** A [uuid.UUID] is an array of 16 bytes. *)
Definition t : Type := list ascii.

Definition hex_digit (n : nat) : ascii :=
  nth n (list_ascii_of_string "0123456789abcdef") "0"%char.

Definition hex_byte (c : ascii) : list ascii :=
  [hex_digit (nat_of_ascii c / 16); hex_digit (nat_of_ascii c mod 16)].

Definition hex (bs : list ascii) : list ascii := flat_map hex_byte bs.

(** [UUID.String]: the form xxxxxxxx-xxxx-xxxx-xxxx-xxxxxxxxxxxx. *)
Definition String (u : t) : string :=
  string_of_list_ascii
    (hex (take 4 u) ++ "-"%char :: hex (take 2 (drop 4 u)) ++ "-"%char ::
     hex (take 2 (drop 6 u)) ++ "-"%char :: hex (take 2 (drop 8 u)) ++ "-"%char ::
     hex (take 6 (drop 10 u))).

End UUID.

(** ** Library code the service calls, as parameters *)

Class Platform : Type := {
  (** [strings.Map(unicode.ToLower, s)]: what [strings.ToLower] does with a
      text that has a byte above 0x7f *)
  unicode_ToLower : string -> string;
  (** [strings.TrimFunc(s, unicode.IsSpace)] and
      [strings.TrimRightFunc(s, unicode.IsSpace)]: what [strings.TrimSpace]
      falls back to when it meets a byte above 0x7f *)
  unicode_TrimFunc : string -> string;
  unicode_TrimRightFunc : string -> string;
  (** [http.DetectContentType] *)
  DetectContentType : list ascii -> string;
  (** the clock and the random source of [uuid.NewV7], and the call itself *)
  Entropy : Type;
  NewV7 : Entropy -> (UUID.t + error) * Entropy
}.

Section GoStringsUnicode.
Context `{Platform}.
Import GoStrings.

(** [strings.ToLower] *)
Definition ToLower (s : string) : string :=
  if all_ascii s then
    if negb (existsb (byte_in "A" "Z") (list_ascii_of_string s)) then s
    else map_bytes lower_byte s
  else unicode_ToLower s.

(** The two scans of [strings.TrimSpace]: skip ASCII space, stop at the
    first other byte and tell whether it is outside ASCII. *)
Fixpoint skip_space (s : list ascii) : list ascii * bool :=
  match s with
  | [] => ([], false)
  | c :: s' =>
      if negb (is_ascii_byte c) then (s, true)
      else if asciiSpace c then skip_space s'
      else (s, false)
  end.

(** [strings.TrimSpace] *)
Definition TrimSpace (s : string) : string :=
  let '(s1, non_ascii) := skip_space (list_ascii_of_string s) in
  if non_ascii then unicode_TrimFunc (string_of_list_ascii s1)
  else
    let '(r, non_ascii') := skip_space (rev s1) in
    if non_ascii' then unicode_TrimRightFunc (string_of_list_ascii (rev r))
    else string_of_list_ascii (rev r).

End GoStringsUnicode.

(** ** Seekable streams ([io.ReadSeekCloser]) *)

Module Stream.

(** The bytes, the read position, and the error [Read] or [Seek] answers
    with when the underlying file is faulty. *)
Record t : Type := mk {
  data : list ascii;
  pos : nat;
  read_fault : option error;
  seek_fault : option error
}.

Definition set_pos (s : t) (p : nat) : t :=
  mk (data s) p (read_fault s) (seek_fault s).

(** [Read(buf)] with [len(buf) = n]: the bytes put in [buf], the error. *)
Definition Read (s : t) (n : nat) : (list ascii * option error) * t :=
  match read_fault s with
  | Some e => (([], Some e), s)
  | None =>
      if Nat.leb (length (data s)) (pos s) then (([], Some io_EOF), s)
      else
        let chunk := take n (drop (pos s) (data s)) in
        ((chunk, None), set_pos s (pos s + length chunk))
  end.

(** [Seek(0, io.SeekStart)] *)
Definition SeekStart (s : t) : option error * t :=
  match seek_fault s with
  | Some e => (Some e, s)
  | None => (None, set_pos s 0)
  end.

End Stream.

(** ** entity.go *)

Module File.
Record t : Type := mk {
  Name : string;
  URL : string;
  (** [None] is the nil interface *)
  Content : option Stream.t;
  Size : Z;
  ContentType : string
}.
Definition set_Name (f : t) (n : string) : t :=
  mk n (URL f) (Content f) (Size f) (ContentType f).
Definition set_URL (f : t) (u : string) : t :=
  mk (Name f) u (Content f) (Size f) (ContentType f).
Definition set_Content (f : t) (c : option Stream.t) : t :=
  mk (Name f) (URL f) c (Size f) (ContentType f).
End File.

Module FileSummary.
Record t : Type := mk {
  Key : string;
  URL : string;
  Size : Z;
  HumanReadableSize : outcome string;
  Extension : string;
  StorageClass : string;
  LastModified : Z
}.
End FileSummary.

Module BucketStats.
Record t : Type := mk {
  BucketName : string;
  TotalFiles : Z;
  TotalSizeBytes : Z;
  TotalSizeFormatted : outcome string
}.
End BucketStats.

Module BucketSummary.
Record t : Type := mk { Name : string; CreationDate : Z }.
End BucketSummary.

Module PaginatedFiles.
Record t : Type := mk { Files : list FileSummary.t; NextToken : string }.
End PaginatedFiles.

(** ** repository.go *)

Module Repository.

(** The interface: a table of methods over the state [R] of the store
    behind it. *)
Record t (R : Type) : Type := mk {
  Upload : Ctx -> string -> File.t -> R -> (string + error) * R;
  GetPresignURL : Ctx -> string -> string -> Z -> R -> (string + error) * R;
  Download : Ctx -> string -> string -> R -> (Stream.t + error) * R;
  List : Ctx -> string -> string -> string -> Z -> R -> (PaginatedFiles.t + error) * R;
  Delete : Ctx -> string -> string -> R -> option error * R;
  CheckBucketExists : Ctx -> string -> R -> (bool * option error) * R;
  CreateBucket : Ctx -> string -> R -> option error * R;
  ListBuckets : Ctx -> R -> (list BucketSummary.t + error) * R;
  GetStats : Ctx -> string -> R -> (BucketStats.t + error) * R;
  DeleteAll : Ctx -> string -> R -> option error * R;
  DeleteBucket : Ctx -> string -> R -> option error * R
}.
Arguments Upload {R}.
Arguments GetPresignURL {R}.
Arguments Download {R}.
Arguments List {R}.
Arguments Delete {R}.
Arguments CheckBucketExists {R}.
Arguments CreateBucket {R}.
Arguments ListBuckets {R}.
Arguments GetStats {R}.
Arguments DeleteAll {R}.
Arguments DeleteBucket {R}.

(** A call through the interface, with its arguments. *)
Inductive call : Type :=
  | CallUpload (ctx : Ctx) (bucket : string) (file : File.t)
  | CallGetPresignURL (ctx : Ctx) (bucket key : string) (expiration : Z)
  | CallDownload (ctx : Ctx) (bucket key : string)
  | CallList (ctx : Ctx) (bucket prefix token : string) (limit : Z)
  | CallDelete (ctx : Ctx) (bucket key : string)
  | CallCheckBucketExists (ctx : Ctx) (bucket : string)
  | CallCreateBucket (ctx : Ctx) (bucket : string)
  | CallListBuckets (ctx : Ctx)
  | CallGetStats (ctx : Ctx) (bucket : string)
  | CallDeleteAll (ctx : Ctx) (bucket : string)
  | CallDeleteBucket (ctx : Ctx) (bucket : string).

(** The bucket a call names. *)
Definition call_bucket (c : call) : option string :=
  match c with
  | CallUpload _ b _ | CallGetPresignURL _ b _ _ | CallDownload _ b _
  | CallList _ b _ _ _ | CallDelete _ b _ | CallCheckBucketExists _ b
  | CallCreateBucket _ b | CallGetStats _ b | CallDeleteAll _ b
  | CallDeleteBucket _ b => Some b
  | CallListBuckets _ => None
  end.

(** A repository that keeps, beside the state of the repository [r] it
    stands in front of, the bucket argument of every call it is handed, in
    the order of the calls; apart from that it is [r].  What it keeps is
    written by the method from its own parameter. *)
Definition noting {R A} (bucket : string) (m : R -> A * R)
  : R * list string -> A * (R * list string) :=
  fun st => let (a, r') := m (fst st) in (a, (r', snd st ++ [bucket])).

Definition recording {R} (r : t R) : t (R * list string) :=
  mk (R * list string)
    (fun ctx bucket file => noting bucket (Upload r ctx bucket file))
    (fun ctx bucket key exp => noting bucket (GetPresignURL r ctx bucket key exp))
    (fun ctx bucket key => noting bucket (Download r ctx bucket key))
    (fun ctx bucket prefix token limit => noting bucket (List r ctx bucket prefix token limit))
    (fun ctx bucket key => noting bucket (Delete r ctx bucket key))
    (fun ctx bucket => noting bucket (CheckBucketExists r ctx bucket))
    (fun ctx bucket => noting bucket (CreateBucket r ctx bucket))
    (fun ctx st => let (a, r') := ListBuckets r ctx (fst st) in (a, (r', snd st)))
    (fun ctx bucket => noting bucket (GetStats r ctx bucket))
    (fun ctx bucket => noting bucket (DeleteAll r ctx bucket))
    (fun ctx bucket => noting bucket (DeleteBucket r ctx bucket)).

End Repository.

(** ** service.go *)

(** What a run of the service does that a caller can observe from outside:
    reads and seeks on the uploaded stream, draws on the identifier source,
    and calls through the [Repository] interface. *)
Inductive event : Type :=
  | EvRead (n : nat)
  | EvSeek
  | EvNewV7
  | EvRepo (c : Repository.call).

Definition is_repo_event (e : event) : bool :=
  match e with EvRepo _ => true | _ => false end.

Definition is_stream_event (e : event) : bool :=
  match e with EvRead _ | EvSeek => true | _ => false end.

(** The world a service method runs in: the store behind the repository,
    the identifier source, and the record of events so far. *)
Record World (R E : Type) : Type := mkWorld {
  store : R;
  entropy : E;
  trace : list event
}.
Arguments mkWorld {R E}.
Arguments store {R E}.
Arguments entropy {R E}.
Arguments trace {R E}.

Definition log {R E} (e : event) (w : World R E) : World R E :=
  mkWorld (store w) (entropy w) (trace w ++ [e]).

(** State passing, with a notation for sequencing. *)
Definition M (W A : Type) : Type := W -> A * W.

Definition ret {W A} (a : A) : M W A := fun w => (a, w).

Definition bind {W A B} (m : M W A) (k : A -> M W B) : M W B :=
  fun w => let (a, w') := m w in k a w'.

Notation "x <~ m ;; k" := (bind m (fun x => k))
  (at level 100, m at next level, right associativity).

Module uploadService.

Record t (R : Type) : Type := mk { repo : Repository.t R }.
Arguments repo {R}.

Definition NewService {R} (repo : Repository.t R) : t R := mk R repo.

Definition uploadTimeout : Z := 60 * Second.
Definition deleteTimeout : Z := 5 * Second.
Definition maxBucketNameLength : nat := 63.
Definition minBucketNameLength : nat := 3.

Definition lower_alnum (c : ascii) : bool :=
  GoStrings.byte_in "a" "z" c || GoStrings.byte_in "0" "9" c.

Definition lower_alnum_dot_hyphen (c : ascii) : bool :=
  lower_alnum c || Ascii.eqb c "." || Ascii.eqb c "-".

(** [^[a-z0-9][a-z0-9.-]{1,61}[a-z0-9]$] *)
Definition bucketDNSNameRegex : Regexp.regex :=
  Regexp.Cat (Regexp.Cls lower_alnum)
    (Regexp.Cat (Regexp.Rep (Regexp.Cls lower_alnum_dot_hyphen) 1 61)
                (Regexp.Cls lower_alnum)).

Definition allowedTypes : gmap string bool :=
  <["image/jpeg" := true]> (<["image/png" := true]> (<["application/pdf" := true]> ∅)).

(** [allowedTypes[k]]: a missing key reads as [false]. *)
Definition allowed (k : string) : bool := default false (allowedTypes !! k).

Definition err_length : error :=
  Errorf ("bucket name length must be between "
          +:+ Fmt.verb_d (Z.of_nat minBucketNameLength) +:+ " and "
          +:+ Fmt.verb_d (Z.of_nat maxBucketNameLength)).
Definition err_pattern : error := Errorf "invalid bucket name pattern".
Definition err_dots : error := Errorf "bucket name cannot contain consecutive dots".
Definition err_no_seek : error := Errorf "file content must support seeking".

Section Methods.
Context `{Platform} {R : Type} (s : t R).

Abbreviation W := (World R Entropy).

(** The folded and trimmed copy of the name that the validator looks at. *)
Definition normalize (bucket : string) : string := TrimSpace (ToLower bucket).

Definition validateBucketName (bucket : string) : option error :=
  let bucket := TrimSpace (ToLower bucket) in
  if String.eqb bucket "" then Some ErrBucketNameRequired
  else if Nat.ltb (String.length bucket) minBucketNameLength
          || Nat.ltb maxBucketNameLength (String.length bucket)
  then Some err_length
  else if negb (Regexp.MatchString bucketDNSNameRegex bucket) then Some err_pattern
  else if GoStrings.Contains bucket ".." then Some err_dots
  else None.

(** [err != nil && err != io.EOF] *)
Definition read_failed (rerr : option error) : option error :=
  match rerr with
  | Some err => if decide (err = io_EOF) then None else Some err
  | None => None
  end.

(** The file is passed by pointer: the method hands back the file as it
    leaves it, here with the stream moved. *)
Definition validateFile (f : File.t) : M W (option error * File.t) :=
  match File.Content f with
  | None => ret (Some err_no_seek, f)
  | Some content =>
      fun w =>
        let '((buffer, rerr), content) := Stream.Read content 512 in
        let w := log (EvRead (length buffer)) w in
        let f := File.set_Content f (Some content) in
        match read_failed rerr with
        | Some err => (Some (Wrapf "failed to read file header" err), f, w)
        | None =>
            let '(serr, content) := Stream.SeekStart content in
            let w := log EvSeek w in
            let f := File.set_Content f (Some content) in
            match serr with
            | Some err => (Some (Wrapf "failed to reset file pointer" err), f, w)
            | None =>
                let detectedType := DetectContentType buffer in
                if negb (allowed detectedType) then (Some ErrInvalidFileType, f, w)
                else (None, f, w)
            end
        end
  end.

(** A call through [s.repo], entered in the trace. *)
Definition call_repo {A} (c : Repository.call) (m : R -> A * R) : M W A :=
  fun w =>
    let (a, r) := m (store w) in
    (a, mkWorld r (entropy w) (trace w ++ [EvRepo c])).

Definition call_NewV7 : M W (UUID.t + error) :=
  fun w =>
    let (r, e) := NewV7 (entropy w) in
    (r, mkWorld (store w) e (trace w ++ [EvNewV7])).

Definition UploadFile (ctx : Ctx) (bucket : string) (file : File.t)
  : M W ((string + error) * File.t) :=
  let ctx := WithTimeout ctx uploadTimeout in
  match validateBucketName bucket with
  | Some err => ret (inr err, file)
  | None =>
      vf <~ validateFile file ;;
      let '(verr, file) := vf in
      match verr with
      | Some err => ret (inr err, file)
      | None =>
          id <~ call_NewV7 ;;
          match id with
          | inr err => ret (inr (Wrapf "failed to generate unique id" err), file)
          | inl id =>
              let file := File.set_Name file (UUID.String id +:+ GoStrings.Ext (File.Name file)) in
              r <~ call_repo (Repository.CallUpload ctx bucket file)
                     (Repository.Upload (repo s) ctx bucket file) ;;
              match r with
              | inr err => ret (inr err, file)
              | inl url => ret (inl url, File.set_URL file url)
              end
          end
      end
  end.

Definition GetDownloadURL (ctx : Ctx) (bucket key : string) : M W (string + error) :=
  match validateBucketName bucket with
  | Some err => ret (inr err)
  | None =>
      call_repo (Repository.CallGetPresignURL ctx bucket key (15 * Minute))
        (Repository.GetPresignURL (repo s) ctx bucket key (15 * Minute))
  end.

Definition DownloadFile (ctx : Ctx) (bucket key : string) : M W (Stream.t + error) :=
  match validateBucketName bucket with
  | Some err => ret (inr err)
  | None =>
      call_repo (Repository.CallDownload ctx bucket key)
        (Repository.Download (repo s) ctx bucket key)
  end.

Definition ListFiles (ctx : Ctx) (bucket ext token : string) (limit : Z)
  : M W (PaginatedFiles.t + error) :=
  match validateBucketName bucket with
  | Some err => ret (inr err)
  | None =>
      let limit := if (limit <=? 0)%Z then 10%Z else limit in
      res <~ call_repo (Repository.CallList ctx bucket "" token (Int.wrap32 limit))
               (Repository.List (repo s) ctx bucket "" token (Int.wrap32 limit)) ;;
      match res with
      | inr err => ret (inr err)
      | inl res =>
          if String.eqb ext "" then ret (inl res)
          else
            let target := ToLower ext in
            let target :=
              if negb (GoStrings.HasPrefix target ".") then "." +:+ target else target in
            let filtered :=
              List.filter (fun f => String.eqb (ToLower (FileSummary.Extension f)) target)
                          (PaginatedFiles.Files res) in
            ret (inl (PaginatedFiles.mk filtered (PaginatedFiles.NextToken res)))
      end
  end.

Definition DeleteFile (ctx : Ctx) (bucket key : string) : M W (option error) :=
  let ctx := WithTimeout ctx deleteTimeout in
  if String.eqb key "" then ret (Some (Errorf "file key is required"))
  else
    match validateBucketName bucket with
    | Some err => ret (Some err)
    | None =>
        call_repo (Repository.CallDelete ctx bucket key)
          (Repository.Delete (repo s) ctx bucket key)
    end.

Definition GetBucketStats (ctx : Ctx) (bucket : string) : M W (BucketStats.t + error) :=
  match validateBucketName bucket with
  | Some err => ret (inr err)
  | None =>
      call_repo (Repository.CallGetStats ctx bucket)
        (Repository.GetStats (repo s) ctx bucket)
  end.

Definition CreateBucket (ctx : Ctx) (bucket : string) : M W (option error) :=
  match validateBucketName bucket with
  | Some err => ret (Some err)
  | None =>
      r <~ call_repo (Repository.CallCheckBucketExists ctx bucket)
             (Repository.CheckBucketExists (repo s) ctx bucket) ;;
      let '(exists_, err) := r in
      match err with
      | Some err => ret (Some err)
      | None =>
          if (exists_ : bool) then ret (Some ErrBucketAlreadyExists)
          else call_repo (Repository.CallCreateBucket ctx bucket)
                 (Repository.CreateBucket (repo s) ctx bucket)
      end
  end.

Definition DeleteBucket (ctx : Ctx) (bucket : string) : M W (option error) :=
  match validateBucketName bucket with
  | Some err => ret (Some err)
  | None =>
      call_repo (Repository.CallDeleteBucket ctx bucket)
        (Repository.DeleteBucket (repo s) ctx bucket)
  end.

Definition EmptyBucket (ctx : Ctx) (bucket : string) : M W (option error) :=
  match validateBucketName bucket with
  | Some err => ret (Some err)
  | None =>
      call_repo (Repository.CallDeleteAll ctx bucket)
        (Repository.DeleteAll (repo s) ctx bucket)
  end.

Definition ListAllBuckets (ctx : Ctx) : M W (list BucketSummary.t + error) :=
  call_repo (Repository.CallListBuckets ctx) (Repository.ListBuckets (repo s) ctx).

(** *** The fan-out of [UploadMultipleFiles]

    [errgroup] starts one goroutine per file and [Wait] returns once all
    have finished.  A goroutine writes its slot of [results] or reports
    its error when its [UploadFile] has returned, so a run is fixed by the
    order in which the goroutines finish: [sched] lists the task indices
    in that order.  The group keeps the first error reported and cancels
    the shared context then; later uploads see the cancelled context.
    Each upload runs on the world the earlier ones left.  The pointers in
    [files] are taken to be non-nil and pairwise distinct, as the handler
    builds them, so a task owns its file as it owns its slot. *)
Record fanout : Type := mkFanout {
  fo_world : W;
  fo_files : list File.t;
  results : list string;
  group_err : option error;
  group_ctx : Ctx;
  (** which task finished with what, in order of completion *)
  completed : list (nat * (string + error))
}.

(** The goroutine of index [i] runs and finishes.  An index that names no
    file names no goroutine. *)
Definition task (bucket : string) (st : fanout) (i : nat) : fanout :=
  match fo_files st !! i with
  | None => st
  | Some f =>
      let '((r, f'), w') := UploadFile (group_ctx st) bucket f (fo_world st) in
      match r with
      | inl url =>
          mkFanout w' (<[i := f']> (fo_files st)) (<[i := url]> (results st))
                   (group_err st) (group_ctx st) (completed st ++ [(i, r)])
      | inr err =>
          match group_err st with
          | None =>
              mkFanout w' (<[i := f']> (fo_files st)) (results st)
                       (Some err) (cancel (group_ctx st)) (completed st ++ [(i, r)])
          | Some _ =>
              mkFanout w' (<[i := f']> (fo_files st)) (results st)
                       (group_err st) (group_ctx st) (completed st ++ [(i, r)])
          end
      end
  end.

Definition fanout_init (ctx : Ctx) (files : list File.t) (w : W) : fanout :=
  mkFanout w files (replicate (length files) "") None ctx [].

Definition fanout_run (ctx : Ctx) (bucket : string) (files : list File.t)
    (sched : list nat) (w : W) : fanout :=
  foldl (task bucket) (fanout_init ctx files w) sched.

(** The returned pair [(urls, err)]; a nil slice is [None]. *)
Definition UploadMultipleFiles (ctx : Ctx) (bucket : string) (files : list File.t)
    (sched : list nat) : M W (option (list string) * option error) :=
  fun w =>
    let st := fanout_run ctx bucket files sched w in
    match group_err st with
    | Some err => ((None, Some err), fo_world st)
    | None => ((Some (results st), None), fo_world st)
    end.

End Methods.

End uploadService.

(** ** The AWS client, as far as the repository uses it *)

Module S3.

Record PutObjectInput : Type := mkPutObjectInput {
  put_Bucket : option string;
  put_Key : option string;
  put_Body : option Stream.t
}.

Record ListObjectsV2Input : Type := mkListObjectsV2Input {
  list_Bucket : option string;
  list_Prefix : option string;
  list_ContinuationToken : option string;
  list_MaxKeys : option Z
}.

(** Input of [GetObject], [DeleteObject] and [PresignGetObject]. *)
Record ObjectInput : Type := mkObjectInput {
  obj_Bucket : option string;
  obj_Key : option string
}.

Record DeleteObjectsInput : Type := mkDeleteObjectsInput {
  del_Bucket : option string;
  del_Objects : list (option string)
}.

(** [types.Object] *)
Record Object : Type := mkObject {
  Key : option string;
  Size : option Z;
  StorageClass : string;
  LastModified : option Z
}.

Record ListObjectsV2Output : Type := mkListObjectsV2Output {
  Contents : list Object;
  NextContinuationToken : option string
}.

(** [types.Bucket] *)
Record Bucket : Type := mkBucket {
  Name : option string;
  CreationDate : option Z
}.

(** The client over the state [S] of the remote service. *)
Record Client (S : Type) : Type := mkClient {
  PutObject : Ctx -> PutObjectInput -> S -> option error * S;
  ListObjectsV2 : Ctx -> ListObjectsV2Input -> S -> (ListObjectsV2Output + error) * S;
  DeleteObject : Ctx -> ObjectInput -> S -> option error * S;
  GetObject : Ctx -> ObjectInput -> S -> (Stream.t + error) * S;
  PresignGetObject : Ctx -> ObjectInput -> Z -> S -> (string + error) * S;
  HeadBucket : Ctx -> option string -> S -> option error * S;
  CreateBucket : Ctx -> option string -> S -> option error * S;
  ListBuckets : Ctx -> S -> (list Bucket + error) * S;
  DeleteBucket : Ctx -> option string -> S -> option error * S;
  DeleteObjects : Ctx -> DeleteObjectsInput -> S -> option error * S
}.
Arguments PutObject {S}.
Arguments ListObjectsV2 {S}.
Arguments DeleteObject {S}.
Arguments GetObject {S}.
Arguments PresignGetObject {S}.
Arguments HeadBucket {S}.
Arguments CreateBucket {S}.
Arguments ListBuckets {S}.
Arguments DeleteBucket {S}.
Arguments DeleteObjects {S}.

(** A request sent through the client. *)
Inductive request : Type :=
  | ReqPutObject (i : PutObjectInput)
  | ReqListObjectsV2 (i : ListObjectsV2Input)
  | ReqDeleteObject (i : ObjectInput)
  | ReqGetObject (i : ObjectInput)
  | ReqPresignGetObject (i : ObjectInput) (expires : Z)
  | ReqHeadBucket (bucket : option string)
  | ReqCreateBucket (bucket : option string)
  | ReqListBuckets
  | ReqDeleteBucket (bucket : option string)
  | ReqDeleteObjects (i : DeleteObjectsInput).

(** The remote service together with the requests it has received. *)
Record Remote (S : Type) : Type := mkRemote {
  backend : S;
  requests : list request
}.
Arguments mkRemote {S}.
Arguments backend {S}.
Arguments requests {S}.

Definition send {S A} (rq : request) (m : S -> A * S) : M (Remote S) A :=
  fun w =>
    let (a, b) := m (backend w) in
    (a, mkRemote b (requests w ++ [rq])).

(** [aws.ToString], [aws.ToInt64], [aws.ToTime]: the zero value for nil. *)
Definition ToString (p : option string) : string := default "" p.
Definition ToInt64 (p : option Z) : Z := default 0%Z p.
Definition ToTime (p : option Z) : Z := default 0%Z p.

End S3.

(** ** s3_repository.go *)

Module S3Repository.

Record t (S : Type) : Type := mk {
  client : S3.Client S;
  region : string
}.
Arguments client {S}.
Arguments region {S}.

(** [fmt.Sprintf("https://%s.s3.%s.amazonaws.com/%s", bucket, region, key)] *)
Definition object_url (bucket region key : string) : string :=
  "https://" +:+ bucket +:+ ".s3." +:+ region +:+ ".amazonaws.com/" +:+ key.

Section Methods.
Context `{Platform} {S : Type} (r : t S).

Abbreviation W := (S3.Remote S).

Definition Upload (ctx : Ctx) (bucket : string) (file : File.t) : M W (string + error) :=
  let input := S3.mkPutObjectInput (Some bucket) (Some (File.Name file)) (File.Content file) in
  err <~ S3.send (S3.ReqPutObject input) (S3.PutObject (client r) ctx input) ;;
  match err with
  | Some err => ret (inr (Wrapf "failed to upload" err))
  | None => ret (inl (object_url bucket (region r) (File.Name file)))
  end.

Definition summary (bucket : string) (obj : S3.Object) : FileSummary.t :=
  let key := S3.ToString (S3.Key obj) in
  let size := S3.ToInt64 (S3.Size obj) in
  FileSummary.mk key
    (object_url bucket (region r) key)
    size
    (FormatBytes.formatBytes size)
    (ToLower (GoStrings.Ext key))
    (S3.StorageClass obj)
    (S3.ToTime (S3.LastModified obj)).

Definition List (ctx : Ctx) (bucket prefix token : string) (limit : Z)
  : M W (PaginatedFiles.t + error) :=
  let input :=
    S3.mkListObjectsV2Input (Some bucket) (Some prefix)
      (if String.eqb token "" then None else Some token) (Some limit) in
  out <~ S3.send (S3.ReqListObjectsV2 input) (S3.ListObjectsV2 (client r) ctx input) ;;
  match out with
  | inr err => ret (inr (Wrapf "failed to list objects" err))
  | inl output =>
      let files := List.map (summary bucket) (S3.Contents output) in
      let next := match S3.NextContinuationToken output with Some t => t | None => "" end in
      ret (inl (PaginatedFiles.mk files next))
  end.

Definition Delete (ctx : Ctx) (bucket key : string) : M W (option error) :=
  let input := S3.mkObjectInput (Some bucket) (Some key) in
  S3.send (S3.ReqDeleteObject input) (S3.DeleteObject (client r) ctx input).

Definition Download (ctx : Ctx) (bucket key : string) : M W (Stream.t + error) :=
  let input := S3.mkObjectInput (Some bucket) (Some key) in
  S3.send (S3.ReqGetObject input) (S3.GetObject (client r) ctx input).

Definition GetPresignURL (ctx : Ctx) (bucket key : string) (exp : Z) : M W (string + error) :=
  let input := S3.mkObjectInput (Some bucket) (Some key) in
  S3.send (S3.ReqPresignGetObject input exp) (S3.PresignGetObject (client r) ctx input exp).

Definition CheckBucketExists (ctx : Ctx) (bucket : string) : M W (bool * option error) :=
  err <~ S3.send (S3.ReqHeadBucket (Some bucket)) (S3.HeadBucket (client r) ctx (Some bucket)) ;;
  match err with
  | Some _ => ret (false, None)
  | None => ret (true, None)
  end.

Definition CreateBucket (ctx : Ctx) (bucket : string) : M W (option error) :=
  S3.send (S3.ReqCreateBucket (Some bucket)) (S3.CreateBucket (client r) ctx (Some bucket)).

Definition ListBuckets (ctx : Ctx) : M W (list BucketSummary.t + error) :=
  out <~ S3.send S3.ReqListBuckets (S3.ListBuckets (client r) ctx) ;;
  match out with
  | inr err => ret (inr err)
  | inl buckets =>
      ret (inl (List.map (fun b => BucketSummary.mk (S3.ToString (S3.Name b))
                                                    (S3.ToTime (S3.CreationDate b))) buckets))
  end.

Definition DeleteBucket (ctx : Ctx) (bucket : string) : M W (option error) :=
  S3.send (S3.ReqDeleteBucket (Some bucket)) (S3.DeleteBucket (client r) ctx (Some bucket)).

Definition bucket_only (bucket : string) : S3.ListObjectsV2Input :=
  S3.mkListObjectsV2Input (Some bucket) None None None.

Definition DeleteAll (ctx : Ctx) (bucket : string) : M W (option error) :=
  out <~ S3.send (S3.ReqListObjectsV2 (bucket_only bucket))
           (S3.ListObjectsV2 (client r) ctx (bucket_only bucket)) ;;
  match out with
  | inr err => ret (Some err)
  | inl output =>
      if Nat.eqb (length (S3.Contents output)) 0 then ret None
      else
        let input := S3.mkDeleteObjectsInput (Some bucket) (List.map S3.Key (S3.Contents output)) in
        S3.send (S3.ReqDeleteObjects input) (S3.DeleteObjects (client r) ctx input)
  end.

(** [totalSize += aws.ToInt64(obj.Size)] over the page, on [int64]. *)
Definition total_size (objs : list S3.Object) : Z :=
  foldl (fun total obj => Int.wrap64 (total + S3.ToInt64 (S3.Size obj))) 0%Z objs.

Definition GetStats (ctx : Ctx) (bucket : string) : M W (BucketStats.t + error) :=
  out <~ S3.send (S3.ReqListObjectsV2 (bucket_only bucket))
           (S3.ListObjectsV2 (client r) ctx (bucket_only bucket)) ;;
  match out with
  | inr err => ret (inr err)
  | inl output =>
      let totalSize := total_size (S3.Contents output) in
      ret (inl (BucketStats.mk bucket
                  (Z.of_nat (length (S3.Contents output)))
                  totalSize
                  (FormatBytes.formatBytes totalSize)))
  end.

(** The method table that makes [r] a [Repository]. *)
Definition as_Repository : Repository.t W :=
  Repository.mk W Upload GetPresignURL Download List Delete CheckBucketExists
    CreateBucket ListBuckets GetStats DeleteAll DeleteBucket.

End Methods.

Definition NewS3Repository `{Platform} {S : Type} (client : S3.Client S) (region : string)
  : Repository.t (S3.Remote S) :=
  as_Repository (mk S client region).

End S3Repository.

(** ** Words of the specification *)

(** "Starts and ends with a lowercase alphanumeric character, and contains
    only lowercase alphanumerics, dots, and hyphens in between." *)
Definition dns_shape (name : string) : bool :=
  match list_ascii_of_string name with
  | [] => false
  | first :: rest =>
      uploadService.lower_alnum first &&
      match rev rest with
      | [] => false
      | last :: between =>
          uploadService.lower_alnum last
          && forallb uploadService.lower_alnum_dot_hyphen between
      end
  end.

(** The three allow-listed media types. *)
Definition allow_list : list string := ["image/jpeg"; "image/png"; "application/pdf"].

(** "Lower-cased and prefixed with [.] if missing." *)
Definition dotted_lower `{Platform} (ext : string) : string :=
  let lower := ToLower ext in
  if GoStrings.HasPrefix lower "." then lower else "." +:+ lower.

(** The sum of the sizes on a page, as a number. *)
Definition sum_sizes (objs : list S3.Object) : Z :=
  foldr (fun obj acc => (S3.ToInt64 (S3.Size obj) + acc)%Z) 0%Z objs.

(** The first error in a list of completed tasks. *)
Fixpoint first_failure (done : list (nat * (string + error))) : option error :=
  match done with
  | [] => None
  | (_, inr err) :: _ => Some err
  | (_, inl _) :: done' => first_failure done'
  end.

(** The bucket arguments a recording repository has been handed so far. *)
Definition received {R E} (w : World (R * list string) E) : list string :=
  snd (store w).

(** What holds of the fan-out after the goroutines of [done] have finished,
    in that order. *)
Definition fanout_inv `{Platform} {R : Type} (files : list File.t) (done : list nat)
    (st : uploadService.fanout (R := R)) : Prop :=
  List.map fst (uploadService.completed st) = done
  /\ length (uploadService.fo_files st) = length files
  /\ length (uploadService.results st) = length files
  /\ uploadService.group_err st = first_failure (uploadService.completed st)
  /\ (forall i url, (i, inl url) ∈ uploadService.completed st ->
                    uploadService.results st !! i = Some url)
  /\ (forall j, j ∉ done -> uploadService.fo_files st !! j = files !! j).

(** ** Stand-ins for the libraries, to run the model on concrete inputs *)

Module Fake.

Fixpoint starts_with (sig data : list ascii) : bool :=
  match sig, data with
  | [], _ => true
  | c :: sig', d :: data' => Ascii.eqb c d && starts_with sig' data'
  | _ :: _, [] => false
  end.

Definition png_magic : list ascii := List.map ascii_of_nat [137; 80; 78; 71; 13; 10; 26; 10].
Definition jpeg_magic : list ascii := List.map ascii_of_nat [255; 216; 255].
Definition pdf_magic : list ascii := list_ascii_of_string "%PDF-".

(** A sniffer that knows the signatures of the three allow-listed types and
    calls everything else a byte stream. *)
Definition sniff (data : list ascii) : string :=
  if starts_with pdf_magic data then "application/pdf"
  else if starts_with png_magic data then "image/png"
  else if starts_with jpeg_magic data then "image/jpeg"
  else "application/octet-stream".

(** An identifier source that hands out a prepared list. *)
Definition next_id (e : list UUID.t) : (UUID.t + error) * list UUID.t :=
  match e with
  | [] => (inr (Errorf "no entropy"), [])
  | id :: e' => (inl id, e')
  end.

(** The Unicode paths are never entered on ASCII text; here they leave the
    text as it is. *)
Definition platform : Platform :=
  Build_Platform (fun s => s) (fun s => s) (fun s => s) sniff (list UUID.t) next_id.

(** An in-memory store: the objects as (bucket, key, size), in order of
    arrival.  A request on a cancelled context fails. *)
Definition store : Type := list (string * string * Z).

Definition canceled : error := Errorf "context canceled".

Definition body_size (body : option Stream.t) : Z :=
  match body with
  | Some s => Z.of_nat (length (Stream.data s))
  | None => 0%Z
  end.

Definition in_bucket (bucket : option string) (o : string * string * Z) : bool :=
  String.eqb (S3.ToString bucket) (fst (fst o)).

Definition to_object (o : string * string * Z) : S3.Object :=
  S3.mkObject (Some (snd (fst o))) (Some (snd o)) "STANDARD" (Some 0%Z).

Definition client : S3.Client store :=
  S3.mkClient store
    (fun ctx i st =>
       if ctx_done ctx then (Some canceled, st)
       else (None, st ++ [(S3.ToString (S3.put_Bucket i), S3.ToString (S3.put_Key i),
                           body_size (S3.put_Body i))]))
    (fun ctx i st =>
       if ctx_done ctx then (inr canceled, st)
       else (inl (S3.mkListObjectsV2Output
                    (List.map to_object (List.filter (in_bucket (S3.list_Bucket i)) st))
                    None), st))
    (fun ctx i st => (None, st))
    (fun ctx i st => (inr ErrFileNotFound, st))
    (fun ctx i exp st => (inl ("https://signed/" +:+ S3.ToString (S3.obj_Key i)), st))
    (fun ctx b st => (None, st))
    (fun ctx b st => (None, st))
    (fun ctx st => (inl [], st))
    (fun ctx b st => (None, st))
    (fun ctx i st => (None, List.filter (fun o => negb (in_bucket (S3.del_Bucket i) o)) st)).

Definition service : uploadService.t (S3.Remote store) :=
  uploadService.NewService
    (S3Repository.NewS3Repository (H := platform) client "us-east-1").

Definition world (ids : list UUID.t) : World (S3.Remote store) (list UUID.t) :=
  mkWorld (S3.mkRemote [] []) ids [].

(** A world whose store holds three objects of one bucket. *)
Definition stocked_world : World (S3.Remote store) (list UUID.t) :=
  mkWorld (S3.mkRemote [("my-test-bucket", "IMG.PNG", 10%Z);
                        ("my-test-bucket", "doc.pdf", 2048%Z);
                        ("my-test-bucket", "x.png", 5%Z)] []) [] [].

Definition png_stream : Stream.t :=
  Stream.mk (png_magic ++ list_ascii_of_string "0000") 0 None None.

Definition text_stream : Stream.t :=
  Stream.mk (list_ascii_of_string "hello") 0 None None.

Definition png_file (name : string) : File.t :=
  File.mk name "" (Some png_stream) 12 "image/png".

Definition text_file (name : string) : File.t :=
  File.mk name "" (Some text_stream) 5 "text/plain".

(** 0193a5b2-c3d4-7ef0-8123-456789abcdea *)
Definition id_a : UUID.t :=
  List.map ascii_of_nat [1; 147; 165; 178; 195; 212; 126; 240; 129; 35; 69; 103; 137; 171; 205; 234].

(** 0193a5b2-c3d4-7ef0-8123-456789abcdeb *)
Definition id_b : UUID.t :=
  List.map ascii_of_nat [1; 147; 165; 178; 195; 212; 126; 240; 129; 35; 69; 103; 137; 171; 205; 235].

End Fake.

(** A stream that has been read past four bytes of padding in front of a
    PNG header, and a file on it. *)
Definition advanced_stream : Stream.t :=
  Stream.mk (list_ascii_of_string "xxxx" ++ Fake.png_magic ++ list_ascii_of_string "0000")
            4 None None.

Definition advanced_file : File.t :=
  File.mk "x.png" "" (Some advanced_stream) 16 "image/png".

(** ** [errors.Is] and [Error] on the errors of the package *)

Module Errors.

(** [errors.Is(err, target)]: [err] or an error it wraps is [target].  The
    handler asks it of the five sentinels only, for which being the same
    value is being the same constructor. *)
Fixpoint Is (err target : error) : bool :=
  if decide (err = target) then true
  else match err with
       | Wrapf _ cause => Is cause target
       | _ => false
       end.

(** [err.Error()] *)
Fixpoint Error (err : error) : string :=
  match err with
  | ErrBucketNameRequired => "bucket name is required"
  | ErrFileNotFound => "file not found in storage"
  | ErrInvalidFileType => "file type not allowed or malicious content detected"
  | ErrBucketAlreadyExists => "bucket already exists"
  | ErrOperationTimeout => "the operation timed out"
  | io_EOF => "EOF"
  | Errorf msg => msg
  | Wrapf msg cause => msg +:+ ": " +:+ Error cause
  end.

(** An error that is none of the package's sentinels and wraps none: what
    a library that does not know the package can return. *)
Definition foreign (err : error) : Prop :=
  Is err ErrBucketNameRequired = false
  /\ Is err ErrFileNotFound = false
  /\ Is err ErrInvalidFileType = false
  /\ Is err ErrBucketAlreadyExists = false
  /\ Is err ErrOperationTimeout = false.

End Errors.

(** ** handler.go *)

Module Handler.

(** A part of a multipart form: [multipart.FileHeader] with what its [Open]
    answers. *)
Record FileHeader : Type := mkFileHeader {
  Filename : string;
  fh_Size : Z;
  fh_ContentType : string;
  Open : Stream.t + error
}.

(** What a handler reads of the request. *)
Record request : Type := mkRequest {
  (** the URL query; [c.Query] of a missing key is the empty string *)
  query : gmap string string;
  (** the form values; [c.PostForm] of a missing key is the empty string *)
  form : gmap string string;
  (** [c.FormFile("file")], [None] when it fails *)
  form_file : option FileHeader;
  (** [c.MultipartForm()], [None] when it fails, else [form.File["files"]] *)
  multipart_files : option (list FileHeader);
  (** the field [bucket_name] of the JSON body, [None] when the body does
      not parse or lacks it *)
  json_bucket_name : option string
}.

Definition Query (c : request) (key : string) : string := default "" (query c !! key).
Definition PostForm (c : request) (key : string) : string := default "" (form c !! key).

(** The JSON bodies the handlers write. *)
Inductive payload : Type :=
  | H_error (msg : string)
  | H_url (url : string)
  | H_urls (urls : option (list string))
  | H_presigned_url (url : string)
  | J_files (page : PaginatedFiles.t)
  | J_stats (stats : BucketStats.t)
  | J_buckets (buckets : list BucketSummary.t).

Inductive response : Type :=
  | JSON (code : Z) (body : payload)
  | Status (code : Z)
  (** the headers of a download and the bytes copied to the writer *)
  | Attachment (filename : string) (content : list ascii).

Definition StatusOK : Z := 200.
Definition StatusCreated : Z := 201.
Definition StatusNoContent : Z := 204.
Definition StatusBadRequest : Z := 400.
Definition StatusNotFound : Z := 404.
Definition StatusConflict : Z := 409.
Definition StatusInternalServerError : Z := 500.
Definition StatusGatewayTimeout : Z := 504.

Definition code_of (r : response) : Z :=
  match r with
  | JSON code _ => code
  | Status code => code
  | Attachment _ _ => StatusOK
  end.

Definition handleError (err : error) : response :=
  if Errors.Is err ErrInvalidFileType || Errors.Is err ErrBucketNameRequired
  then JSON StatusBadRequest (H_error (Errors.Error err))
  else if Errors.Is err ErrBucketAlreadyExists
  then JSON StatusConflict (H_error (Errors.Error err))
  else if Errors.Is err ErrFileNotFound
  then JSON StatusNotFound (H_error (Errors.Error err))
  else if Errors.Is err ErrOperationTimeout
  then JSON StatusGatewayTimeout (H_error "request timed out")
  else JSON StatusInternalServerError (H_error "an unexpected error occurred").

(** [io.Copy(c.Writer, stream)], its error dropped: the bytes from the read
    position on, none when the stream cannot be read. *)
Definition copy_all (body : Stream.t) : list ascii :=
  match Stream.read_fault body with
  | Some _ => []
  | None => drop (Stream.pos body) (Stream.data body)
  end.

Definition file_of (header : FileHeader) (opened : Stream.t) : File.t :=
  File.mk (Filename header) "" (Some opened) (fh_Size header) (fh_ContentType header).

(** The loop of [UploadMultiple] over the headers: a part that does not
    open is passed over. *)
Fixpoint files_to_upload (headers : list FileHeader) : list File.t :=
  match headers with
  | [] => []
  | header :: rest =>
      match Open header with
      | inr _ => files_to_upload rest
      | inl opened => file_of header opened :: files_to_upload rest
      end
  end.

Section Methods.
Context `{Platform} {R : Type} (service : uploadService.t R).

Abbreviation W := (World R Entropy).

Definition UploadFile (ctx : Ctx) (c : request) : M W response :=
  let bucket := PostForm c "bucket" in
  match form_file c with
  | None => ret (JSON StatusBadRequest (H_error "file field is required"))
  | Some fileHeader =>
      match Open fileHeader with
      | inr _ => ret (JSON StatusInternalServerError (H_error "failed to open file"))
      | inl openedFile =>
          r <~ uploadService.UploadFile service ctx bucket (file_of fileHeader openedFile) ;;
          match fst r with
          | inr err => ret (handleError err)
          | inl url => ret (JSON StatusCreated (H_url url))
          end
      end
  end.

(** [sched] is the order in which the uploads of the fan-out finish. *)
Definition UploadMultiple (ctx : Ctx) (c : request) (sched : list nat) : M W response :=
  let bucket := PostForm c "bucket" in
  match multipart_files c with
  | None => ret (JSON StatusBadRequest (H_error "invalid multipart form"))
  | Some filesHeaders =>
      if Nat.eqb (length filesHeaders) 0
      then ret (JSON StatusBadRequest (H_error "no files provided"))
      else
        r <~ uploadService.UploadMultipleFiles service ctx bucket
               (files_to_upload filesHeaders) sched ;;
        let '(urls, err) := r in
        match err with
        | Some err => ret (handleError err)
        | None => ret (JSON StatusCreated (H_urls urls))
        end
  end.

Definition GetPresignedURL (ctx : Ctx) (c : request) : M W response :=
  r <~ uploadService.GetDownloadURL service ctx (Query c "bucket") (Query c "key") ;;
  match r with
  | inr err => ret (handleError err)
  | inl url => ret (JSON StatusOK (H_presigned_url url))
  end.

Definition DownloadFile (ctx : Ctx) (c : request) : M W response :=
  r <~ uploadService.DownloadFile service ctx (Query c "bucket") (Query c "key") ;;
  match r with
  | inr err => ret (handleError err)
  | inl stream => ret (Attachment (Query c "key") (copy_all stream))
  end.

Definition DeleteFile (ctx : Ctx) (c : request) : M W response :=
  err <~ uploadService.DeleteFile service ctx (Query c "bucket") (Query c "key") ;;
  match err with
  | Some err => ret (handleError err)
  | None => ret (Status StatusNoContent)
  end.

Definition GetBucketStats (ctx : Ctx) (c : request) : M W response :=
  let bucket := Query c "bucket" in
  if String.eqb bucket "" then
    ret (JSON StatusBadRequest (H_error "bucket parameter is required"))
  else
    r <~ uploadService.GetBucketStats service ctx bucket ;;
    match r with
    | inr err => ret (JSON StatusInternalServerError (H_error (Errors.Error err)))
    | inl stats => ret (JSON StatusOK (J_stats stats))
    end.

(** [binding:"required"] refuses a missing and an empty name. *)
Definition CreateBucket (ctx : Ctx) (c : request) : M W response :=
  match json_bucket_name c with
  | None => ret (JSON StatusBadRequest (H_error "valid bucket_name is required"))
  | Some name =>
      if String.eqb name "" then
        ret (JSON StatusBadRequest (H_error "valid bucket_name is required"))
      else
        err <~ uploadService.CreateBucket service ctx name ;;
        match err with
        | Some err => ret (handleError err)
        | None => ret (Status StatusCreated)
        end
  end.

Definition ListBuckets (ctx : Ctx) (c : request) : M W response :=
  r <~ uploadService.ListAllBuckets service ctx ;;
  match r with
  | inr err => ret (handleError err)
  | inl buckets => ret (JSON StatusOK (J_buckets buckets))
  end.

Definition DeleteBucket (ctx : Ctx) (c : request) : M W response :=
  err <~ uploadService.DeleteBucket service ctx (Query c "name") ;;
  match err with
  | Some err => ret (handleError err)
  | None => ret (Status StatusNoContent)
  end.

Definition EmptyBucket (ctx : Ctx) (c : request) : M W response :=
  let bucket := Query c "bucket" in
  if String.eqb bucket "" then
    ret (JSON StatusBadRequest (H_error "bucket parameter is required"))
  else
    err <~ uploadService.EmptyBucket service ctx bucket ;;
    match err with
    | Some err => ret (JSON StatusInternalServerError (H_error (Errors.Error err)))
    | None => ret (Status StatusNoContent)
    end.

End Methods.

End Handler.

(** ** Words for the further properties *)

(** A byte that is neither a path separator nor a dot. *)
Definition plain (c : ascii) : bool := negb (Ascii.eqb c "/") && negb (Ascii.eqb c ".").

Definition plain_text (txt : string) : bool := forallb plain (list_ascii_of_string txt).

(** The file with another declared size and content type. *)
Definition redeclared (f : File.t) (size : Z) (content_type : string) : File.t :=
  File.mk (File.Name f) (File.URL f) (File.Content f) size content_type.

(** The repository calls among some events. *)
Definition upload_calls (evs : list event) : list (Ctx * string * File.t) :=
  omap (fun e => match e with
                 | EvRepo (Repository.CallUpload ctx b f) => Some (ctx, b, f)
                 | _ => None
                 end) evs.

(** An error that is neither the not-found nor the timeout sentinel, bare
    or wrapped. *)
Definition unclassed (err : error) : Prop :=
  Errors.Is err ErrFileNotFound = false /\ Errors.Is err ErrOperationTimeout = false.

(** A client all of whose errors are foreign to the package. *)
Definition foreign_client {S : Type} (client : S3.Client S) : Prop :=
  (forall ctx i st e, fst (S3.PutObject client ctx i st) = Some e -> Errors.foreign e)
  /\ (forall ctx i st e, fst (S3.ListObjectsV2 client ctx i st) = inr e -> Errors.foreign e)
  /\ (forall ctx i st e, fst (S3.DeleteObject client ctx i st) = Some e -> Errors.foreign e)
  /\ (forall ctx i st e, fst (S3.GetObject client ctx i st) = inr e -> Errors.foreign e)
  /\ (forall ctx i d st e,
        fst (S3.PresignGetObject client ctx i d st) = inr e -> Errors.foreign e)
  /\ (forall ctx b st e, fst (S3.CreateBucket client ctx b st) = Some e -> Errors.foreign e)
  /\ (forall ctx st e, fst (S3.ListBuckets client ctx st) = inr e -> Errors.foreign e)
  /\ (forall ctx b st e, fst (S3.DeleteBucket client ctx b st) = Some e -> Errors.foreign e).

(** A store that is out of reach: every request fails with the same error
    of the client library. *)
Definition unreachable : error := Errorf "dial tcp: connection refused".

Definition unreachable_client : S3.Client Datatypes.unit :=
  S3.mkClient Datatypes.unit
    (fun _ _ st => (Some unreachable, st)) (fun _ _ st => (inr unreachable, st))
    (fun _ _ st => (Some unreachable, st)) (fun _ _ st => (inr unreachable, st))
    (fun _ _ _ st => (inr unreachable, st)) (fun _ _ st => (Some unreachable, st))
    (fun _ _ st => (Some unreachable, st)) (fun _ st => (inr unreachable, st))
    (fun _ _ st => (Some unreachable, st)) (fun _ _ st => (Some unreachable, st)).

Definition unreachable_service : uploadService.t (S3.Remote Datatypes.unit) :=
  uploadService.NewService
    (S3Repository.NewS3Repository (H := Fake.platform) unreachable_client "us-east-1").

Definition unreachable_world : World (S3.Remote Datatypes.unit) (list UUID.t) :=
  mkWorld (S3.mkRemote tt []) [] [].

(** A request with these query parameters and nothing else. *)
Definition query_request (q : list (string * string)) : Handler.request :=
  Handler.mkRequest (list_to_map q) ∅ None None None.

(** * Part II: lemmas and theorems *)

(** ** Machine integers *)

Lemma wrap64_id z : Int.in_int64 z -> Int.wrap64 z = z.
Proof.
  unfold Int.in_int64, Int.min_int64, Int.max_int64, Int.wrap64, Int.wrap.
  intros Hz. rewrite Z.mod_small; lia.
Qed.

Lemma wrap64_range z : Int.in_int64 (Int.wrap64 z).
Proof.
  unfold Int.in_int64, Int.min_int64, Int.max_int64, Int.wrap64, Int.wrap.
  pose proof (Z.mod_pos_bound (z + 2 ^ (64 - 1)) (2 ^ 64) ltac:(lia)). lia.
Qed.


(** ** [formatBytes] *)

Section FormatBytesFacts.
Import FormatBytes.
Local Open Scope Z_scope.

(** More budget does not change a finished loop. *)
Lemma loop_fuel_S fuel : forall n div exp r,
  loop fuel n div exp = Some r -> loop (S fuel) n div exp = Some r.
Proof.
  induction fuel as [|fuel IH]; intros n div exp r; simpl.
  - destruct (unit <=? n); [discriminate | auto].
  - destruct (unit <=? n); [| auto]. intros Hr. apply IH in Hr. exact Hr.
Qed.

Lemma loop_fuel_le fuel fuel' n div exp r :
  (fuel <= fuel')%nat -> loop fuel n div exp = Some r -> loop fuel' n div exp = Some r.
Proof.
  induction 1 as [|m Hle IH]; [auto |]. intros Hr. apply loop_fuel_S. auto.
Qed.

Lemma division_count_pos fuel q : (0 < fuel)%nat -> (1 <= division_count fuel q)%nat.
Proof.
  destruct fuel as [|fuel]; [lia |]. intros _. simpl.
  destruct (q / 1024 <? 1024); lia.
Qed.

Lemma division_count_le fuel : forall q, (division_count fuel q <= fuel)%nat.
Proof.
  induction fuel as [|fuel IH]; intros q; simpl; [lia |].
  destruct (q / 1024 <? 1024); [lia |]. specialize (IH (q / 1024)). lia.
Qed.

Lemma division_count_bound fuel : forall q k,
  0 <= q -> q < 1024 ^ (Z.of_nat k + 1) -> (1 <= k)%nat ->
  (division_count fuel q <= k)%nat.
Proof.
  induction fuel as [|fuel IH]; intros q k Hq Hlt Hk; simpl; [lia |].
  destruct (Z.ltb_spec (q / 1024) 1024) as [Hs|Hg]; [lia |].
  destruct k as [|k]; [lia |].
  assert (Hp : 1024 ^ (Z.of_nat (S k) + 1) = 1024 * 1024 ^ (Z.of_nat k + 1)).
  { replace (Z.of_nat (S k) + 1) with (Z.succ (Z.of_nat k + 1)) by lia.
    rewrite Z.pow_succ_r by lia. reflexivity. }
  rewrite Hp in Hlt.
  assert (Hq' : q / 1024 < 1024 ^ (Z.of_nat k + 1))
    by (apply Z.div_lt_upper_bound; lia).
  destruct k as [|k]; [simpl in Hq'; lia |].
  specialize (IH (q / 1024) (S k) ltac:(apply Z.div_pos; lia) Hq' ltac:(lia)). lia.
Qed.

(** The loop against the count of divisions: started on the first quotient
    [q / 1024] it multiplies [div] once and increments [exp] once for every
    division after the first, and [div] never leaves [int64]. *)
Lemma loop_division_count fuel : forall q div exp,
  0 <= q -> q / 1024 < 1024 ^ Z.of_nat fuel ->
  0 < div -> div * (q / 1024) < 2 ^ 63 -> div < 2 ^ 63 ->
  0 <= exp -> exp + Z.of_nat fuel < 2 ^ 63 ->
  let c := Z.of_nat (division_count fuel q - 1) in
  loop fuel (q / 1024) div exp = Some (div * 1024 ^ c, exp + c).
Proof.
  induction fuel as [|fuel IH]; intros q div exp Hq Hlt Hdiv Hdb Hd63 Hexp Heb c.
  - subst c. simpl in *. unfold unit.
    destruct (Z.leb_spec 1024 (q / 1024)); [lia |]. f_equal. f_equal; lia.
  - subst c. cbn [loop division_count]. unfold unit.
    destruct (Z.leb_spec 1024 (q / 1024)) as [Hge|Hsmall];
      destruct (Z.ltb_spec (q / 1024) 1024) as [Hs'|Hg']; try lia.
    + rewrite Z.quot_div_nonneg by lia.
      assert (Hpow : 1024 ^ Z.of_nat (S fuel) = 1024 * 1024 ^ Z.of_nat fuel).
      { rewrite Nat2Z.inj_succ, Z.pow_succ_r by lia. reflexivity. }
      rewrite Hpow in *.
      assert (Hp : 0 < 1024 ^ Z.of_nat fuel) by (apply Z.pow_pos_nonneg; lia).
      assert (Hm : 1024 * (q / 1024 / 1024) <= q / 1024)
        by (apply Z.mul_div_le; lia).
      assert (Hn : 0 <= q / 1024 / 1024) by (apply Z.div_pos; lia).
      rewrite !wrap64_id
        by (unfold Int.in_int64, Int.min_int64, Int.max_int64; nia).
      assert (Hq' : q / 1024 / 1024 < 1024 ^ Z.of_nat fuel)
        by (apply Z.div_lt_upper_bound; lia).
      rewrite IH; try lia; try nia.
      destruct fuel as [|fuel'].
      { simpl in Hlt. lia. }
      pose proof (division_count_pos (S fuel') (q / 1024) ltac:(lia)) as Hc.
      replace (Z.of_nat (S (division_count (S fuel') (q / 1024)) - 1))
        with (Z.succ (Z.of_nat (division_count (S fuel') (q / 1024) - 1))) by lia.
      rewrite Z.pow_succ_r by lia. f_equal. f_equal; lia.
    + simpl. f_equal. f_equal; lia.
Qed.

(** On an [int64] of at least 1024 the loop ends with [div = 1024 ^ k] and
    [exp = k - 1] for the count [k] of divisions, whatever the budget from 6
    passes on, and [k] is at most 6. *)
Lemma loop_int64 fuel b :
  (6 <= fuel)%nat -> 1024 <= b -> Int.in_int64 b ->
  let k := division_count 64 b in
  loop fuel (Z.quot b unit) unit 0 = Some (1024 ^ Z.of_nat k, Z.of_nat k - 1)
  /\ (1 <= k <= 6)%nat.
Proof.
  intros Hfuel Hb [_ Hmax] k. unfold Int.max_int64 in Hmax.
  assert (Hk6 : (k <= 6)%nat).
  { apply division_count_bound; [lia | | lia]. simpl. lia. }
  assert (Hk1 : (1 <= k)%nat) by (apply division_count_pos; lia).
  split; [| lia].
  apply (loop_fuel_le 6 fuel); [lia |].
  unfold unit. rewrite Z.quot_div_nonneg by lia.
  assert (Hd : 1024 * (b / 1024) <= b) by (apply Z.mul_div_le; lia).
  assert (Hq : b / 1024 < 1024 ^ Z.of_nat 6).
  { apply Z.div_lt_upper_bound; [lia |]. simpl. lia. }
  assert (Hk' : division_count 6 b = k).
  { subst k. revert Hmax Hb. clear. intros Hmax Hb.
    assert (H6 : forall fuel, (6 <= fuel)%nat -> division_count fuel b = division_count 6 b).
    { intros fuel Hf.
      do 6 (destruct fuel as [|fuel]; [lia |]).
      cbn [division_count].
      repeat (match goal with
              | |- context [?x <? 1024] => destruct (Z.ltb_spec x 1024); try reflexivity
              end).
      exfalso.
      assert (Hchain : b / 1024 / 1024 / 1024 / 1024 / 1024 / 1024 < 1024).
      { repeat (apply Z.div_lt_upper_bound; [lia |]). lia. }
      lia. }
    symmetry. apply H6. lia. }
  rewrite loop_division_count; try lia.
  rewrite Hk'.
  assert (Hpk : 1024 ^ Z.of_nat k = 1024 * 1024 ^ Z.of_nat (k - 1)).
  { replace (Z.of_nat k) with (Z.succ (Z.of_nat (k - 1))) by lia.
    apply Z.pow_succ_r. lia. }
  rewrite Hpk. f_equal. f_equal. lia.
Qed.

Lemma division_count_bracket fuel : forall q,
  1024 <= q -> q < 1024 ^ (Z.of_nat fuel + 1) ->
  let k := Z.of_nat (division_count fuel q) in
  1024 ^ k <= q < 1024 ^ (k + 1).
Proof.
  induction fuel as [|fuel IH]; intros q Hq Hlt; [simpl in *; lia |].
  cbn [division_count].
  replace (Z.of_nat (S fuel) + 1) with (Z.succ (Z.of_nat fuel + 1)) in Hlt by lia.
  rewrite Z.pow_succ_r in Hlt by lia.
  assert (Hd : 1024 * (q / 1024) <= q) by (apply Z.mul_div_le; lia).
  assert (Hu : q < 1024 * (q / 1024) + 1024).
  { pose proof (Z.mod_pos_bound q 1024 ltac:(lia)).
    pose proof (Z.div_mod q 1024 ltac:(lia)). lia. }
  destruct (Z.ltb_spec (q / 1024) 1024) as [Hs|Hg].
  - simpl. lia.
  - assert (Hq' : q / 1024 < 1024 ^ (Z.of_nat fuel + 1))
      by (apply Z.div_lt_upper_bound; lia).
    specialize (IH (q / 1024) Hg Hq'). cbv zeta in IH.
    rewrite Nat2Z.inj_succ.
    replace (Z.succ (Z.of_nat (division_count fuel (q / 1024))) + 1)
      with (Z.succ (Z.of_nat (division_count fuel (q / 1024)) + 1)) by lia.
    rewrite !Z.pow_succ_r by lia. lia.
Qed.

Lemma unit_letter_spec_unit (k : nat) :
  (1 <= k <= 6)%nat -> unit_letter (Z.of_nat k - 1) = Some (spec_unit k).
Proof.
  intros Hk.
  do 7 (destruct k as [|k]; [first [lia | reflexivity] |]). lia.
Qed.

(** Below [2 ^ 53] the conversion to [float64] is exact. *)
Lemma float64_of_int_exact b : 0 <= b < 2 ^ 53 -> Fmt.float64_of_int b = b.
Proof.
  intros Hb. unfold Fmt.float64_of_int.
  destruct (Z.ltb_spec (Z.log2 (Z.abs b)) 53) as [Hl|Hl]; [reflexivity |].
  exfalso. rewrite Z.abs_eq in Hl by lia.
  destruct (Z.eq_dec b 0) as [->|Hne]; [simpl in Hl; lia |].
  assert (Hlog : Z.log2 b < 53) by (apply Z.log2_lt_pow2; lia). lia.
Qed.

(** [round_half_even] answers with an integer nearest to the quotient. *)
Lemma round_half_even_nearest num den :
  0 < den ->
  2 * Z.abs (num - Fmt.round_half_even num den * den) <= den.
Proof.
  intros Hden. unfold Fmt.round_half_even.
  pose proof (Z.div_mod num den ltac:(lia)) as Hdm.
  pose proof (Z.mod_pos_bound num den Hden) as Hmod.
  destruct (Z.ltb_spec den (2 * (num mod den))) as [H1|H1]; simpl.
  - nia.
  - destruct (Z.eqb_spec (2 * (num mod den)) den) as [H2|H2]; simpl.
    + destruct (Z.odd (num / den)); nia.
    + nia.
Qed.

(** C7, as amended.  A count below 1024 renders as the count followed by
    [" B"], as the specification says.  A larger count [b], with [k] the
    number of divisions by 1024 until the quotient falls below 1024 (so
    [1024 ^ k <= b < 1024 ^ (k + 1)] and [k] is from 1 to 6), renders as a
    number with one decimal, a space, the [k - 1]-th letter of KMGTPE and
    [B]; the number is the quotient by [1024 ^ k] not of [b] but of the
    float64 nearest to [b].  Whenever that float64 is [b] itself, and so for
    every count below [2 ^ 53], the text is the one the specification
    words, and the printed tenths are a nearest integer to ten times the
    exact quotient.  The five sample values of the specification come out
    as listed. *)
Theorem formatBytes_spec (b : Z) :
  Int.in_int64 b ->
  (b < 1024 -> formatBytes b = Returned (Fmt.verb_d b +:+ " B")
               /\ formatBytes b = Returned (spec_formatBytes b))
  /\ (1024 <= b ->
      let k := Z.of_nat (division_count 64 b) in
      1024 ^ k <= b < 1024 ^ (k + 1) /\ 1 <= k <= 6
      /\ formatBytes b =
           Returned (Fmt.verb_1f (Fmt.float64_of_int b) (1024 ^ k) +:+ " "
                     +:+ String (spec_unit (division_count 64 b)) "B")
      /\ (Fmt.float64_of_int b = b -> formatBytes b = Returned (spec_formatBytes b))
      /\ (b < 2 ^ 53 ->
          let t := Fmt.round_half_even (10 * b) (1024 ^ k) in
          formatBytes b = Returned (spec_formatBytes b)
          /\ Fmt.verb_1f (Fmt.float64_of_int b) (1024 ^ k)
             = Fmt.verb_d (t / 10) +:+ "." +:+ Fmt.verb_d (t mod 10)
          /\ 2 * Z.abs (10 * b - t * 1024 ^ k) <= 1024 ^ k))
  /\ formatBytes 0 = Returned "0 B"
  /\ formatBytes 1023 = Returned "1023 B"
  /\ formatBytes 1024 = Returned "1.0 KB"
  /\ formatBytes 1536 = Returned "1.5 KB"
  /\ formatBytes 1048576 = Returned "1.0 MB".
Proof.
  intros Hb.
  assert (Hbig : 1024 <= b ->
                 formatBytes b =
                 Returned (Fmt.verb_1f (Fmt.float64_of_int b)
                             (1024 ^ Z.of_nat (division_count 64 b)) +:+ " "
                           +:+ String (spec_unit (division_count 64 b)) "B")).
  { intros Hge. unfold formatBytes, formatBytes_fuel.
    destruct (Z.ltb_spec b unit) as [Hlt|_]; [unfold unit in Hlt; lia |].
    destruct (loop_int64 64 b ltac:(lia) Hge Hb) as [Hloop Hk].
    rewrite Hloop, (unit_letter_spec_unit _ Hk). reflexivity. }
  assert (Hsmall : b < 1024 -> formatBytes b = Returned (Fmt.verb_d b +:+ " B")).
  { intros Hlt. unfold formatBytes, formatBytes_fuel.
    destruct (Z.ltb_spec b unit) as [_|Hge]; [reflexivity | unfold unit in Hge; lia]. }
  assert (Hexact : 1024 <= b -> Fmt.float64_of_int b = b ->
                   formatBytes b = Returned (spec_formatBytes b)).
  { intros Hge Hf. rewrite (Hbig Hge), Hf. unfold spec_formatBytes.
    destruct (Z.ltb_spec b 1024) as [Hlt|_]; [lia | reflexivity]. }
  split.
  { intros Hlt. split; [exact (Hsmall Hlt) |].
    rewrite (Hsmall Hlt). unfold spec_formatBytes.
    destruct (Z.ltb_spec b 1024) as [_|Hge]; [reflexivity | lia]. }
  split.
  { intros Hge k.
    destruct (loop_int64 64 b ltac:(lia) Hge Hb) as [_ Hk].
    assert (Hbr : 1024 ^ k <= b < 1024 ^ (k + 1)).
    { apply (division_count_bracket 64 b Hge).
      destruct Hb as [_ Hmax]. unfold Int.max_int64 in Hmax. simpl. lia. }
    split; [exact Hbr |]. split; [subst k; lia |].
    split; [apply Hbig; lia |].
    split; [exact (Hexact Hge) |].
    intros H53 t.
    assert (Hf : Fmt.float64_of_int b = b) by (apply float64_of_int_exact; lia).
    split; [exact (Hexact Hge Hf) |].
    rewrite Hf. split; [reflexivity |].
    subst t. apply round_half_even_nearest. apply Z.pow_pos_nonneg; lia. }
  repeat split; reflexivity.
Qed.

Lemma formatBytes_spec_witness :
  Int.in_int64 1536 /\ formatBytes 1536 = Returned (spec_formatBytes 1536)
  /\ spec_formatBytes 1536 = "1.5 KB".
Proof.
  assert (H : Int.in_int64 1536)
    by (unfold Int.in_int64, Int.min_int64, Int.max_int64; lia).
  split; [exact H |].
  split; [| reflexivity].
  destruct (proj1 (proj2 (formatBytes_spec 1536 H)) ltac:(lia)) as (_ & _ & _ & _ & H53).
  exact (proj1 (H53 ltac:(lia))).
Defined.

(** C7, as worded, on the count [7 * 2 ^ 58 - 1], an [int64] one byte short
    of 1.75 EB.  Six divisions by 1024 leave 1, so the unit is E, and the
    quotient by [1024 ^ 6] lies strictly between 1.70 and 1.75: with one
    decimal it is 1.7, to the nearest tenth and cut off alike.  The code
    prints 1.8: the conversion to float64 rounds the count up to
    [7 * 2 ^ 58] first, whose quotient is 1.75 exactly, a tie that goes to
    the even tenth. *)
Lemma formatBytes_float64_rounding :
  Int.in_int64 2017612633061982207
  /\ division_count 64 2017612633061982207 = 6%nat
  /\ 170 * 1024 ^ 6 < 100 * 2017612633061982207 < 175 * 1024 ^ 6
  /\ spec_formatBytes 2017612633061982207 = "1.7 EB"
  /\ Fmt.float64_of_int 2017612633061982207 = 2017612633061982208
  /\ formatBytes 2017612633061982207 = Returned "1.8 EB"
  /\ formatBytes 2017612633061982207 <> Returned (spec_formatBytes 2017612633061982207).
Proof.
  split; [unfold Int.in_int64, Int.min_int64, Int.max_int64; lia |].
  split; [vm_compute; reflexivity |].
  split; [lia |].
  split; [vm_compute; reflexivity |].
  split; [vm_compute; reflexivity |].
  split; [vm_compute; reflexivity |].
  vm_compute. discriminate.
Qed.

(** C10. The formatter is total on [int64]: with any budget of at least six
    passes the loop ends and the call returns a text, the same text as with
    the budget [formatBytes] uses; the loop leaves [exp] between 0 and 5,
    inside the six letters of KMGTPE, also at the largest [int64]; and a
    negative count takes the first branch and renders as the count followed
    by [" B"]. *)
Theorem formatBytes_total (b : Z) :
  Int.in_int64 b ->
  (exists s, formatBytes b = Returned s)
  /\ (forall fuel, (6 <= fuel)%nat -> formatBytes_fuel fuel b = formatBytes b)
  /\ (1024 <= b ->
      exists div exp c,
        loop 64 (Z.quot b unit) unit 0 = Some (div, exp)
        /\ 0 <= exp <= 5 /\ unit_letter exp = Some c)
  /\ (b < 0 -> formatBytes b = Returned (Fmt.verb_d b +:+ " B"))
  /\ formatBytes (-5) = Returned "-5 B"
  /\ formatBytes Int.max_int64 = Returned "8.0 EB"
  /\ formatBytes Int.min_int64 = Returned "-9223372036854775808 B".
Proof.
  intros Hb.
  assert (Hfuel : forall fuel, (6 <= fuel)%nat -> formatBytes_fuel fuel b = formatBytes b).
  { intros fuel Hf. unfold formatBytes, formatBytes_fuel.
    destruct (Z.ltb_spec b unit) as [Hlt|Hge]; [reflexivity |]. unfold unit in Hge.
    destruct (loop_int64 fuel b Hf Hge Hb) as [-> _].
    destruct (loop_int64 64 b ltac:(lia) Hge Hb) as [-> _]. reflexivity. }
  split.
  { unfold formatBytes, formatBytes_fuel.
    destruct (Z.ltb_spec b unit) as [Hlt|Hge]; [eauto |]. unfold unit in Hge.
    destruct (loop_int64 64 b ltac:(lia) Hge Hb) as [-> Hk].
    rewrite (unit_letter_spec_unit _ Hk). eauto. }
  split; [exact Hfuel |].
  split.
  { intros Hge. destruct (loop_int64 64 b ltac:(lia) Hge Hb) as [Hloop Hk].
    eexists _, _, _. split; [exact Hloop |]. split; [lia |].
    apply (unit_letter_spec_unit _ Hk). }
  split.
  { intros Hneg. unfold formatBytes, formatBytes_fuel.
    destruct (Z.ltb_spec b unit) as [_|Hge]; [reflexivity | unfold unit in Hge; lia]. }
  repeat split; vm_compute; reflexivity.
Qed.

Lemma formatBytes_total_witness :
  Int.in_int64 Int.max_int64 /\ exists s, formatBytes Int.max_int64 = Returned s.
Proof.
  assert (H : Int.in_int64 Int.max_int64)
    by (unfold Int.in_int64, Int.min_int64, Int.max_int64; lia).
  split; [exact H | exact (proj1 (formatBytes_total Int.max_int64 H))].
Defined.

End FormatBytesFacts.

(** ** The matcher against the language of an expression *)

Section RegexpFacts.
Import Regexp.

Lemma run_Rep_0 r lo s k :
  run (Rep r lo 0) s k = match lo with O => k s | S _ => false end.
Proof. reflexivity. Qed.

Lemma run_Rep_S r lo hi s k :
  run (Rep r lo (S hi)) s k =
  run r s (fun s' => run (Rep r (pred lo) hi) s' k)
  || match lo with O => k s | S _ => false end.
Proof. reflexivity. Qed.

Lemma run_ext r : forall s k k',
  (forall x, k x = k' x) -> run r s k = run r s k'.
Proof.
  induction r as [p|r1 IH1 r2 IH2|r IH lo hi]; intros s k k' Hk.
  - simpl. destruct s; [reflexivity |]. rewrite Hk. reflexivity.
  - simpl. apply IH1. intros x. apply IH2. exact Hk.
  - revert lo s. induction hi as [|hi IHhi]; intros lo s.
    + rewrite !run_Rep_0. destruct lo; [apply Hk | reflexivity].
    + rewrite !run_Rep_S. f_equal.
      * apply IH. intros x. apply IHhi.
      * destruct lo; [apply Hk | reflexivity].
Qed.

(** The matcher accepts exactly when a prefix of the text is in the language
    and the continuation accepts the rest. *)
Lemma run_lang r : forall s k,
  run r s k = true <-> exists s1 s2, s = s1 ++ s2 /\ lang r s1 /\ k s2 = true.
Proof.
  induction r as [p|r1 IH1 r2 IH2|r IH lo hi]; intros s k.
  - simpl. split.
    + destruct s as [|c s']; [discriminate |].
      intros [Hp Hk]%andb_prop. exists [c], s'. repeat split; [constructor|]; auto.
    + intros (s1 & s2 & -> & Hl & Hk). inversion Hl; subst. simpl.
      rewrite Hk. rewrite andb_true_r. assumption.
  - simpl. rewrite IH1. split.
    + intros (s1 & s2 & -> & Hl1 & Hrun). apply IH2 in Hrun.
      destruct Hrun as (s3 & s4 & -> & Hl2 & Hk).
      exists (s1 ++ s3), s4. rewrite <- app_assoc. repeat split; auto.
      constructor; assumption.
    + intros (s1 & s2 & -> & Hl & Hk). inversion Hl; subst.
      eexists _, _. split; [symmetry; apply app_assoc |]. split; [assumption |].
      apply IH2. eauto.
  - revert lo s. induction hi as [|hi IHhi]; intros lo s.
    + rewrite run_Rep_0. split.
      * destruct lo; [| discriminate]. intros Hk. exists [], s.
        repeat split; [constructor | assumption].
      * intros (s1 & s2 & -> & Hl & Hk). inversion Hl; subst. exact Hk.
    + rewrite run_Rep_S. rewrite orb_true_iff. rewrite IH. split.
      * intros [(s1 & s2 & -> & Hl1 & Hrun) | Hstop].
        -- apply IHhi in Hrun. destruct Hrun as (s3 & s4 & -> & Hl2 & Hk).
           exists (s1 ++ s3), s4. rewrite <- app_assoc. repeat split; auto.
           apply lang_rep_more; assumption.
        -- destruct lo; [| discriminate]. exists [], s.
           repeat split; [constructor | assumption].
      * intros (s1 & s2 & -> & Hl & Hk). inversion Hl; subst.
        -- right. exact Hk.
        -- left. eexists _, _. split; [symmetry; apply app_assoc |].
           split; [assumption |]. apply IHhi. eauto.
Qed.

Lemma MatchString_lang r s :
  MatchString r s = true <-> lang r (list_ascii_of_string s).
Proof.
  unfold MatchString. rewrite run_lang. split.
  - intros (s1 & s2 & Heq & Hl & Hk). destruct s2; [| discriminate].
    rewrite app_nil_r in Heq. rewrite Heq. assumption.
  - intros Hl. exists (list_ascii_of_string s), []. rewrite app_nil_r. auto.
Qed.

(** A bounded repetition of a class: every byte in the class, and the
    length within the bounds. *)
Lemma lang_Rep_Cls p hi : forall lo s,
  lang (Rep (Cls p) lo hi) s <->
  Forall (fun c => p c = true) s /\ lo <= length s <= hi.
Proof.
  induction hi as [|hi IH]; intros lo s.
  - split.
    + intros Hl. inversion Hl; subst. split; [constructor | simpl; lia].
    + intros [_ Hlen]. destruct s; simpl in Hlen; [| lia].
      assert (lo = 0) as -> by lia. constructor.
  - split.
    + intros Hl. inversion Hl; subst.
      * split; [constructor | simpl; lia].
      * match goal with H : lang (Cls p) _ |- _ => inversion H; subst end.
        match goal with H : lang (Rep _ _ hi) _ |- _ => apply IH in H; destruct H as [Hall Hlen] end.
        split; [constructor; assumption | simpl; lia].
    + intros [Hall Hlen]. destruct s as [|c s'].
      * simpl in Hlen. assert (lo = 0) as -> by lia. constructor.
      * inversion Hall; subst. change (c :: s') with ([c] ++ s').
        apply lang_rep_more; [constructor; assumption |].
        apply IH. split; [assumption | simpl in Hlen; lia].
Qed.

End RegexpFacts.

(** ** Running the model *)

Section Runs.
Import uploadService.

Example run_validate_ok :
  validateBucketName (H := Fake.platform) "my-test-bucket" = None.
Proof. vm_compute. reflexivity. Qed.

Example run_validate_folded :
  validateBucketName (H := Fake.platform) " MyBucket " = None.
Proof. vm_compute. reflexivity. Qed.

Example run_validate_dots :
  validateBucketName (H := Fake.platform) "my..bucket" = Some err_dots.
Proof. vm_compute. reflexivity. Qed.

Example run_Ext : GoStrings.Ext "test-image.png" = ".png".
Proof. reflexivity. Qed.

Example run_Ext_dir : GoStrings.Ext "a.b/c" = "".
Proof. reflexivity. Qed.

Example run_uuid : UUID.String Fake.id_a = "0193a5b2-c3d4-7ef0-8123-456789abcdea".
Proof. vm_compute. reflexivity. Qed.

Example run_upload :
  fst (UploadFile (H := Fake.platform) Fake.service Background "my-test-bucket"
         (Fake.png_file "test-image.png") (Fake.world [Fake.id_a]))
  = (inl "https://my-test-bucket.s3.us-east-1.amazonaws.com/0193a5b2-c3d4-7ef0-8123-456789abcdea.png",
     File.mk "0193a5b2-c3d4-7ef0-8123-456789abcdea.png"
       "https://my-test-bucket.s3.us-east-1.amazonaws.com/0193a5b2-c3d4-7ef0-8123-456789abcdea.png"
       (Some Fake.png_stream) 12 "image/png").
Proof. vm_compute. reflexivity. Qed.

Example run_upload_invalid_bucket :
  UploadFile (H := Fake.platform) Fake.service Background ""
    (File.mk "" "" None 0 "") (Fake.world [])
  = ((inr ErrBucketNameRequired, File.mk "" "" None 0 ""), Fake.world []).
Proof. vm_compute. reflexivity. Qed.

End Runs.

(** ** The bucket name validator *)

Section ValidatorFacts.
Context `{Platform}.
Import uploadService.

Lemma length_list_ascii s : length (list_ascii_of_string s) = String.length s.
Proof. induction s as [|c s IH]; simpl; [reflexivity | f_equal; exact IH]. Qed.

Lemma forallb_Forall {A} (p : A -> bool) l :
  forallb p l = true <-> Forall (fun c => p c = true) l.
Proof.
  rewrite forallb_forall, Forall_forall. split; intros Hp x Hx; apply Hp.
  - apply list_elem_of_In. exact Hx.
  - apply list_elem_of_In. exact Hx.
Qed.

(** The compiled pattern accepts the names of 3 to 63 bytes that have the
    shape the specification words. *)
Lemma bucketDNSNameRegex_shape name :
  Regexp.MatchString bucketDNSNameRegex name = true <->
  dns_shape name = true /\ 3 <= String.length name <= 63.
Proof.
  rewrite MatchString_lang. unfold bucketDNSNameRegex, dns_shape.
  rewrite <- length_list_ascii. generalize (list_ascii_of_string name) as l.
  intros l. split.
  - intros Hl. inversion Hl as [|? ? s1 s2 Hl1 Hl2| |]; subst.
    inversion Hl1; subst.
    inversion Hl2 as [|? ? s3 s4 Hl3 Hl4| |]; subst.
    inversion Hl4; subst.
    apply lang_Rep_Cls in Hl3. destruct Hl3 as [Hall Hlen].
    simpl. rewrite rev_app_distr. simpl.
    rewrite length_app. simpl.
    split; [| lia].
    repeat (apply andb_true_intro; split); try assumption.
    apply forallb_Forall. apply Forall_rev. exact Hall.
  - intros [Hshape Hlen]. destruct l as [|c0 rest]; [discriminate |].
    apply andb_prop in Hshape. destruct Hshape as [Hc0 Hrest].
    destruct (rev rest) as [|cl between] eqn:Hrev; [discriminate |].
    apply andb_prop in Hrest. destruct Hrest as [Hcl Hbetween].
    assert (Hr : rest = rev between ++ [cl]).
    { rewrite <- (rev_involutive rest), Hrev. reflexivity. }
    subst rest. simpl in Hlen. rewrite length_app in Hlen. simpl in Hlen.
    change (c0 :: rev between ++ [cl]) with ([c0] ++ (rev between ++ [cl])).
    constructor; [constructor; assumption |].
    constructor; [| constructor; assumption].
    apply lang_Rep_Cls. split; [| lia].
    apply Forall_rev. apply forallb_Forall. exact Hbetween.
Qed.

Lemma err_length_text :
  err_length = Errorf "bucket name length must be between 3 and 63".
Proof. reflexivity. Qed.

(** The answers of the validator, one check after the other, on the folded
    and trimmed name. *)
Lemma validateBucketName_cascade bucket :
  let name := normalize bucket in
  (name = "" /\ validateBucketName bucket = Some ErrBucketNameRequired)
  \/ (name <> "" /\ ~ 3 <= String.length name <= 63
      /\ validateBucketName bucket = Some err_length)
  \/ (3 <= String.length name <= 63 /\ dns_shape name = false
      /\ validateBucketName bucket = Some err_pattern)
  \/ (3 <= String.length name <= 63 /\ dns_shape name = true
      /\ GoStrings.Contains name ".." = true
      /\ validateBucketName bucket = Some err_dots)
  \/ (3 <= String.length name <= 63 /\ dns_shape name = true
      /\ GoStrings.Contains name ".." = false
      /\ validateBucketName bucket = None).
Proof.
  intros name. unfold validateBucketName. fold (normalize bucket). fold name.
  unfold minBucketNameLength, maxBucketNameLength.
  destruct (String.eqb_spec name "") as [He|Hne]; [left; auto |]. right.
  destruct (Nat.ltb_spec (String.length name) 3) as [Hlo|Hlo]; simpl.
  { left. repeat split; [assumption | lia]. }
  destruct (Nat.ltb_spec 63 (String.length name)) as [Hhi|Hhi]; simpl.
  { left. repeat split; [assumption | lia]. }
  right.
  destruct (Regexp.MatchString bucketDNSNameRegex name) eqn:Hm; simpl.
  - apply bucketDNSNameRegex_shape in Hm. destruct Hm as [Hshape _]. right.
    destruct (GoStrings.Contains name "..") eqn:Hc; [left | right]; repeat split; auto.
  - left. repeat split; auto.
    destruct (dns_shape name) eqn:Hshape; [| reflexivity].
    assert (Hm' : Regexp.MatchString bucketDNSNameRegex name = true)
      by (apply bucketDNSNameRegex_shape; split; [assumption | lia]).
    congruence.
Qed.

(** C3, as amended.  On the folded and trimmed name the validator answers
    [ErrBucketNameRequired] exactly when the name is empty; the length
    error exactly when the name is not empty and its length is outside
    [3,63]; the pattern error exactly when the length is within [3,63] and
    the name does not start and end with a lowercase alphanumeric byte with
    only lowercase alphanumerics, dots and hyphens in between; the error on
    consecutive dots exactly when length and shape are fine and the name
    contains two dots in a row; some error whenever the name contains two
    dots in a row; and it succeeds in every other case. *)
Theorem validateBucketName_spec (bucket : string) :
  let name := normalize bucket in
  (validateBucketName bucket = Some ErrBucketNameRequired <-> name = "")
  /\ (validateBucketName bucket = Some err_length <->
        name <> "" /\ ~ 3 <= String.length name <= 63)
  /\ (validateBucketName bucket = Some err_pattern <->
        3 <= String.length name <= 63 /\ dns_shape name = false)
  /\ (validateBucketName bucket = Some err_dots <->
        3 <= String.length name <= 63 /\ dns_shape name = true
        /\ GoStrings.Contains name ".." = true)
  /\ (GoStrings.Contains name ".." = true ->
        exists err, validateBucketName bucket = Some err)
  /\ (validateBucketName bucket = None <->
        3 <= String.length name <= 63 /\ dns_shape name = true
        /\ GoStrings.Contains name ".." = false).
Proof.
  intros name.
  assert (Hempty : name = "" -> String.length name = 0) by (intros ->; reflexivity).
  destruct (validateBucketName_cascade bucket)
    as [[Hn Hv] | [(Hn & Hlen & Hv) | [(Hlen & Hs & Hv) | [(Hlen & Hs & Hc & Hv)
        | (Hlen & Hs & Hc & Hv)]]]];
    fold name in Hn || fold name in Hlen; try fold name in Hs; try fold name in Hc;
    rewrite Hv; rewrite ?err_length_text; unfold err_pattern, err_dots;
    repeat split; intros;
    repeat match goal with
           | h : _ /\ _ |- _ => destruct h
           end;
    try discriminate; try congruence; try lia; try tauto; eauto;
    try (specialize (Hempty ltac:(assumption)); lia).
Qed.

End ValidatorFacts.

(** C3, as worded, at the empty name: its length, 0, lies outside [3,63]
    and it does not have the shape, yet the answer is neither the length
    error nor the pattern error but [ErrBucketNameRequired]. *)
Lemma validateBucketName_empty_name :
  let v := uploadService.validateBucketName (H := Fake.platform) "" in
  let name := uploadService.normalize (H := Fake.platform) "" in
  ~ 3 <= String.length name <= 63
  /\ dns_shape name = false
  /\ v = Some ErrBucketNameRequired
  /\ v <> Some uploadService.err_length
  /\ v <> Some uploadService.err_pattern.
Proof.
  vm_compute. repeat split; try discriminate. intros [Hlo _]. inversion Hlo.
Qed.

(** ** The content validator *)

Section ContentFacts.
Context `{Platform} {R : Type}.
Import uploadService.

Lemma allowed_allow_list (k : string) : allowed k = true <-> k ∈ allow_list.
Proof.
  unfold allowed, allowedTypes, allow_list.
  rewrite !lookup_insert, lookup_empty.
  rewrite !elem_of_cons, elem_of_nil.
  repeat case_decide; simpl; split; intros Hk; try discriminate; try reflexivity;
    try (subst; tauto); intuition congruence.
Qed.

(** A read of a stream without a read fault delivers the next bytes at the
    read position, at most as many as asked for. *)
Lemma Read_next_bytes (c : Stream.t) n :
  Stream.read_fault c = None ->
  fst (fst (Stream.Read c n)) = take n (drop (Stream.pos c) (Stream.data c)).
Proof.
  intros Hf. unfold Stream.Read. rewrite Hf.
  destruct (Nat.leb_spec (length (Stream.data c)) (Stream.pos c)) as [Hle|Hlt]; simpl.
  - rewrite drop_ge by lia. rewrite take_nil. reflexivity.
  - reflexivity.
Qed.

Lemma Read_data (c : Stream.t) n :
  Stream.data (snd (Stream.Read c n)) = Stream.data c.
Proof.
  unfold Stream.Read. destruct (Stream.read_fault c); [reflexivity |].
  destruct (Nat.leb _ _); reflexivity.
Qed.

Lemma SeekStart_ok (c c' : Stream.t) :
  Stream.SeekStart c = (None, c') ->
  Stream.pos c' = 0 /\ Stream.data c' = Stream.data c.
Proof.
  unfold Stream.SeekStart. destruct (Stream.seek_fault c); [discriminate |].
  intros [= <-]. split; reflexivity.
Qed.

(** [validateFile] step by step: the read, the seek, the verdict. *)
Lemma validateFile_unfold (f : File.t) (content : Stream.t) (w : World R Entropy)
    buffer rerr c1 serr c2 :
  File.Content f = Some content ->
  Stream.Read content 512 = ((buffer, rerr), c1) ->
  Stream.SeekStart c1 = (serr, c2) ->
  validateFile f w =
  match read_failed rerr with
  | Some err =>
      (Some (Wrapf "failed to read file header" err),
       File.set_Content f (Some c1), log (EvRead (length buffer)) w)
  | None =>
      (match serr with
       | Some err => Some (Wrapf "failed to reset file pointer" err)
       | None => if allowed (DetectContentType buffer) then None
                 else Some ErrInvalidFileType
       end,
       File.set_Content (File.set_Content f (Some c1)) (Some c2),
       log EvSeek (log (EvRead (length buffer)) w))
  end.
Proof.
  intros Hc Hread Hseek. unfold validateFile. rewrite Hc, Hread. simpl.
  destruct (read_failed rerr); [reflexivity |].
  rewrite Hseek. destruct serr; [reflexivity |].
  destruct (allowed (DetectContentType buffer)); reflexivity.
Qed.

(** C4, as amended.  On a file with a stream, let [buffer] be what the read
    of up to 512 bytes delivers: the next bytes at the stream's read
    position, which are the first bytes of the stream when it stands at
    offset 0.  The validator accepts exactly when the read (end of stream
    apart) and the seek back succeed and the type detected from [buffer] is
    image/jpeg, image/png or application/pdf.  On acceptance the stream is
    at offset 0 with its bytes unchanged.  When read and seek succeed and
    the detected type is any other, the answer is [ErrInvalidFileType]. *)
Theorem validateFile_spec (f : File.t) (content : Stream.t) (w : World R Entropy)
    buffer rerr c1 serr c2 :
  File.Content f = Some content ->
  Stream.Read content 512 = ((buffer, rerr), c1) ->
  Stream.SeekStart c1 = (serr, c2) ->
  let verr := fst (fst (validateFile f w)) in
  let f' := snd (fst (validateFile f w)) in
  (Stream.read_fault content = None ->
     buffer = take 512 (drop (Stream.pos content) (Stream.data content))
     /\ (Stream.pos content = 0 -> buffer = take 512 (Stream.data content)))
  /\ (verr = None <->
        read_failed rerr = None /\ serr = None
        /\ DetectContentType buffer ∈ allow_list)
  /\ (verr = None ->
        exists c', File.Content f' = Some c' /\ Stream.pos c' = 0
                   /\ Stream.data c' = Stream.data content)
  /\ (read_failed rerr = None -> serr = None ->
        DetectContentType buffer ∉ allow_list -> verr = Some ErrInvalidFileType).
Proof.
  intros Hc Hread Hseek verr f'. subst verr f'.
  rewrite (validateFile_unfold f content w _ _ _ _ _ Hc Hread Hseek).
  split.
  { intros Hf. pose proof (Read_next_bytes content 512 Hf) as Hb.
    rewrite Hread in Hb. simpl in Hb. split; [exact Hb |].
    intros Hp. rewrite Hb, Hp. reflexivity. }
  pose proof (allowed_allow_list (DetectContentType buffer)) as Hal.
  destruct (read_failed rerr) as [e|]; simpl.
  { repeat split; try discriminate; intros; intuition discriminate. }
  destruct serr as [e|]; simpl.
  { repeat split; try discriminate; intros; intuition discriminate. }
  destruct (allowed (DetectContentType buffer)) eqn:Ha.
  - split; [tauto |]. split.
    + intros _. exists c2. split; [reflexivity |].
      destruct (SeekStart_ok _ _ Hseek) as [Hp Hd]. split; [exact Hp |].
      rewrite Hd. pose proof (Read_data content 512) as Hrd.
      rewrite Hread in Hrd. exact Hrd.
    + intros _ _ Hnot. exfalso. apply Hnot, Hal. reflexivity.
  - split.
    + split; [discriminate |]. intros (_ & _ & Hin). apply Hal in Hin. discriminate.
    + split; [discriminate | reflexivity].
Qed.

End ContentFacts.

Lemma validateFile_spec_witness :
  let f := Fake.png_file "a.png" in
  let w := Fake.world [] in
  fst (fst (uploadService.validateFile (H := Fake.platform) f w)) = None
  <-> uploadService.read_failed None = None /\ @None error = None
      /\ Fake.sniff (Fake.png_magic ++ list_ascii_of_string "0000") ∈ allow_list.
Proof.
  exact (proj1 (proj2
    (validateFile_spec (H := Fake.platform) (Fake.png_file "a.png") Fake.png_stream
       (Fake.world []) (Fake.png_magic ++ list_ascii_of_string "0000") None
       (Stream.set_pos Fake.png_stream 12) None Fake.png_stream
       eq_refl eq_refl eq_refl))).
Defined.

(** C4, as worded, on a stream that stands at offset 4: the type detected
    from the first bytes of the stream is not allow-listed, the bytes at the
    read position carry a PNG header, and the validator accepts. *)
Lemma validateFile_advanced_stream :
  (@DetectContentType Fake.platform (take 512 (Stream.data advanced_stream)))
    = "application/octet-stream"
  /\ ((@DetectContentType Fake.platform (take 512 (Stream.data advanced_stream))) ∉ allow_list)
  /\ fst (uploadService.validateFile (H := Fake.platform) advanced_file (Fake.world []))
     = (None, File.set_Content advanced_file (Some (Stream.set_pos advanced_stream 0))).
Proof.
  split; [vm_compute; reflexivity |].
  split; [| vm_compute; reflexivity].
  unfold allow_list. rewrite !elem_of_cons, elem_of_nil.
  intros [Hx | [Hx | [Hx | []]]]; vm_compute in Hx; discriminate.
Qed.

(** ** Single upload *)

Section UploadFacts.
Context `{Platform} {R : Type} (s : uploadService.t R).
Import uploadService.

(** The validator of the content touches neither the store nor the
    identifier source, and adds only stream events to the trace. *)
Lemma validateFile_world (f : File.t) (w : World R Entropy) :
  let w' := snd (validateFile f w) in
  store w' = store w /\ entropy w' = entropy w
  /\ exists evs, trace w' = trace w ++ evs
                 /\ Forall (fun e => is_stream_event e = true) evs.
Proof.
  unfold validateFile. destruct (File.Content f) as [content|]; simpl.
  - destruct (Stream.Read content 512) as [[buffer rerr] c1].
    destruct (read_failed rerr).
    + simpl. repeat split. exists [EvRead (length buffer)].
      split; [reflexivity | repeat constructor].
    + destruct (Stream.SeekStart c1) as [serr c2].
      assert (Hev : exists evs,
                 (trace w ++ [EvRead (length buffer)]) ++ [EvSeek] = trace w ++ evs
                 /\ Forall (fun e => is_stream_event e = true) evs).
      { exists [EvRead (length buffer); EvSeek]. rewrite <- app_assoc.
        split; [reflexivity | repeat constructor]. }
      destruct serr; [simpl; auto |].
      destruct (negb (allowed (DetectContentType buffer))); simpl; auto.
  - repeat split. exists []. rewrite app_nil_r. split; [reflexivity | constructor].
Qed.

Lemma validateFile_Name (f : File.t) (w : World R Entropy) :
  File.Name (snd (fst (validateFile f w))) = File.Name f.
Proof.
  unfold validateFile. destruct (File.Content f) as [content|]; simpl; [| reflexivity].
  destruct (Stream.Read content 512) as [[buffer rerr] c1].
  destruct (read_failed rerr); [reflexivity |].
  destruct (Stream.SeekStart c1) as [serr c2].
  destruct serr; [reflexivity |].
  destruct (negb (allowed (DetectContentType buffer))); reflexivity.
Qed.

(** [UploadFile] once both validations have passed. *)
Lemma UploadFile_validated ctx bucket file (w : World R Entropy) f1 w1 :
  validateBucketName bucket = None ->
  validateFile file w = ((None, f1), w1) ->
  UploadFile s ctx bucket file w =
  let ctx' := WithTimeout ctx uploadTimeout in
  match NewV7 (entropy w1) with
  | (inr err, e) =>
      ((inr (Wrapf "failed to generate unique id" err), f1),
       mkWorld (store w1) e (trace w1 ++ [EvNewV7]))
  | (inl id, e) =>
      let f2 := File.set_Name f1 (UUID.String id +:+ GoStrings.Ext (File.Name f1)) in
      let call := EvRepo (Repository.CallUpload ctx' bucket f2) in
      match Repository.Upload (repo s) ctx' bucket f2 (store w1) with
      | (inr err, r) => ((inr err, f2), mkWorld r e ((trace w1 ++ [EvNewV7]) ++ [call]))
      | (inl url, r) =>
          ((inl url, File.set_URL f2 url), mkWorld r e ((trace w1 ++ [EvNewV7]) ++ [call]))
      end
  end.
Proof.
  intros Hb Hf. unfold UploadFile. rewrite Hb. unfold bind at 1. rewrite Hf.
  unfold bind, call_NewV7, call_repo, ret. simpl.
  destruct (NewV7 (entropy w1)) as [[id|err] e]; simpl; [| reflexivity].
  destruct (Repository.Upload _ _ _ _ _) as [[url|err] r]; reflexivity.
Qed.

(** C5.  When the bucket name is rejected, [UploadFile] answers with that
    error and leaves the file, its stream, and the whole world as they were:
    nothing is read and no call is made.  When the content is rejected,
    [UploadFile] answers with that error; the store and the identifier
    source are as before, and the trace has grown by reads and seeks on the
    stream only: no identifier was drawn and no repository call was made. *)
Theorem UploadFile_fail_fast ctx bucket file (w : World R Entropy) :
  (forall err, validateBucketName bucket = Some err ->
     UploadFile s ctx bucket file w = ((inr err, file), w))
  /\ (forall err f' w',
        validateBucketName bucket = None ->
        validateFile file w = ((Some err, f'), w') ->
        UploadFile s ctx bucket file w = ((inr err, f'), w')
        /\ store w' = store w /\ entropy w' = entropy w
        /\ exists evs, trace w' = trace w ++ evs
                       /\ Forall (fun e => is_stream_event e = true) evs
                       /\ (EvNewV7 ∉ evs)
                       /\ (forall c, EvRepo c ∉ evs)).
Proof.
  split.
  - intros err Hb. unfold UploadFile. rewrite Hb. reflexivity.
  - intros err f' w' Hb Hf. split.
    + unfold UploadFile. rewrite Hb. unfold bind. rewrite Hf. reflexivity.
    + pose proof (validateFile_world file w) as Hw. rewrite Hf in Hw. simpl in Hw.
      destruct Hw as (Hs & He & evs & Ht & Hall).
      repeat split; try assumption. exists evs. repeat split; try assumption.
      * intros Hin. rewrite Forall_forall in Hall. apply Hall in Hin. discriminate.
      * intros c Hin. rewrite Forall_forall in Hall. apply Hall in Hin. discriminate.
Qed.

End UploadFacts.

Lemma UploadFile_fail_fast_witness :
  uploadService.UploadFile (H := Fake.platform) Fake.service Background "Ab"
    (Fake.png_file "a.png") (Fake.world [Fake.id_a])
  = ((inr uploadService.err_length, Fake.png_file "a.png"), Fake.world [Fake.id_a])
  /\ fst (uploadService.UploadFile (H := Fake.platform) Fake.service Background "my-test-bucket"
            (Fake.text_file "a.txt") (Fake.world [Fake.id_a]))
     = (inr ErrInvalidFileType, Fake.text_file "a.txt").
Proof.
  pose proof (UploadFile_fail_fast (H := Fake.platform) Fake.service Background "Ab"
                (Fake.png_file "a.png") (Fake.world [Fake.id_a])) as [H1 _].
  pose proof (UploadFile_fail_fast (H := Fake.platform) Fake.service Background "my-test-bucket"
                (Fake.text_file "a.txt") (Fake.world [Fake.id_a])) as [_ H2].
  split.
  - apply H1. vm_compute. reflexivity.
  - specialize (H2 ErrInvalidFileType (Fake.text_file "a.txt")
                  (mkWorld (S3.mkRemote [] []) [Fake.id_a] [EvRead 5; EvSeek])).
    destruct H2 as [-> _]; [vm_compute; reflexivity | vm_compute; reflexivity | reflexivity].
Defined.

(** ** Single upload into S3 *)

Section S3UploadFacts.
Context `{Platform} {S : Type} (client : S3.Client S) (region : string).
Import uploadService.

(** C2, as amended.  After a successful single upload through the S3
    repository, the identifier source has produced an identifier [id], the
    store has received one more request, a put whose key is the string form
    of [id] followed by the extension of the name the caller supplied, the
    returned locator ends in that key, and the file carries that key as its
    name.  The caller's name enters the key through its extension only. *)
Theorem UploadFile_persisted_key ctx bucket file (w : World (S3.Remote S) Entropy)
    url f' w' :
  UploadFile (NewService (S3Repository.NewS3Repository client region)) ctx bucket file w
    = ((inl url, f'), w') ->
  exists id,
    NewV7 (entropy w) = (inl id, entropy w')
    /\ let key := UUID.String id +:+ GoStrings.Ext (File.Name file) in
       S3.requests (store w') =
         S3.requests (store w)
         ++ [S3.ReqPutObject (S3.mkPutObjectInput (Some bucket) (Some key) (File.Content f'))]
       /\ url = S3Repository.object_url bucket region key
       /\ File.Name f' = key
       /\ File.URL f' = url.
Proof.
  intros Hup.
  destruct (validateBucketName bucket) as [err|] eqn:Hb.
  { unfold UploadFile in Hup. rewrite Hb in Hup. discriminate. }
  destruct (validateFile file w) as [[verr f1] w1] eqn:Hf.
  pose proof (validateFile_world file w) as Hw. rewrite Hf in Hw. simpl in Hw.
  destruct Hw as (Hs & He & _).
  pose proof (validateFile_Name (R := S3.Remote S) file w) as Hn. rewrite Hf in Hn. simpl in Hn.
  destruct verr as [err|].
  { unfold UploadFile in Hup. rewrite Hb in Hup. unfold bind in Hup.
    rewrite Hf in Hup. discriminate. }
  rewrite (UploadFile_validated _ ctx bucket file w f1 w1 Hb Hf) in Hup.
  cbv zeta in Hup. rewrite He, Hs, Hn in Hup.
  destruct (NewV7 (entropy w)) as [[id|err] e] eqn:Hid; [| discriminate].
  simpl in Hup. unfold S3Repository.Upload, bind, S3.send, ret in Hup. simpl in Hup.
  destruct (S3.PutObject client _ _ _) as [[err|] b]; [discriminate |].
  injection Hup as <- <- <-. exists id. simpl. repeat split; reflexivity.
Qed.

End S3UploadFacts.

Lemma UploadFile_persisted_key_witness :
  exists id,
    Fake.next_id [Fake.id_a] = (inl id, [])
    /\ File.Name (File.mk "0193a5b2-c3d4-7ef0-8123-456789abcdea.png"
                   "https://my-test-bucket.s3.us-east-1.amazonaws.com/0193a5b2-c3d4-7ef0-8123-456789abcdea.png"
                   (Some Fake.png_stream) 12 "image/png")
       = UUID.String id +:+ GoStrings.Ext "test-image.png".
Proof.
  destruct (UploadFile_persisted_key (H := Fake.platform) Fake.client "us-east-1"
              Background "my-test-bucket" (Fake.png_file "test-image.png")
              (Fake.world [Fake.id_a]) _ _ _ eq_refl) as (id & Hid & _ & _ & Hname & _).
  exists id. split; [exact Hid | exact Hname].
Defined.

(** C2, as worded, on a file the caller names [a.png] when the identifier
    drawn ends in the digit [a]: the persisted key holds the caller's base
    name [a], and even the whole name [a.png]. *)
Lemma UploadFile_key_contains_name :
  let run := uploadService.UploadFile (H := Fake.platform) Fake.service Background
               "my-test-bucket" (Fake.png_file "a.png") (Fake.world [Fake.id_a]) in
  let key := "0193a5b2-c3d4-7ef0-8123-456789abcdea.png" in
  fst (fst run) = inl ("https://my-test-bucket.s3.us-east-1.amazonaws.com/" +:+ key)
  /\ S3.requests (store (snd run)) =
       [S3.ReqPutObject (S3.mkPutObjectInput (Some "my-test-bucket") (Some key)
                           (Some Fake.png_stream))]
  /\ GoStrings.Contains key "a" = true
  /\ GoStrings.Contains key "a.png" = true.
Proof. vm_compute. repeat split; reflexivity. Qed.

(** ** Listing *)

Section ListFacts.
Context `{Platform} {R : Type} (s : uploadService.t R).
Import uploadService.



End ListFacts.


(** The filter [png] and the filter [.png] keep the same two files of a
    mixed page, the upper-case key among them, in the order of the page. *)
Example run_list_filter :
  let keys ext :=
    match fst (uploadService.ListFiles (H := Fake.platform) Fake.service Background
                 "my-test-bucket" ext "" 0 Fake.stocked_world) with
    | inl page => List.map FileSummary.Key (PaginatedFiles.Files page)
    | inr _ => []
    end in
  keys "png" = ["IMG.PNG"; "x.png"] /\ keys ".png" = ["IMG.PNG"; "x.png"]
  /\ keys "" = ["IMG.PNG"; "doc.pdf"; "x.png"].
Proof. vm_compute. repeat split; reflexivity. Qed.

(** An empty token reaches the AWS client as no continuation token, any
    other token as it is; a limit of zero as 10. *)
Example run_list_token :
  let sent token limit :=
    S3.requests (store (snd (uploadService.ListFiles (H := Fake.platform) Fake.service
                               Background "my-test-bucket" "" token limit
                               Fake.stocked_world))) in
  sent "" 0%Z = [S3.ReqListObjectsV2
                   (S3.mkListObjectsV2Input (Some "my-test-bucket") (Some "") None (Some 10%Z))]
  /\ sent "t0k3n" 25%Z
     = [S3.ReqListObjectsV2
          (S3.mkListObjectsV2Input (Some "my-test-bucket") (Some "") (Some "t0k3n") (Some 25%Z))].
Proof. vm_compute. repeat split; reflexivity. Qed.

(** ** Bucket statistics *)

Section StatsFacts.
Context `{Platform} {S : Type} (client : S3.Client S) (region : string).
Import uploadService.
Local Open Scope Z_scope.

(** As long as the running total stays inside [int64], the loop of
    [GetStats] computes the sum of the sizes. *)
Lemma total_size_from (objs : list S3.Object) : forall acc,
  Forall (fun obj => 0 <= S3.ToInt64 (S3.Size obj)) objs ->
  0 <= acc -> acc + sum_sizes objs <= Int.max_int64 ->
  foldl (fun total obj => Int.wrap64 (total + S3.ToInt64 (S3.Size obj))) acc objs
  = acc + sum_sizes objs.
Proof.
  induction objs as [|obj objs IH]; intros acc Hall Hacc Hsum; simpl in *; [lia |].
  inversion Hall as [|? ? Hobj Hrest]; subst.
  assert (Hnn : 0 <= sum_sizes objs).
  { clear -Hrest. induction Hrest; simpl; lia. }
  rewrite wrap64_id
    by (unfold Int.in_int64, Int.min_int64, Int.max_int64 in *; lia).
  rewrite IH; [lia | assumption | lia | lia].
Qed.

Lemma total_size_sum (objs : list S3.Object) :
  Forall (fun obj => 0 <= S3.ToInt64 (S3.Size obj)) objs ->
  sum_sizes objs <= Int.max_int64 ->
  S3Repository.total_size objs = sum_sizes objs.
Proof.
  intros Hall Hsum. unfold S3Repository.total_size.
  rewrite total_size_from; [lia | assumption | lia | lia].
Qed.

(** C8.  [GetBucketStats] validates the name first: a rejected name is
    answered with the validator's error and nothing is sent.  With a valid
    name exactly one request goes to the store, a listing that names the
    bucket and nothing else (no token, no page size), and there is no
    second request whatever the page says about further pages.  An error
    of the request is returned as it is.  Otherwise [TotalFiles] is the
    number of objects on the page, [TotalSizeBytes] is the [int64] total of
    their sizes, which is their sum when the sizes are not negative and the
    sum fits [int64], and [TotalSizeFormatted] is [formatBytes] of
    [TotalSizeBytes]. *)
Theorem GetBucketStats_spec ctx bucket (w : World (S3.Remote S) Entropy) :
  let s := NewService (S3Repository.NewS3Repository client region) in
  let out := GetBucketStats s ctx bucket w in
  (forall err, validateBucketName bucket = Some err -> out = (inr err, w))
  /\ (validateBucketName bucket = None ->
      let back := S3.ListObjectsV2 client ctx
                    (S3.mkListObjectsV2Input (Some bucket) None None None)
                    (S3.backend (store w)) in
      S3.requests (store (snd out)) =
        S3.requests (store w)
        ++ [S3.ReqListObjectsV2 (S3.mkListObjectsV2Input (Some bucket) None None None)]
      /\ S3.backend (store (snd out)) = snd back
      /\ trace (snd out) = trace w ++ [EvRepo (Repository.CallGetStats ctx bucket)]
      /\ (forall err, fst back = inr err -> fst out = inr err)
      /\ (forall page, fst back = inl page ->
            exists stats,
              fst out = inl stats
              /\ BucketStats.BucketName stats = bucket
              /\ BucketStats.TotalFiles stats = Z.of_nat (length (S3.Contents page))
              /\ BucketStats.TotalSizeBytes stats = S3Repository.total_size (S3.Contents page)
              /\ (Forall (fun obj => 0 <= S3.ToInt64 (S3.Size obj)) (S3.Contents page) ->
                  sum_sizes (S3.Contents page) <= Int.max_int64 ->
                  BucketStats.TotalSizeBytes stats = sum_sizes (S3.Contents page))
              /\ BucketStats.TotalSizeFormatted stats
                 = FormatBytes.formatBytes (BucketStats.TotalSizeBytes stats))).
Proof.
  intros s out. subst out s. unfold GetBucketStats. split.
  - intros err ->. reflexivity.
  - intros ->.
    unfold call_repo, S3Repository.NewS3Repository. simpl.
    unfold S3Repository.GetStats, bind, S3.send, S3Repository.bucket_only, ret. simpl.
    destruct (S3.ListObjectsV2 client ctx _ (S3.backend (store w))) as [[page|err] b]; simpl.
    + repeat split; try discriminate.
      intros page' [= <-]. eexists. split; [reflexivity |]. simpl.
      repeat split. intros Hall Hsum. apply total_size_sum; assumption.
    + repeat split; try discriminate. intros err' [= <-]. reflexivity.
Qed.

End StatsFacts.

Lemma GetBucketStats_spec_witness :
  S3.requests (store (snd (uploadService.GetBucketStats (H := Fake.platform) Fake.service
                             Background "my-test-bucket" (Fake.world []))))
  = [S3.ReqListObjectsV2 (S3.mkListObjectsV2Input (Some "my-test-bucket") None None None)].
Proof.
  exact (proj1 (proj2 (GetBucketStats_spec (H := Fake.platform) Fake.client "us-east-1"
                         Background "my-test-bucket" (Fake.world [])) eq_refl)).
Defined.

(** A page of two objects of 1024 and 512 bytes that announces a further
    page: the statistics count the two objects. *)
Example run_stats_page :
  let page := S3.mkListObjectsV2Output
                [S3.mkObject (Some "a.png") (Some 1024%Z) "STANDARD" None;
                 S3.mkObject (Some "b.pdf") (Some 512%Z) "STANDARD" None]
                (Some "more") in
  let client := S3.mkClient Datatypes.unit
                  (fun _ _ st => (None, st)) (fun _ _ st => (inl page, st))
                  (fun _ _ st => (None, st)) (fun _ _ st => (inr ErrFileNotFound, st))
                  (fun _ _ _ st => (inr ErrFileNotFound, st)) (fun _ _ st => (None, st))
                  (fun _ _ st => (None, st)) (fun _ st => (inl [], st))
                  (fun _ _ st => (None, st)) (fun _ _ st => (None, st)) in
  fst (uploadService.GetBucketStats (H := Fake.platform)
         (uploadService.NewService (S3Repository.NewS3Repository (H := Fake.platform) client "r"))
         Background "my-test-bucket" (mkWorld (S3.mkRemote tt []) [] []))
  = inl (BucketStats.mk "my-test-bucket" 2 1536 (Returned "1.5 KB")).
Proof. vm_compute. reflexivity. Qed.

(** ** Multi-file upload *)

Section FanoutFacts.
Context `{Platform} {R : Type} (s : uploadService.t R).
Import uploadService.

Lemma first_failure_snoc done i r :
  first_failure (done ++ [(i, r)]) =
  match first_failure done with
  | Some err => Some err
  | None => match r with inr err => Some err | inl _ => None end
  end.
Proof.
  induction done as [|[j [url|err]] done IH]; simpl.
  - destruct r; reflexivity.
  - exact IH.
  - reflexivity.
Qed.

Lemma first_failure_None done :
  first_failure done = None ->
  forall i r, (i, r) ∈ done -> exists url, r = inl url.
Proof.
  induction done as [|[j [url|err]] done IH]; simpl; intros Hf i r Hin.
  - apply elem_of_nil in Hin. contradiction.
  - apply elem_of_cons in Hin. destruct Hin as [[= -> ->]|Hin]; eauto.
  - discriminate.
Qed.

(** One goroutine: what it appends to the record of completed tasks, and
    which slots it leaves alone. *)
Lemma task_step bucket (st : fanout (R := R)) i f :
  fo_files st !! i = Some f ->
  length (results st) = length (fo_files st) ->
  let r := fst (fst (UploadFile s (group_ctx st) bucket f (fo_world st))) in
  let st' := task s bucket st i in
  completed st' = completed st ++ [(i, r)]
  /\ length (fo_files st') = length (fo_files st)
  /\ length (results st') = length (results st)
  /\ (forall j, j <> i -> fo_files st' !! j = fo_files st !! j
                         /\ results st' !! j = results st !! j)
  /\ (forall url, r = inl url -> results st' !! i = Some url)
  /\ group_err st' = match group_err st with
                     | Some err => Some err
                     | None => match r with inr err => Some err | inl _ => None end
                     end.
Proof.
  intros Hf Hlen r st'. subst r st'. unfold task. rewrite Hf.
  pose proof (lookup_lt_Some _ _ _ Hf) as Hlt.
  destruct (UploadFile s (group_ctx st) bucket f (fo_world st)) as [[[url|err] f'] w'];
    simpl.
  - repeat split; try (rewrite length_insert; reflexivity).
    + rewrite list_lookup_insert_ne by congruence. reflexivity.
    + rewrite list_lookup_insert_ne by congruence. reflexivity.
    + intros url' [= <-]. apply list_lookup_insert_eq. lia.
    + destruct (group_err st); reflexivity.
  - destruct (group_err st) as [e0|]; simpl;
      (repeat split; try (rewrite length_insert; reflexivity); try discriminate;
       rewrite list_lookup_insert_ne by congruence; reflexivity).
Qed.

Lemma fanout_run_snoc ctx bucket files sched i (w : World R Entropy) :
  fanout_run s ctx bucket files (sched ++ [i]) w
  = task s bucket (fanout_run s ctx bucket files sched w) i.
Proof. unfold fanout_run. rewrite foldl_app. reflexivity. Qed.

Lemma fanout_run_inv ctx bucket files (w : World R Entropy) : forall sched,
  NoDup sched -> (forall i, i ∈ sched -> i < length files) ->
  fanout_inv files sched (fanout_run s ctx bucket files sched w).
Proof.
  induction sched as [|i sched IH] using rev_ind; intros Hnd Hlt.
  - unfold fanout_run, fanout_inv. simpl. rewrite length_replicate.
    repeat split; try reflexivity.
    intros i url Hin. apply elem_of_nil in Hin. contradiction.
  - apply NoDup_app in Hnd. destruct Hnd as (Hnd & Hni & _).
    assert (Hi : i ∉ sched).
    { intros Hin. apply (Hni i Hin). apply list_elem_of_singleton. reflexivity. }
    specialize (IH Hnd (fun j Hj => Hlt j ltac:(apply elem_of_app; left; exact Hj))).
    destruct IH as (Hdone & Hlf & Hlr & Herr & Hres & Hfiles).
    rewrite fanout_run_snoc. set (st := fanout_run s ctx bucket files sched w) in *.
    assert (Hil : i < length files).
    { apply Hlt. apply elem_of_app. right. apply list_elem_of_singleton. reflexivity. }
    destruct (lookup_lt_is_Some_2 files i Hil) as [f Hf].
    assert (Hf' : fo_files st !! i = Some f) by (rewrite Hfiles; assumption).
    destruct (task_step bucket st i f Hf' ltac:(congruence))
      as (Hc & Hlf' & Hlr' & Hother & Hslot & Hge).
    unfold fanout_inv. rewrite Hc.
    split; [rewrite map_app, Hdone; reflexivity |].
    split; [congruence |]. split; [congruence |].
    split; [rewrite Hge, first_failure_snoc, Herr; reflexivity |].
    split.
    + intros j url [Hin|Hin]%elem_of_app.
      * assert (Hj : j ∈ sched).
        { rewrite <- Hdone. apply list_elem_of_In. apply in_map_iff.
          exists (j, inl url). split; [reflexivity | apply list_elem_of_In; exact Hin]. }
        destruct (Hother j ltac:(intros ->; contradiction)) as [_ ->]. apply Hres. exact Hin.
      * apply list_elem_of_singleton in Hin. injection Hin as -> Hr.
        apply Hslot. symmetry. exact Hr.
    + intros j Hj. rewrite not_elem_of_app in Hj. destruct Hj as [Hj1 Hj2].
      rewrite list_elem_of_singleton in Hj2.
      destruct (Hother j Hj2) as [-> _]. apply Hfiles. exact Hj1.
Qed.

(** The entry of a task in the record is what [UploadFile] returned on the
    task's input file, in the world and under the context in which the
    task ran. *)
Lemma fanout_run_entry ctx bucket files (w : World R Entropy) : forall sched,
  NoDup sched -> (forall i, i ∈ sched -> i < length files) ->
  forall pre i post, sched = pre ++ i :: post ->
  let before := fanout_run s ctx bucket files pre w in
  exists f, files !! i = Some f
    /\ completed (fanout_run s ctx bucket files sched w) !! length pre
       = Some (i, fst (fst (UploadFile s (group_ctx before) bucket f (fo_world before)))).
Proof.
  induction sched as [|x sched IH] using rev_ind; intros Hnd Hlt pre i post Heq before.
  - destruct pre; discriminate.
  - pose proof Hnd as Hnd0.
    apply NoDup_app in Hnd. destruct Hnd as (Hnd & Hni & _).
    assert (Hlt' : forall j, j ∈ sched -> j < length files).
    { intros j Hj. apply Hlt. apply elem_of_app. left. exact Hj. }
    assert (Hx : x ∉ sched).
    { intros Hin. apply (Hni x Hin). apply list_elem_of_singleton. reflexivity. }
    pose proof (fanout_run_inv ctx bucket files w sched Hnd Hlt')
      as (Hdone & Hlf & Hlr & _ & _ & Hfiles).
    assert (Hxl : x < length files).
    { apply Hlt. apply elem_of_app. right. apply list_elem_of_singleton. reflexivity. }
    destruct (lookup_lt_is_Some_2 files x Hxl) as [fx Hfx].
    assert (Hfx' : fo_files (fanout_run s ctx bucket files sched w) !! x = Some fx)
      by (rewrite Hfiles; assumption).
    destruct (task_step bucket _ x fx Hfx' ltac:(congruence)) as (Hc & _).
    assert (Hlen : length (completed (fanout_run s ctx bucket files sched w)) = length sched).
    { rewrite <- Hdone at 2. rewrite length_map. reflexivity. }
    rewrite fanout_run_snoc, Hc.
    destruct post as [|y post _] using rev_ind.
    + apply app_inj_tail in Heq. destruct Heq as [-> ->].
      exists fx. split; [exact Hfx |].
      rewrite lookup_app_r by lia. rewrite Hlen, Nat.sub_diag. reflexivity.
    + rewrite app_comm_cons, app_assoc in Heq.
      apply app_inj_tail in Heq. destruct Heq as [Hs ->].
      destruct (IH Hnd Hlt' pre i post Hs) as (f & Hf & He).
      exists f. split; [exact Hf |].
      rewrite lookup_app_l; [exact He |].
      rewrite Hlen, Hs, length_app. simpl. lia.
Qed.

(** C1.  Whatever the order [sched] in which the goroutines finish (any
    arrangement of the indices of [files]), every task is recorded once, in
    that order, with what its [UploadFile] returned on its input file.  If
    some upload failed, the call returns no list and the error of the task
    that failed first.  If every upload succeeded, it returns a list as long
    as [files] whose [i]-th element is the locator that the upload of the
    [i]-th file returned, and no error. *)
Theorem UploadMultipleFiles_spec ctx bucket files sched (w : World R Entropy) :
  sched ≡ₚ seq 0 (length files) ->
  let st := fanout_run s ctx bucket files sched w in
  let ret := fst (UploadMultipleFiles s ctx bucket files sched w) in
  List.map fst (completed st) = sched
  /\ (forall pre i post, sched = pre ++ i :: post ->
        let before := fanout_run s ctx bucket files pre w in
        exists f, files !! i = Some f
          /\ completed st !! length pre
             = Some (i, fst (fst (UploadFile s (group_ctx before) bucket f (fo_world before)))))
  /\ (forall err, first_failure (completed st) = Some err -> ret = (None, Some err))
  /\ (first_failure (completed st) = None ->
        exists urls,
          ret = (Some urls, None)
          /\ length urls = length files
          /\ forall i, i < length files ->
               exists url, (i, inl url) ∈ completed st /\ urls !! i = Some url).
Proof.
  intros Hperm st ret.
  assert (Hnd : NoDup sched) by (rewrite Hperm; apply NoDup_seq).
  assert (Hlt : forall i, i ∈ sched -> i < length files).
  { intros i Hi. rewrite Hperm in Hi. apply elem_of_seq in Hi. lia. }
  pose proof (fanout_run_inv ctx bucket files w sched Hnd Hlt)
    as (Hdone & Hlf & Hlr & Herr & Hres & _).
  fold st in Hdone, Hlr, Herr, Hres.
  split; [exact Hdone |].
  split; [exact (fanout_run_entry ctx bucket files w sched Hnd Hlt) |].
  subst ret. unfold UploadMultipleFiles. fold st. split.
  - intros err Hf. rewrite Herr, Hf. reflexivity.
  - intros Hf. rewrite Herr, Hf. exists (results st).
    split; [reflexivity |]. split; [exact Hlr |].
    intros i Hi.
    assert (Hin : i ∈ List.map fst (completed st)).
    { rewrite Hdone, Hperm. apply elem_of_seq. lia. }
    apply list_elem_of_In, in_map_iff in Hin. destruct Hin as ([j r] & Hj & Hin).
    simpl in Hj. subst j. apply list_elem_of_In in Hin.
    destruct (first_failure_None _ Hf i r Hin) as [url ->].
    exists url. split; [exact Hin | apply Hres; exact Hin].
Qed.

End FanoutFacts.

Lemma UploadMultipleFiles_spec_witness :
  [1; 0] ≡ₚ seq 0 2
  /\ List.map fst
       (uploadService.completed
          (uploadService.fanout_run (H := Fake.platform) Fake.service Background
             "my-test-bucket" [Fake.png_file "a.png"; Fake.png_file "b.png"] [1; 0]
             (Fake.world [Fake.id_a; Fake.id_b])))
     = [1; 0].
Proof.
  assert (Hp : [1; 0] ≡ₚ seq 0 2) by apply perm_swap.
  split; [exact Hp |].
  exact (proj1 (UploadMultipleFiles_spec (H := Fake.platform) Fake.service Background
                  "my-test-bucket" [Fake.png_file "a.png"; Fake.png_file "b.png"] [1; 0]
                  (Fake.world [Fake.id_a; Fake.id_b]) Hp)).
Defined.

(** Two files whose uploads finish in reverse order: the second file draws
    the first identifier, and the locators still come back in input order. *)
Example run_multi_reversed :
  fst (uploadService.UploadMultipleFiles (H := Fake.platform) Fake.service Background
         "my-test-bucket" [Fake.png_file "a.png"; Fake.png_file "b.png"] [1; 0]
         (Fake.world [Fake.id_a; Fake.id_b]))
  = (Some ["https://my-test-bucket.s3.us-east-1.amazonaws.com/0193a5b2-c3d4-7ef0-8123-456789abcdeb.png";
           "https://my-test-bucket.s3.us-east-1.amazonaws.com/0193a5b2-c3d4-7ef0-8123-456789abcdea.png"],
     None).
Proof. vm_compute. reflexivity. Qed.

(** Three files, the middle one of a type that is not allowed, finishing
    third, second, first: the call returns the error of the middle file and
    no list; the object of the third file stays in the store, and the
    first file, run under the cancelled context, is refused by the store. *)
Example run_multi_one_fails :
  let run := uploadService.UploadMultipleFiles (H := Fake.platform) Fake.service Background
               "my-test-bucket"
               [Fake.png_file "a.png"; Fake.text_file "b.txt"; Fake.png_file "c.png"]
               [2; 1; 0] (Fake.world [Fake.id_a; Fake.id_b]) in
  fst run = (None, Some ErrInvalidFileType)
  /\ S3.backend (store (snd run))
     = [("my-test-bucket", "0193a5b2-c3d4-7ef0-8123-456789abcdea.png", 12%Z)]
  /\ List.map snd
       (uploadService.completed
          (uploadService.fanout_run (H := Fake.platform) Fake.service Background
             "my-test-bucket"
             [Fake.png_file "a.png"; Fake.text_file "b.txt"; Fake.png_file "c.png"]
             [2; 1; 0] (Fake.world [Fake.id_a; Fake.id_b])))
     = [inl "https://my-test-bucket.s3.us-east-1.amazonaws.com/0193a5b2-c3d4-7ef0-8123-456789abcdea.png";
        inr ErrInvalidFileType;
        inr (Wrapf "failed to upload" Fake.canceled)].
Proof. vm_compute. repeat split; reflexivity. Qed.

(** ** The bucket name that reaches the repository *)

Section ForwardFacts.
Context `{Platform} {R : Type} (r : Repository.t R).
Import uploadService.

Abbreviation recorder := (NewService (Repository.recording r)).

Lemma replicate_snoc {A} n (x : A) : replicate n x ++ [x] = replicate (S n) x.
Proof. induction n as [|n IH]; simpl; [reflexivity | rewrite IH; reflexivity]. Qed.

(** A single upload hands the repository the bucket at most once, and
    once when it succeeds. *)
Lemma received_UploadFile ctx bucket file (w : World (R * list string) Entropy) :
  let out := UploadFile recorder ctx bucket file w in
  (received (snd out) = received w \/ received (snd out) = received w ++ [bucket])
  /\ (forall url, fst (fst out) = inl url -> received (snd out) = received w ++ [bucket]).
Proof.
  cbv zeta.
  destruct (validateBucketName bucket) as [err|] eqn:Hb.
  { unfold UploadFile. rewrite Hb. simpl. split; [left; reflexivity | discriminate]. }
  destruct (validateFile file w) as [[verr f1] w1] eqn:Hf.
  pose proof (validateFile_world file w) as Hw. rewrite Hf in Hw. simpl in Hw.
  destruct Hw as (Hs & _ & _).
  destruct verr as [err|].
  { unfold UploadFile. rewrite Hb. unfold bind. rewrite Hf. simpl.
    unfold received. rewrite Hs. split; [left; reflexivity | discriminate]. }
  rewrite (UploadFile_validated recorder ctx bucket file w f1 w1 Hb Hf). cbv zeta.
  destruct (NewV7 (entropy w1)) as [[id|err] e].
  - simpl. unfold Repository.noting.
    destruct (Repository.Upload r _ bucket _ (fst (store w1))) as [[url|err] r'];
      simpl; unfold received; simpl; rewrite Hs;
      (split; [right; reflexivity | intros; try discriminate; reflexivity]).
  - simpl. unfold received. simpl. rewrite Hs. split; [left; reflexivity | discriminate].
Qed.

(** The fan-out hands the repository the bucket once for each upload that
    gets as far as the call: at most once for each goroutine, and once for
    each when none has failed. *)
Lemma received_fanout ctx bucket files (w : World (R * list string) Entropy) :
  forall sched,
    let st := fanout_run recorder ctx bucket files sched w in
    length (fo_files st) = length files
    /\ exists n, received (fo_world st) = received w ++ replicate n bucket
                 /\ n <= length sched
                 /\ (group_err st = None ->
                     Forall (fun i => i < length files) sched -> n = length sched).
Proof.
  induction sched as [|i sched IH] using rev_ind; cbv zeta.
  - unfold fanout_run. simpl. split; [reflexivity |].
    exists 0. simpl. rewrite app_nil_r. auto.
  - rewrite fanout_run_snoc. cbv zeta in IH.
    set (st := fanout_run recorder ctx bucket files sched w) in *.
    destruct IH as (Hlen & n & Hrec & Hle & Hall).
    rewrite length_app. simpl.
    unfold task. destruct (fo_files st !! i) as [f|] eqn:Hi.
    + pose proof (received_UploadFile (group_ctx st) bucket f (fo_world st)) as Hup.
      cbv zeta in Hup.
      destruct (UploadFile recorder (group_ctx st) bucket f (fo_world st))
        as [[res f'] w'] eqn:Hrun.
      simpl in Hup. destruct Hup as [Hgrow Hsucc].
      destruct res as [url|err].
      * simpl. split; [rewrite length_insert; exact Hlen |].
        exists (S n). rewrite (Hsucc url eq_refl), Hrec, <- app_assoc, replicate_snoc.
        split; [reflexivity |]. split; [lia |].
        intros Hnone Hlt. apply Forall_app in Hlt. destruct Hlt as [Hlt _].
        specialize (Hall Hnone Hlt). lia.
      * assert (Hsome : exists m, received w' = received w ++ replicate m bucket
                                  /\ m <= length sched + 1).
        { destruct Hgrow as [-> | ->].
          - exists n. split; [exact Hrec | lia].
          - exists (S n). rewrite Hrec, <- app_assoc, replicate_snoc.
            split; [reflexivity | lia]. }
        destruct Hsome as (m & Hm & Hmle).
        destruct (group_err st) as [e0|]; simpl;
          (split; [rewrite length_insert; exact Hlen |]);
          exists m; (split; [exact Hm |]); (split; [exact Hmle |]); discriminate.
    + split; [exact Hlen |]. exists n. split; [exact Hrec |]. split; [lia |].
      intros _ Hlt. apply Forall_app in Hlt. destruct Hlt as [_ Hlt].
      apply Forall_cons in Hlt. destruct Hlt as [Hlt _].
      apply lookup_ge_None in Hi. lia.
Qed.

(** C9.  Every method that takes a bucket hands the caller's string to the
    repository.  Over a repository that keeps the bucket argument of every
    call it is handed, whatever repository stands behind it: once the name
    is accepted, each of the methods with one call has added the caller's
    [bucket] itself, once, to what the repository has received ([DeleteFile]
    given a key), and [CreateBucket] once or twice; [UploadFile] has added
    it at most once, and once when it succeeds; [UploadMultipleFiles] has
    added it at most once for each goroutine, and once for each file when
    it succeeds; nothing else is ever added, in particular not the folded
    and trimmed copy that the validator looked at.  For [" MyBucket "] the
    copy is ["mybucket"], the validator accepts, and the repository
    receives [" MyBucket "]. *)
Theorem bucket_forwarded_unchanged ctx bucket key ext token limit file files sched
    (w : World (R * list string) Entropy) :
  let grows (n : nat) (w' : World (R * list string) Entropy) :=
    received w' = received w ++ replicate n bucket in
  (validateBucketName bucket = None ->
     grows 1 (snd (GetDownloadURL recorder ctx bucket key w))
     /\ grows 1 (snd (DownloadFile recorder ctx bucket key w))
     /\ grows 1 (snd (ListFiles recorder ctx bucket ext token limit w))
     /\ (key <> "" -> grows 1 (snd (DeleteFile recorder ctx bucket key w)))
     /\ grows 1 (snd (GetBucketStats recorder ctx bucket w))
     /\ grows 1 (snd (DeleteBucket recorder ctx bucket w))
     /\ grows 1 (snd (EmptyBucket recorder ctx bucket w))
     /\ (grows 1 (snd (CreateBucket recorder ctx bucket w))
         \/ grows 2 (snd (CreateBucket recorder ctx bucket w))))
  /\ (grows 0 (snd (UploadFile recorder ctx bucket file w))
      \/ grows 1 (snd (UploadFile recorder ctx bucket file w)))
  /\ (forall url, fst (fst (UploadFile recorder ctx bucket file w)) = inl url ->
        grows 1 (snd (UploadFile recorder ctx bucket file w)))
  /\ (exists n, n <= length sched
                /\ grows n (snd (UploadMultipleFiles recorder ctx bucket files sched w)))
  /\ (forall urls, sched ≡ₚ seq 0 (length files) ->
        fst (fst (UploadMultipleFiles recorder ctx bucket files sched w)) = Some urls ->
        grows (length files) (snd (UploadMultipleFiles recorder ctx bucket files sched w)))
  /\ normalize " MyBucket " = "mybucket"
  /\ validateBucketName " MyBucket " = None
  /\ received (snd (GetBucketStats recorder ctx " MyBucket " w))
     = received w ++ [" MyBucket "]
  /\ received (snd (DeleteBucket recorder ctx " MyBucket " w))
     = received w ++ [" MyBucket "]
  /\ received (snd (ListFiles recorder ctx " MyBucket " ext token limit w))
     = received w ++ [" MyBucket "]
  /\ received (snd (EmptyBucket recorder ctx " MyBucket " w))
     = received w ++ [" MyBucket "].
Proof.
  cbv zeta.
  assert (Hmy : validateBucketName " MyBucket " = None) by (vm_compute; reflexivity).
  assert (Hlist : forall b, validateBucketName b = None ->
            received (snd (ListFiles recorder ctx b ext token limit w)) = received w ++ [b]).
  { intros b Hb. unfold ListFiles. rewrite Hb. unfold bind, call_repo. simpl.
    unfold Repository.noting.
    destruct (Repository.List r _ _ _ _ _ _) as [[page|err] r']; [| reflexivity].
    destruct (String.eqb ext ""); reflexivity. }
  assert (Hstats : forall b, validateBucketName b = None ->
            received (snd (GetBucketStats recorder ctx b w)) = received w ++ [b]).
  { intros b Hb. unfold GetBucketStats. rewrite Hb. unfold call_repo. simpl.
    unfold Repository.noting. destruct (Repository.GetStats r _ _ _). reflexivity. }
  assert (Hdelb : forall b, validateBucketName b = None ->
            received (snd (DeleteBucket recorder ctx b w)) = received w ++ [b]).
  { intros b Hb. unfold DeleteBucket. rewrite Hb. unfold call_repo. simpl.
    unfold Repository.noting. destruct (Repository.DeleteBucket r _ _ _). reflexivity. }
  assert (Hempty : forall b, validateBucketName b = None ->
            received (snd (EmptyBucket recorder ctx b w)) = received w ++ [b]).
  { intros b Hb. unfold EmptyBucket. rewrite Hb. unfold call_repo. simpl.
    unfold Repository.noting. destruct (Repository.DeleteAll r _ _ _). reflexivity. }
  split.
  { intros Hb.
    split.
    { unfold GetDownloadURL. rewrite Hb. unfold call_repo. simpl.
      unfold Repository.noting. destruct (Repository.GetPresignURL r _ _ _ _ _). reflexivity. }
    split.
    { unfold DownloadFile. rewrite Hb. unfold call_repo. simpl.
      unfold Repository.noting. destruct (Repository.Download r _ _ _ _). reflexivity. }
    split; [exact (Hlist bucket Hb) |].
    split.
    { intros Hkey. unfold DeleteFile.
      destruct (String.eqb_spec key ""); [contradiction |].
      rewrite Hb. unfold call_repo. simpl.
      unfold Repository.noting. destruct (Repository.Delete r _ _ _ _). reflexivity. }
    split; [exact (Hstats bucket Hb) |].
    split; [exact (Hdelb bucket Hb) |].
    split; [exact (Hempty bucket Hb) |].
    unfold CreateBucket. rewrite Hb. unfold bind, call_repo. simpl.
    unfold Repository.noting.
    destruct (Repository.CheckBucketExists r _ _ _) as [[ex err] r1]. simpl.
    destruct err as [err|]; [left; reflexivity |].
    destruct ex; [left; reflexivity |]. simpl.
    destruct (Repository.CreateBucket r _ _ _) as [cerr r2]. simpl.
    right. unfold received. simpl. rewrite <- app_assoc. reflexivity. }
  pose proof (received_UploadFile ctx bucket file w) as Hup. cbv zeta in Hup.
  destruct Hup as [Hgrow Hsucc].
  split.
  { destruct Hgrow as [-> | ->]; [left; simpl; rewrite app_nil_r | right]; reflexivity. }
  split; [exact Hsucc |].
  pose proof (received_fanout ctx bucket files w sched) as Hfan. cbv zeta in Hfan.
  destruct Hfan as (_ & n & Hrec & Hle & Hall).
  assert (Hworld : snd (UploadMultipleFiles recorder ctx bucket files sched w)
                   = fo_world (fanout_run recorder ctx bucket files sched w)).
  { unfold UploadMultipleFiles. destruct (group_err _); reflexivity. }
  split.
  { exists n. rewrite Hworld. split; [exact Hle | exact Hrec]. }
  split.
  { intros urls Hperm Hres. rewrite Hworld, Hrec.
    assert (Hnone : group_err (fanout_run recorder ctx bucket files sched w) = None).
    { unfold UploadMultipleFiles in Hres.
      destruct (group_err _); [discriminate | reflexivity]. }
    assert (Hlt : Forall (fun i => i < length files) sched).
    { apply Forall_forall. intros i Hi. rewrite Hperm in Hi.
      apply elem_of_seq in Hi. lia. }
    rewrite (Hall Hnone Hlt), Hperm, length_seq. reflexivity. }
  split; [vm_compute; reflexivity |].
  split; [exact Hmy |].
  split; [exact (Hstats _ Hmy) |].
  split; [exact (Hdelb _ Hmy) |].
  split; [exact (Hlist _ Hmy) | exact (Hempty _ Hmy)].
Qed.

End ForwardFacts.

(** The S3 repository over the in-memory client behind a recording one,
    asked to empty [" MyBucket "]: the name with its capitals and blanks is
    what the repository is handed. *)
Lemma bucket_forwarded_unchanged_witness :
  received
    (snd (uploadService.EmptyBucket (H := Fake.platform)
            (uploadService.NewService (Repository.recording (uploadService.repo Fake.service)))
            Background " MyBucket "
            (mkWorld (S3.mkRemote [] [], []) [] [])))
  = [" MyBucket "].
Proof.
  exact (proj1 (proj2 (proj2 (proj2 (proj2 (proj2 (proj2
           (proj1 (bucket_forwarded_unchanged (H := Fake.platform)
                     (uploadService.repo Fake.service) Background " MyBucket " "" "" ""
                     0%Z (Fake.png_file "a.png") [] []
                     (mkWorld (S3.mkRemote [] [], []) [] []))
              eq_refl)))))))).
Defined.

(** Down at the AWS client the request of [GetBucketStats] for
    [" MyBucket "] names the bucket with its capitals and blanks. *)
Example run_stats_unfolded_name :
  S3.requests (store (snd (uploadService.GetBucketStats (H := Fake.platform) Fake.service
                             Background " MyBucket " (Fake.world []))))
  = [S3.ReqListObjectsV2 (S3.mkListObjectsV2Input (Some " MyBucket ") None None None)].
Proof. vm_compute. reflexivity. Qed.

(** * Part III: further properties of the code *)

(** ** Buckets over the S3 repository *)

Section S3BucketFacts.
Context `{Platform} {S : Type} (client : S3.Client S) (region : string).
Import uploadService.

(** [CreateBucket] over the S3 repository asks [HeadBucket] first.  When
    that succeeds the bucket is taken to exist: the answer is
    [ErrBucketAlreadyExists] and nothing is created.  When it fails, for
    whatever reason, the bucket is taken to be absent: [CreateBucket] is
    sent and its answer is returned. *)
Theorem CreateBucket_head_then_create ctx bucket (w : World (S3.Remote S) Entropy) :
  validateBucketName bucket = None ->
  let out := CreateBucket (NewService (S3Repository.NewS3Repository client region))
               ctx bucket w in
  let head := S3.HeadBucket client ctx (Some bucket) (S3.backend (store w)) in
  let create := S3.CreateBucket client ctx (Some bucket) (snd head) in
  (fst head = None ->
     fst out = Some ErrBucketAlreadyExists
     /\ S3.requests (store (snd out))
        = S3.requests (store w) ++ [S3.ReqHeadBucket (Some bucket)]
     /\ S3.backend (store (snd out)) = snd head)
  /\ (forall err, fst head = Some err ->
        fst out = fst create
        /\ S3.requests (store (snd out))
           = S3.requests (store w)
             ++ [S3.ReqHeadBucket (Some bucket); S3.ReqCreateBucket (Some bucket)]
        /\ S3.backend (store (snd out)) = snd create).
Proof.
  intros Hb. cbv zeta. unfold CreateBucket. rewrite Hb.
  unfold bind, call_repo, S3Repository.NewS3Repository. simpl.
  unfold S3Repository.CheckBucketExists, S3Repository.CreateBucket, bind, S3.send, ret. simpl.
  destruct (S3.HeadBucket client ctx (Some bucket) (S3.backend (store w))) as [[herr|] b];
    simpl.
  - split; [discriminate |]. intros err _.
    destruct (S3.CreateBucket client ctx (Some bucket) b) as [cerr b']; simpl.
    rewrite <- app_assoc. repeat split.
  - split; [| discriminate]. intros _. repeat split.
Qed.

(** [EmptyBucket] over the S3 repository lists once, with the bucket as the
    only field of the request.  A listing error is returned; an empty page
    ends the call with no deletion; otherwise one [DeleteObjects] request
    names the keys of that page, in their order, and its answer is
    returned.  There is no further listing, whatever the page says. *)
Theorem EmptyBucket_one_page ctx bucket (w : World (S3.Remote S) Entropy) :
  validateBucketName bucket = None ->
  let out := EmptyBucket (NewService (S3Repository.NewS3Repository client region))
               ctx bucket w in
  let listing := S3.mkListObjectsV2Input (Some bucket) None None None in
  let listed := S3.ListObjectsV2 client ctx listing (S3.backend (store w)) in
  (forall err, fst listed = inr err ->
     fst out = Some err
     /\ S3.requests (store (snd out)) = S3.requests (store w) ++ [S3.ReqListObjectsV2 listing])
  /\ (forall page, fst listed = inl page -> S3.Contents page = [] ->
        fst out = None
        /\ S3.requests (store (snd out)) = S3.requests (store w) ++ [S3.ReqListObjectsV2 listing]
        /\ S3.backend (store (snd out)) = snd listed)
  /\ (forall page, fst listed = inl page -> S3.Contents page <> [] ->
        let deletion := S3.mkDeleteObjectsInput (Some bucket)
                          (List.map S3.Key (S3.Contents page)) in
        let deleted := S3.DeleteObjects client ctx deletion (snd listed) in
        fst out = fst deleted
        /\ S3.requests (store (snd out))
           = S3.requests (store w)
             ++ [S3.ReqListObjectsV2 listing; S3.ReqDeleteObjects deletion]
        /\ S3.backend (store (snd out)) = snd deleted).
Proof.
  intros Hb. cbv zeta. unfold EmptyBucket. rewrite Hb.
  unfold call_repo, S3Repository.NewS3Repository. simpl.
  unfold S3Repository.DeleteAll, S3Repository.bucket_only, bind, S3.send, ret. simpl.
  destruct (S3.ListObjectsV2 client ctx _ (S3.backend (store w))) as [[page|err] b]; simpl.
  - split; [discriminate |]. split.
    + intros page' [= <-] Hnil. rewrite Hnil. simpl. repeat split.
    + intros page' [= <-] Hne.
      destruct (S3.Contents page) as [|obj objs] eqn:Hc; [contradiction |].
      simpl.
      destruct (S3.DeleteObjects client ctx _ b) as [derr b']; simpl.
      rewrite <- app_assoc. repeat split.
  - split; [| split; discriminate]. intros err' [= <-]. repeat split.
Qed.

End S3BucketFacts.

Lemma CreateBucket_head_then_create_witness :
  fst (uploadService.CreateBucket (H := Fake.platform) Fake.service Background
         "my-test-bucket" (Fake.world []))
  = Some ErrBucketAlreadyExists.
Proof.
  exact (proj1 (proj1 (CreateBucket_head_then_create (H := Fake.platform) Fake.client
                         "us-east-1" Background "my-test-bucket" (Fake.world []) eq_refl)
                  eq_refl)).
Defined.

Lemma EmptyBucket_one_page_witness :
  fst (uploadService.EmptyBucket (H := Fake.platform) Fake.service Background
         "my-test-bucket" Fake.stocked_world)
  = None.
Proof.
  pose proof (EmptyBucket_one_page (H := Fake.platform) Fake.client "us-east-1" Background
                "my-test-bucket" Fake.stocked_world eq_refl) as (_ & _ & Hdel).
  cbv zeta in Hdel.
  destruct (Hdel _ eq_refl ltac:(discriminate)) as [Hres _]. exact Hres.
Defined.

(** ** Deleting a file *)

Section DeleteFacts.
Context `{Platform} {R : Type} (s : uploadService.t R).
Import uploadService.

(** [DeleteFile] looks at the key before it looks at the bucket: with an
    empty key the answer is the key error also when the bucket name is bad,
    and nothing is called.  With a key and a bad bucket name the answer is
    the validator's error, again with no call.  Otherwise the one call is
    [Delete] with the caller's bucket and key, under a context that is done
    exactly when the caller's is and whose timeout is at most five seconds
    and at most the caller's. *)
Theorem DeleteFile_key_first ctx bucket key (w : World R Entropy) :
  let out := DeleteFile s ctx bucket key w in
  (key = "" -> out = (Some (Errorf "file key is required"), w))
  /\ (forall err, key <> "" -> validateBucketName bucket = Some err -> out = (Some err, w))
  /\ (key <> "" -> validateBucketName bucket = None ->
      exists ctx',
        trace (snd out) = trace w ++ [EvRepo (Repository.CallDelete ctx' bucket key)]
        /\ out = (let (err, r) := Repository.Delete (repo s) ctx' bucket key (store w) in
                  (err, mkWorld r (entropy w) (trace w ++ [EvRepo (Repository.CallDelete ctx' bucket key)])))
        /\ ctx_done ctx' = ctx_done ctx
        /\ exists d, ctx_timeout ctx' = Some d
                     /\ (d <= 5 * Second)%Z
                     /\ (forall d0, ctx_timeout ctx = Some d0 -> (d <= d0)%Z)).
Proof.
  cbv zeta. unfold DeleteFile. split; [intros ->; reflexivity |].
  destruct (String.eqb_spec key "") as [He|He].
  { split; intros; contradiction. }
  split.
  - intros err _ ->. reflexivity.
  - intros _ ->. exists (WithTimeout ctx deleteTimeout). unfold call_repo.
    destruct (Repository.Delete _ _ _ _ _) as [err r]. simpl.
    split; [reflexivity |]. split; [reflexivity |]. split; [reflexivity |].
    unfold deleteTimeout. destruct (ctx_timeout ctx) as [d0|].
    + exists (Z.min d0 (5 * Second)). split; [reflexivity |].
      split; [lia |]. intros d1 [= <-]. lia.
    + exists (5 * Second)%Z. split; [reflexivity |]. split; [lia | discriminate].
Qed.

End DeleteFacts.

(** ** More on listing *)

Section ListMoreFacts.
Context `{Platform} {R : Type} (svc : uploadService.t R).
Import uploadService.
Import GoStrings.

Lemma lower_byte_not_upper c : byte_in "A" "Z" (lower_byte c) = false.
Proof. destruct c as [[] [] [] [] [] [] [] []]; reflexivity. Qed.

Lemma lower_byte_ascii c : is_ascii_byte c = true -> is_ascii_byte (lower_byte c) = true.
Proof. destruct c as [[] [] [] [] [] [] [] []]; intros Hc; try reflexivity; discriminate Hc. Qed.

Lemma lower_byte_dot c : Ascii.eqb (lower_byte c) "." = Ascii.eqb c ".".
Proof. destruct c as [[] [] [] [] [] [] [] []]; reflexivity. Qed.

Lemma map_bytes_no_upper s :
  existsb (byte_in "A" "Z") (list_ascii_of_string s) = false ->
  map_bytes lower_byte s = s.
Proof.
  induction s as [|c s IH]; simpl; [reflexivity |].
  intros [Hc Hs]%orb_false_elim. rewrite IH by exact Hs.
  unfold lower_byte. rewrite Hc. reflexivity.
Qed.

(** On ASCII text [ToLower] lowers byte by byte. *)
Lemma ToLower_ascii s : all_ascii s = true -> ToLower s = map_bytes lower_byte s.
Proof.
  intros Ha. unfold ToLower. rewrite Ha.
  destruct (existsb (byte_in "A" "Z") (list_ascii_of_string s)) eqn:Hu; [reflexivity |].
  simpl. symmetry. apply map_bytes_no_upper. exact Hu.
Qed.

Lemma all_ascii_lower s : all_ascii s = true -> all_ascii (map_bytes lower_byte s) = true.
Proof.
  unfold all_ascii. induction s as [|c s IH]; simpl; [reflexivity |].
  intros [Hc Hs]%andb_prop. rewrite lower_byte_ascii by exact Hc. simpl. apply IH. exact Hs.
Qed.

Lemma map_bytes_lower_idem s :
  map_bytes lower_byte (map_bytes lower_byte s) = map_bytes lower_byte s.
Proof.
  induction s as [|c s IH]; simpl; [reflexivity |]. rewrite IH. f_equal.
  unfold lower_byte at 1. rewrite lower_byte_not_upper. reflexivity.
Qed.

Lemma HasPrefix_dot c txt : HasPrefix (String c txt) "." = Ascii.eqb c ".".
Proof.
  unfold HasPrefix. cbn [String.prefix]. destruct (ascii_dec "." c) as [<-|Hn].
  - destruct txt; reflexivity.
  - destruct (Ascii.eqb_spec c "."); [congruence | reflexivity].
Qed.

Lemma dotted_lower_ascii ext :
  all_ascii ext = true ->
  dotted_lower ext =
  if HasPrefix ext "." then map_bytes lower_byte ext
  else "." +:+ map_bytes lower_byte ext.
Proof.
  intros Ha. unfold dotted_lower. rewrite (ToLower_ascii ext Ha).
  destruct ext as [|c ext]; [reflexivity |].
  cbn [map_bytes]. rewrite !HasPrefix_dot, lower_byte_dot. reflexivity.
Qed.

(** A filter is never empty after it has been normalised. *)
Lemma dotted_lower_nonempty ext : dotted_lower ext <> "".
Proof.
  unfold dotted_lower. destruct (HasPrefix (ToLower ext) ".") eqn:Hp.
  - intros He. rewrite He in Hp. discriminate.
  - discriminate.
Qed.

(** Two filters with the same normal form give the same run. *)
Lemma ListFiles_same_target ctx bucket ext1 ext2 token limit (w : World R Entropy) :
  ext1 <> "" -> ext2 <> "" -> dotted_lower ext1 = dotted_lower ext2 ->
  ListFiles svc ctx bucket ext1 token limit w = ListFiles svc ctx bucket ext2 token limit w.
Proof.
  intros H1 H2 Ht. unfold ListFiles.
  destruct (validateBucketName bucket); [reflexivity |].
  unfold bind. destruct (call_repo _ _ w) as [[page|err] w1]; [| reflexivity].
  destruct (String.eqb_spec ext1 ""); [contradiction |].
  destruct (String.eqb_spec ext2 ""); [contradiction |].
  assert (Hd : forall ext,
             (if negb (HasPrefix (ToLower ext) ".") then "." +:+ ToLower ext else ToLower ext)
             = dotted_lower ext).
  { intros ext. unfold dotted_lower. destruct (HasPrefix (ToLower ext) "."); reflexivity. }
  rewrite !Hd, Ht. reflexivity.
Qed.

(** For a filter of ASCII text, one that is not empty and has no leading
    dot, it makes no difference to [ListFiles] whether the caller writes
    the dot, and none whether the caller writes capitals: the whole run,
    result and world, is the same. *)
Theorem ListFiles_filter_spelling ctx bucket ext token limit (w : World R Entropy) :
  all_ascii ext = true -> ext <> "" -> HasPrefix ext "." = false ->
  ListFiles svc ctx bucket ("." +:+ ext) token limit w = ListFiles svc ctx bucket ext token limit w
  /\ ListFiles svc ctx bucket (ToLower ext) token limit w
     = ListFiles svc ctx bucket ext token limit w.
Proof.
  intros Ha Hne Hp.
  assert (Hlow : ToLower ext <> "").
  { rewrite ToLower_ascii by exact Ha. destruct ext; [contradiction | discriminate]. }
  split.
  - apply ListFiles_same_target; [discriminate | exact Hne |].
    rewrite (dotted_lower_ascii ext Ha), Hp.
    rewrite dotted_lower_ascii by (unfold all_ascii in *; simpl; exact Ha).
    change ("." +:+ ext) with (String "." ext). rewrite HasPrefix_dot. reflexivity.
  - apply ListFiles_same_target; [exact Hlow | exact Hne |].
    rewrite (dotted_lower_ascii ext Ha), Hp.
    rewrite (ToLower_ascii ext Ha).
    rewrite dotted_lower_ascii by (apply all_ascii_lower; exact Ha).
    rewrite map_bytes_lower_idem.
    destruct ext as [|c ext]; [contradiction |].
    cbn [map_bytes]. rewrite HasPrefix_dot in *. rewrite lower_byte_dot, Hp. reflexivity.
Qed.

(** No filter selects the files that have no extension: with any filter
    other than the empty one, every file [ListFiles] returns has an
    extension. *)
Theorem ListFiles_filter_drops_bare_names ctx bucket ext token limit
    (w : World R Entropy) page :
  ext <> "" ->
  fst (ListFiles svc ctx bucket ext token limit w) = inl page ->
  forall f, f ∈ PaginatedFiles.Files page -> FileSummary.Extension f <> "".
Proof.
  intros Hne Hrun f Hin Hbare. unfold ListFiles in Hrun.
  destruct (validateBucketName bucket); [discriminate |].
  unfold bind in Hrun. destruct (call_repo _ _ w) as [[fetched|err] w1]; [| discriminate].
  destruct (String.eqb_spec ext ""); [contradiction |].
  simpl in Hrun. injection Hrun as <-. simpl in Hin.
  apply list_elem_of_In, filter_In in Hin. destruct Hin as [_ Heq].
  apply String.eqb_eq in Heq. rewrite Hbare in Heq.
  assert (Hd : (if negb (HasPrefix (ToLower ext) ".") then "." +:+ ToLower ext else ToLower ext)
               = dotted_lower ext).
  { unfold dotted_lower. destruct (HasPrefix (ToLower ext) "."); reflexivity. }
  rewrite Hd in Heq. change (ToLower "") with "" in Heq.
  exact (dotted_lower_nonempty ext (eq_sym Heq)).
Qed.

(** The limit is narrowed to [int32] after the default has been applied: a
    limit from [2 ^ 31] up to [2 ^ 32 - 1] reaches the repository as the
    negative number [limit - 2 ^ 32], and a positive multiple of [2 ^ 32]
    reaches it as 0, not as the default. *)
Theorem ListFiles_limit_narrowed ctx bucket ext token limit (w : World R Entropy) :
  validateBucketName bucket = None -> (0 < limit)%Z ->
  exists sent,
    trace (snd (ListFiles svc ctx bucket ext token limit w))
      = trace w ++ [EvRepo (Repository.CallList ctx bucket "" token sent)]
    /\ (- 2 ^ 31 <= sent < 2 ^ 31)%Z
    /\ ((sent - limit) mod 2 ^ 32 = 0)%Z
    /\ ((2 ^ 31 <= limit < 2 ^ 32)%Z -> sent = (limit - 2 ^ 32)%Z /\ (sent < 0)%Z)
    /\ (forall k, (0 < k)%Z -> limit = (k * 2 ^ 32)%Z -> sent = 0%Z).
Proof.
  intros Hb Hl. exists (Int.wrap32 limit). split.
  - unfold ListFiles. rewrite Hb. destruct (Z.leb_spec limit 0); [lia |].
    unfold bind, call_repo. destruct (Repository.List _ _ _ _ _ _ _) as [[page|err] r];
      [| reflexivity].
    destruct (String.eqb ext ""); reflexivity.
  - unfold Int.wrap32, Int.wrap.
    pose proof (Z.mod_pos_bound (limit + 2 ^ (32 - 1)) (2 ^ 32) ltac:(lia)) as Hm.
    pose proof (Z.div_mod (limit + 2 ^ (32 - 1)) (2 ^ 32) ltac:(lia)) as Hdm.
    split; [lia |]. split.
    + replace ((limit + 2 ^ (32 - 1)) mod 2 ^ 32 - 2 ^ (32 - 1) - limit)%Z
        with (- ((limit + 2 ^ (32 - 1)) / 2 ^ 32) * 2 ^ 32)%Z by lia.
      apply Z.mod_mul. lia.
    + split.
      * intros Hr.
        assert (Hq : ((limit + 2 ^ (32 - 1)) / 2 ^ 32 = 1)%Z).
        { symmetry. apply (Z.div_unique _ _ 1 (limit + 2 ^ (32 - 1) - 2 ^ 32)); lia. }
        lia.
      * intros k Hk ->.
        replace (k * 2 ^ 32 + 2 ^ (32 - 1))%Z with (2 ^ (32 - 1) + k * 2 ^ 32)%Z by lia.
        rewrite Z.mod_add by lia. rewrite Z.mod_small by lia. lia.
Qed.

End ListMoreFacts.

Lemma ListFiles_filter_spelling_witness :
  uploadService.ListFiles (H := Fake.platform) Fake.service Background "my-test-bucket"
    ".PNG" "" 0 Fake.stocked_world
  = uploadService.ListFiles (H := Fake.platform) Fake.service Background "my-test-bucket"
      "PNG" "" 0 Fake.stocked_world.
Proof.
  exact (proj1 (ListFiles_filter_spelling (H := Fake.platform) Fake.service Background
                  "my-test-bucket" "PNG" "" 0%Z Fake.stocked_world eq_refl
                  ltac:(discriminate) eq_refl)).
Defined.

Lemma ListFiles_filter_drops_bare_names_witness :
  Forall (fun f => FileSummary.Extension f <> "")
    (List.filter
       (fun f => String.eqb (ToLower (H := Fake.platform) (FileSummary.Extension f)) ".png")
       (List.map (S3Repository.summary (H := Fake.platform)
                    (S3Repository.mk _ Fake.client "us-east-1") "my-test-bucket")
          (List.map Fake.to_object (S3.backend (store Fake.stocked_world))))).
Proof.
  apply Forall_forall.
  exact (ListFiles_filter_drops_bare_names (H := Fake.platform) Fake.service Background
           "my-test-bucket" "png" "" 0%Z Fake.stocked_world _ ltac:(discriminate) eq_refl).
Defined.

Lemma ListFiles_limit_narrowed_witness :
  exists sent,
    trace (snd (uploadService.ListFiles (H := Fake.platform) Fake.service Background
                  "my-test-bucket" "" "" 3000000000 (Fake.world [])))
    = [EvRepo (Repository.CallList Background "my-test-bucket" "" "" sent)]
    /\ sent = (-1294967296)%Z.
Proof.
  destruct (ListFiles_limit_narrowed (H := Fake.platform) Fake.service Background
              "my-test-bucket" "" "" 3000000000%Z (Fake.world []) eq_refl ltac:(lia))
    as (sent & Ht & _ & _ & Hneg & _).
  exists sent. split; [exact Ht |]. apply Hneg. lia.
Defined.

(** ** The name and the body that reach the store *)

Section KeyFacts.
Import GoStrings.

Lemma list_ascii_app a b :
  list_ascii_of_string (a +:+ b) = list_ascii_of_string a ++ list_ascii_of_string b.
Proof. induction a as [|c a IH]; simpl; [reflexivity | f_equal; exact IH]. Qed.

(** The scan of [filepath.Ext] ends with nothing, or with the bytes after
    the last dot, none of which is a dot or a separator. *)
Lemma ext_scan_shape rev_path : forall suffix,
  ext_scan rev_path suffix = []
  \/ exists pre more,
       rev_path = pre ++ "."%char :: more
       /\ ext_scan rev_path suffix = "."%char :: rev pre ++ suffix
       /\ forallb plain pre = true.
Proof.
  induction rev_path as [|c more IH]; intros suffix; simpl; [left; reflexivity |].
  destruct (Ascii.eqb_spec c "/") as [Hs|Hs]; [left; reflexivity |].
  destruct (Ascii.eqb_spec c ".") as [Hd|Hd].
  - right. exists [], more. subst c. repeat split.
  - destruct (IH (c :: suffix)) as [Hnil | (pre & more' & Hm & He & Hp)];
      [left; exact Hnil |].
    right. exists (c :: pre), more'. subst more. split; [reflexivity |].
    split.
    + rewrite He. simpl. rewrite <- app_assoc. reflexivity.
    + simpl. rewrite Hp, andb_true_r. unfold plain.
      destruct (Ascii.eqb_spec c "/"); [contradiction |].
      destruct (Ascii.eqb_spec c "."); [contradiction | reflexivity].
Qed.

(** [filepath.Ext] answers with nothing, or with a dot and bytes that are
    neither dots nor separators, and what it answers ends the path. *)
Lemma Ext_shape path :
  (Ext path = "" \/ exists e, Ext path = String "." e /\ plain_text e = true)
  /\ exists stem, path = stem +:+ Ext path.
Proof.
  unfold Ext.
  destruct (ext_scan_shape (rev (list_ascii_of_string path)) [])
    as [Hnil | (pre & more & Hrev & He & Hp)].
  - rewrite Hnil. simpl. split; [left; reflexivity |].
    exists path. clear. induction path as [|c p IH]; [reflexivity |].
    change (String c p +:+ "") with (String c (p +:+ "")). f_equal. exact IH.
  - rewrite He, app_nil_r. simpl. split.
    + right. exists (string_of_list_ascii (rev pre)). split; [reflexivity |].
      unfold plain_text. rewrite list_ascii_of_string_of_list_ascii.
      rewrite forallb_forall in *. intros c Hc. apply Hp. apply in_rev. exact Hc.
    + exists (string_of_list_ascii (rev more)).
      rewrite <- (string_of_list_ascii_of_string path) at 1.
      rewrite <- (rev_involutive (list_ascii_of_string path)), Hrev.
      rewrite rev_app_distr. simpl. rewrite <- app_assoc. simpl.
      generalize (rev more) as l1. generalize (rev pre) as l2. clear.
      intros l2 l1. induction l1 as [|c l1 IH]; [reflexivity |].
      cbn [app string_of_list_ascii].
      change (String c (string_of_list_ascii l1) +:+ String "." (string_of_list_ascii l2))
        with (String c (string_of_list_ascii l1 +:+ String "." (string_of_list_ascii l2))).
      f_equal. exact IH.
Qed.

Lemma hex_digit_plain n : plain (UUID.hex_digit n) = true.
Proof.
  unfold UUID.hex_digit.
  do 16 (destruct n as [|n]; [reflexivity |]).
  simpl. destruct n; reflexivity.
Qed.

Lemma hex_plain bs : forallb plain (UUID.hex bs) = true.
Proof.
  induction bs as [|b bs IH]; simpl; [reflexivity |].
  rewrite !hex_digit_plain, IH. reflexivity.
Qed.

(** The string form of an identifier has no dot and no separator. *)
Lemma UUID_String_plain id : plain_text (UUID.String id) = true.
Proof.
  unfold plain_text, UUID.String. rewrite list_ascii_of_string_of_list_ascii.
  repeat (rewrite forallb_app || cbn [forallb]); rewrite ?hex_plain. reflexivity.
Qed.

End KeyFacts.

Section UploadMoreFacts.
Context `{Platform} {R : Type} (svc : uploadService.t R).
Import uploadService.

Lemma upload_calls_app evs1 evs2 :
  upload_calls (evs1 ++ evs2) = upload_calls evs1 ++ upload_calls evs2.
Proof. unfold upload_calls. apply omap_app. Qed.

Lemma upload_calls_stream evs :
  Forall (fun e => is_stream_event e = true) evs -> upload_calls evs = [].
Proof.
  induction 1 as [|e evs He _ IH]; [reflexivity |].
  destruct e as [n| | |c]; try discriminate; exact IH.
Qed.

(** An accepted file comes back with its stream at offset 0 and the bytes
    it had. *)
Lemma validateFile_accept (file f1 : File.t) (w w1 : World R Entropy) :
  validateFile file w = ((None, f1), w1) ->
  exists content c,
    File.Content file = Some content /\ File.Content f1 = Some c
    /\ Stream.pos c = 0 /\ Stream.data c = Stream.data content
    /\ File.URL f1 = File.URL file.
Proof.
  intros Hv. destruct (File.Content file) as [content|] eqn:Hc.
  - destruct (Stream.Read content 512) as [[buffer rerr] c1] eqn:Hread.
    destruct (Stream.SeekStart c1) as [serr c2] eqn:Hseek.
    rewrite (validateFile_unfold file content w _ _ _ _ _ Hc Hread Hseek) in Hv.
    destruct (read_failed rerr); [discriminate |].
    destruct serr; [discriminate |].
    injection Hv as _ <- _. exists content, c2.
    destruct (SeekStart_ok _ _ Hseek) as [Hp Hd].
    pose proof (Read_data content 512) as Hrd. rewrite Hread in Hrd. simpl in Hrd.
    repeat split; try assumption. congruence.
  - unfold validateFile in Hv. rewrite Hc in Hv. discriminate.
Qed.

(** The events of a single upload: reads and seeks, then at most one draw
    of an identifier, then at most one call of [Upload], which carries the
    bucket, the timeout of sixty seconds, and the accepted file under its
    new name. *)
Lemma UploadFile_events ctx bucket file (w : World R Entropy) :
  exists evs,
    trace (snd (UploadFile svc ctx bucket file w)) = trace w ++ evs
    /\ (upload_calls evs = []
        \/ exists f1 w1 id e,
             validateBucketName bucket = None
             /\ validateFile file w = ((None, f1), w1)
             /\ NewV7 (entropy w) = (inl id, e)
             /\ upload_calls evs =
                  [(WithTimeout ctx uploadTimeout, bucket,
                    File.set_Name f1 (UUID.String id +:+ GoStrings.Ext (File.Name file)))]).
Proof.
  destruct (validateBucketName bucket) as [err|] eqn:Hb.
  { unfold UploadFile. rewrite Hb. exists []. rewrite app_nil_r. auto. }
  destruct (validateFile file w) as [[verr f1] w1] eqn:Hf.
  pose proof (validateFile_world file w) as Hw. rewrite Hf in Hw. simpl in Hw.
  destruct Hw as (Hs & He & evs & Ht & Hall).
  pose proof (validateFile_Name (R := R) file w) as Hn. rewrite Hf in Hn. simpl in Hn.
  destruct verr as [err|].
  { unfold UploadFile. rewrite Hb. unfold bind. rewrite Hf. simpl.
    exists evs. split; [exact Ht |]. left. apply upload_calls_stream. exact Hall. }
  rewrite (UploadFile_validated svc ctx bucket file w f1 w1 Hb Hf). cbv zeta.
  rewrite He, Hn.
  destruct (NewV7 (entropy w)) as [[id|err] e] eqn:Hid.
  - set (f2 := File.set_Name f1 _).
    exists (evs ++ [EvNewV7; EvRepo (Repository.CallUpload (WithTimeout ctx uploadTimeout) bucket f2)]).
    split.
    + destruct (Repository.Upload (repo svc) _ bucket f2 (store w1)) as [[url|err] r];
        simpl; rewrite Ht, <- !app_assoc; reflexivity.
    + right. exists f1, w1, id, e. repeat split.
      rewrite upload_calls_app, (upload_calls_stream evs Hall). reflexivity.
  - exists (evs ++ [EvNewV7]). simpl. rewrite Ht, <- app_assoc. split; [reflexivity |].
    left. rewrite upload_calls_app, (upload_calls_stream evs Hall). reflexivity.
Qed.

(** Whatever name the caller gives the file, the name under which
    [UploadFile] hands it to the repository has no path separator in it, and
    no dot other than the one that begins the extension: it is the string
    form of an identifier, which has neither, followed by the extension of
    the caller's name, which is empty or a dot and bytes that are neither
    dots nor separators. *)
Theorem UploadFile_key_has_no_separator ctx bucket file (w : World R Entropy) :
  exists evs,
    trace (snd (UploadFile svc ctx bucket file w)) = trace w ++ evs
    /\ forall ctx' b f, (ctx', b, f) ∈ upload_calls evs ->
         exists id,
           File.Name f = UUID.String id +:+ GoStrings.Ext (File.Name file)
           /\ plain_text (UUID.String id) = true
           /\ (GoStrings.Ext (File.Name file) = ""
               \/ exists e, GoStrings.Ext (File.Name file) = String "." e
                            /\ plain_text e = true)
           /\ ("/"%char ∉ list_ascii_of_string (File.Name f)).
Proof.
  destruct (UploadFile_events ctx bucket file w)
    as (evs & Ht & [Hnil | (f1 & w1 & id & e & _ & _ & _ & Hc)]).
  - exists evs. split; [exact Ht |]. intros ctx' b f Hin. rewrite Hnil in Hin.
    apply elem_of_nil in Hin. contradiction.
  - exists evs. split; [exact Ht |]. intros ctx' b f Hin. rewrite Hc in Hin.
    apply list_elem_of_singleton in Hin. injection Hin as _ _ ->.
    exists id. simpl. split; [reflexivity |].
    pose proof (UUID_String_plain id) as Hid.
    destruct (Ext_shape (File.Name file)) as [Hext _].
    split; [exact Hid |]. split; [exact Hext |].
    rewrite list_ascii_app. intros Hin.
    assert (Hp : forall l, forallb plain l = true -> ("/"%char ∉ l)).
    { intros l Hl Hc'. rewrite forallb_forall in Hl.
      apply list_elem_of_In, Hl in Hc'. discriminate. }
    apply elem_of_app in Hin. destruct Hin as [Hin|Hin].
    + exact (Hp _ Hid Hin).
    + destruct Hext as [He | (e' & He & Hpe)]; rewrite He in Hin.
      * apply elem_of_nil in Hin. contradiction.
      * simpl in Hin. apply elem_of_cons in Hin. destruct Hin as [Hin|Hin];
          [discriminate | exact (Hp _ Hpe Hin)].
Qed.

(** Whatever position the caller's stream stands at, the stream that
    [UploadFile] hands to the repository stands at offset 0 and holds the
    bytes of the caller's stream: the store is given the whole content, not
    the part after the bytes that were sniffed. *)
Theorem UploadFile_body_rewound ctx bucket file (w : World R Entropy) :
  exists evs,
    trace (snd (UploadFile svc ctx bucket file w)) = trace w ++ evs
    /\ forall ctx' b f, (ctx', b, f) ∈ upload_calls evs ->
         exists content c,
           File.Content file = Some content /\ File.Content f = Some c
           /\ Stream.pos c = 0 /\ Stream.data c = Stream.data content.
Proof.
  destruct (UploadFile_events ctx bucket file w)
    as (evs & Ht & [Hnil | (f1 & w1 & id & e & _ & Hv & _ & Hc)]).
  - exists evs. split; [exact Ht |]. intros ctx' b f Hin. rewrite Hnil in Hin.
    apply elem_of_nil in Hin. contradiction.
  - exists evs. split; [exact Ht |]. intros ctx' b f Hin. rewrite Hc in Hin.
    apply list_elem_of_singleton in Hin. injection Hin as _ _ ->.
    destruct (validateFile_accept _ _ _ _ Hv) as (content & c & H1 & H2 & H3 & H4 & _).
    exists content, c. repeat split; assumption.
Qed.

(** [UploadFile] writes the locator into the file on success only, and
    renames the file only once an identifier has been drawn: when it fails,
    the file's URL is the one it came with, and its name is either the one
    it came with or, if the failure is the repository's, already the
    generated one. *)
Theorem UploadFile_file_after ctx bucket file (w : World R Entropy) :
  let out := UploadFile svc ctx bucket file w in
  let f' := snd (fst out) in
  (forall url, fst (fst out) = inl url ->
     File.URL f' = url
     /\ exists id, File.Name f' = UUID.String id +:+ GoStrings.Ext (File.Name file))
  /\ (forall err, fst (fst out) = inr err ->
        File.URL f' = File.URL file
        /\ (File.Name f' = File.Name file
            \/ exists id ctx' r,
                 File.Name f' = UUID.String id +:+ GoStrings.Ext (File.Name file)
                 /\ Repository.Upload (repo svc) ctx' bucket f' (store w) = (inr err, r))).
Proof.
  cbv zeta.
  destruct (validateBucketName bucket) as [err|] eqn:Hb.
  { unfold UploadFile. rewrite Hb. simpl. split; [discriminate |].
    intros err' _. split; [reflexivity | left; reflexivity]. }
  destruct (validateFile file w) as [[verr f1] w1] eqn:Hf.
  pose proof (validateFile_world file w) as Hw. rewrite Hf in Hw. simpl in Hw.
  destruct Hw as (Hs & He & _).
  pose proof (validateFile_Name (R := R) file w) as Hn. rewrite Hf in Hn. simpl in Hn.
  destruct verr as [err|].
  { unfold UploadFile. rewrite Hb. unfold bind. rewrite Hf. simpl.
    split; [discriminate |]. intros err' _.
    split; [| left; exact Hn].
    unfold validateFile in Hf. destruct (File.Content file) as [content|].
    - destruct (Stream.Read content 512) as [[buffer rerr] c1].
      destruct (read_failed rerr); [injection Hf as _ <- _; reflexivity |].
      destruct (Stream.SeekStart c1) as [serr c2].
      destruct serr; [injection Hf as _ <- _; reflexivity |].
      destruct (negb (allowed (DetectContentType buffer)));
        injection Hf as _ <- _; reflexivity.
    - injection Hf as _ <- _. reflexivity. }
  destruct (validateFile_accept _ _ _ _ Hf) as (_ & _ & _ & _ & _ & _ & Hurl).
  rewrite (UploadFile_validated svc ctx bucket file w f1 w1 Hb Hf). cbv zeta.
  rewrite Hn, Hs.
  destruct (NewV7 (entropy w1)) as [[id|err] e].
  - set (f2 := File.set_Name f1 _).
    destruct (Repository.Upload (repo svc) _ bucket f2 (store w)) as [[url|err] r] eqn:Hup;
      simpl.
    + split; [| discriminate]. intros url' [= <-]. split; [reflexivity |].
      exists id. reflexivity.
    + split; [discriminate |]. intros err' [= <-]. split; [exact Hurl |].
      right. exists id, (WithTimeout ctx uploadTimeout), r. split; [reflexivity | exact Hup].
  - simpl. split; [discriminate |]. intros err' _. split; [exact Hurl | left; exact Hn].
Qed.

End UploadMoreFacts.

Section DeclaredTypeFacts.
Context `{Platform} {S : Type} (client : S3.Client S) (region : string).
Import uploadService.

Lemma validateFile_redeclared (f : File.t) size ct (w : World (S3.Remote S) Entropy) :
  validateFile (redeclared f size ct) w =
  (fst (fst (validateFile f w)), redeclared (snd (fst (validateFile f w))) size ct,
   snd (validateFile f w)).
Proof.
  unfold validateFile. simpl. destruct (File.Content f) as [content|]; [| reflexivity].
  destruct (Stream.Read content 512) as [[buffer rerr] c1].
  destruct (read_failed rerr); [reflexivity |].
  destruct (Stream.SeekStart c1) as [serr c2].
  destruct serr; [reflexivity |].
  destruct (negb (allowed (DetectContentType buffer))); reflexivity.
Qed.

(** The size and the content type that the caller declares for the file
    play no part in a single upload through the S3 repository: with other
    declarations the verdict, the locator, the requests sent to the store
    and the identifiers drawn are the same, and the file comes back the
    same but for the declarations. *)
Theorem UploadFile_ignores_declarations ctx bucket file size ct
    (w : World (S3.Remote S) Entropy) :
  let service := NewService (S3Repository.NewS3Repository client region) in
  let before := UploadFile service ctx bucket file w in
  let after := UploadFile service ctx bucket (redeclared file size ct) w in
  fst (fst after) = fst (fst before)
  /\ snd (fst after) = redeclared (snd (fst before)) size ct
  /\ store (snd after) = store (snd before)
  /\ entropy (snd after) = entropy (snd before).
Proof.
  cbv zeta.
  destruct (validateBucketName bucket) as [err|] eqn:Hb.
  { unfold UploadFile. rewrite Hb. repeat split. }
  pose proof (validateFile_redeclared file size ct w) as Hr.
  destruct (validateFile file w) as [[verr f1] w1] eqn:Hf. simpl in Hr.
  destruct verr as [err|].
  { unfold UploadFile. rewrite Hb. unfold bind. rewrite Hr, Hf. repeat split. }
  rewrite (UploadFile_validated _ ctx bucket file w f1 w1 Hb Hf).
  rewrite (UploadFile_validated _ ctx bucket _ w _ w1 Hb Hr).
  cbv zeta. destruct (NewV7 (entropy w1)) as [[id|nerr] ent]; [| repeat split].
  unfold S3Repository.NewS3Repository. simpl.
  unfold S3Repository.Upload, bind, S3.send, ret. simpl.
  destruct (S3.PutObject client _ _ (S3.backend (store w1))) as [[perr|] b]; repeat split.
Qed.

End DeclaredTypeFacts.

(** A PNG that the caller declares to be plain text, under a name with
    directories in it: it is accepted, and the key is the identifier with
    the extension of the name. *)
Example run_upload_declared_text :
  fst (fst (uploadService.UploadFile (H := Fake.platform) Fake.service Background
              "my-test-bucket"
              (redeclared (Fake.png_file "../../etc/report.final.png") 0 "text/plain")
              (Fake.world [Fake.id_a])))
  = inl "https://my-test-bucket.s3.us-east-1.amazonaws.com/0193a5b2-c3d4-7ef0-8123-456789abcdea.png".
Proof. vm_compute. reflexivity. Qed.

(** The same upload, by its call: the one call of [Upload] names the file
    by the identifier and [.png], with none of the directories of the
    caller's name. *)
Lemma UploadFile_key_has_no_separator_witness :
  let run := uploadService.UploadFile (H := Fake.platform) Fake.service Background
               "my-test-bucket" (Fake.png_file "../../etc/report.final.png")
               (Fake.world [Fake.id_a]) in
  exists ctx' f,
    upload_calls (trace (snd run)) = [(ctx', "my-test-bucket", f)]
    /\ File.Name f = "0193a5b2-c3d4-7ef0-8123-456789abcdea.png"
    /\ ("/"%char ∉ list_ascii_of_string (File.Name f)).
Proof.
  intros run.
  destruct (UploadFile_key_has_no_separator (H := Fake.platform) Fake.service Background
              "my-test-bucket" (Fake.png_file "../../etc/report.final.png")
              (Fake.world [Fake.id_a])) as (evs & Ht & Hall).
  change (trace (Fake.world [Fake.id_a]) ++ evs) with evs in Ht. subst evs.
  set (ctx' := WithTimeout Background uploadService.uploadTimeout).
  set (f := File.mk "0193a5b2-c3d4-7ef0-8123-456789abcdea.png" ""
              (Some Fake.png_stream) 12 "image/png").
  assert (Hc : upload_calls (trace (snd run)) = [(ctx', "my-test-bucket", f)])
    by (vm_compute; reflexivity).
  exists ctx', f. split; [exact Hc |]. split; [reflexivity |].
  destruct (Hall ctx' "my-test-bucket" f) as (id & _ & _ & _ & Hno); [| exact Hno].
  fold run. rewrite Hc. apply list_elem_of_singleton. reflexivity.
Defined.

(** A PNG whose stream the caller has read past four bytes of padding: the
    sniffer sees the PNG header and accepts, and the one call of [Upload]
    carries the stream at offset 0, padding included. *)
Lemma UploadFile_body_rewound_witness :
  let run := uploadService.UploadFile (H := Fake.platform) Fake.service Background
               "my-test-bucket" advanced_file (Fake.world [Fake.id_a]) in
  exists ctx' f c,
    upload_calls (trace (snd run)) = [(ctx', "my-test-bucket", f)]
    /\ Stream.pos advanced_stream = 4
    /\ File.Content f = Some c
    /\ Stream.pos c = 0
    /\ Stream.data c = Stream.data advanced_stream.
Proof.
  intros run.
  destruct (UploadFile_body_rewound (H := Fake.platform) Fake.service Background
              "my-test-bucket" advanced_file (Fake.world [Fake.id_a]))
    as (evs & Ht & Hall).
  change (trace (Fake.world [Fake.id_a]) ++ evs) with evs in Ht. subst evs.
  set (ctx' := WithTimeout Background uploadService.uploadTimeout).
  set (f := File.mk "0193a5b2-c3d4-7ef0-8123-456789abcdea.png" ""
              (Some (Stream.mk (Stream.data advanced_stream) 0 None None)) 16 "image/png").
  assert (Hc : upload_calls (trace (snd run)) = [(ctx', "my-test-bucket", f)])
    by (vm_compute; reflexivity).
  destruct (Hall ctx' "my-test-bucket" f) as (content & c & Hfile & Hf & Hpos & Hdata).
  { fold run. rewrite Hc. apply list_elem_of_singleton. reflexivity. }
  injection Hfile as <-.
  exists ctx', f, c. repeat split; assumption.
Defined.

(** ** The handlers and the status of an error *)

Section HandlerFacts.
Import Handler.

Lemma Is_Wrapf msg cause target :
  (forall m c, target <> Wrapf m c) ->
  Errors.Is (Wrapf msg cause) target = Errors.Is cause target.
Proof.
  intros Ht. cbn [Errors.Is]. destruct (decide (Wrapf msg cause = target)) as [He|He];
    [exfalso; exact (Ht _ _ (eq_sym He)) | reflexivity].
Qed.

(** Wrapping an error with [%w] does not change how the handler classes it:
    the status is that of the cause. *)
Theorem handleError_sees_through_wrapping msg err :
  code_of (handleError (Wrapf msg err)) = code_of (handleError err)
  /\ (code_of (handleError err) = StatusInternalServerError
      \/ code_of (handleError err) = StatusGatewayTimeout ->
      handleError (Wrapf msg err) = handleError err)
  /\ (code_of (handleError err) <> StatusInternalServerError ->
      code_of (handleError err) <> StatusGatewayTimeout ->
      handleError (Wrapf msg err)
      = JSON (code_of (handleError err)) (H_error (msg +:+ ": " +:+ Errors.Error err))).
Proof.
  unfold handleError. rewrite !Is_Wrapf by discriminate.
  destruct (Errors.Is err ErrInvalidFileType || Errors.Is err ErrBucketNameRequired);
    [simpl; repeat split; intros; try reflexivity;
     repeat match goal with h : _ \/ _ |- _ => destruct h end; discriminate |].
  destruct (Errors.Is err ErrBucketAlreadyExists);
    [simpl; repeat split; intros; try reflexivity;
     repeat match goal with h : _ \/ _ |- _ => destruct h end; discriminate |].
  destruct (Errors.Is err ErrFileNotFound);
    [simpl; repeat split; intros; try reflexivity;
     repeat match goal with h : _ \/ _ |- _ => destruct h end; discriminate |].
  destruct (Errors.Is err ErrOperationTimeout); simpl; repeat split; intros;
    try reflexivity; contradiction.
Qed.

Lemma handleError_code err :
  Errors.Is err ErrFileNotFound = false ->
  Errors.Is err ErrOperationTimeout = false ->
  code_of (handleError err) = StatusBadRequest
  \/ code_of (handleError err) = StatusConflict
  \/ code_of (handleError err) = StatusInternalServerError.
Proof.
  intros Hn Ht. unfold handleError. rewrite Hn, Ht.
  destruct (_ || _); [left; reflexivity |].
  destruct (Errors.Is err ErrBucketAlreadyExists); [right; left | right; right]; reflexivity.
Qed.

End HandlerFacts.

Section HandlerValidationFacts.
Context `{Platform} {R : Type} (svc : uploadService.t R).
Import Handler.

(** The errors of the bucket name validator before the handler: the error
    for the empty name is answered 400 with its text; every other one, for
    a name of a bad length or shape or with two dots in a row, is answered
    500 with the fixed text for unexpected errors. *)
Lemma handleError_validation bucket err :
  uploadService.validateBucketName bucket = Some err ->
  handleError err =
  if String.eqb (uploadService.normalize bucket) ""
  then JSON StatusBadRequest (H_error "bucket name is required")
  else JSON StatusInternalServerError (H_error "an unexpected error occurred").
Proof.
  intros Hv.
  destruct (validateBucketName_cascade bucket)
    as [[Hn Hv'] | [(Hn & _ & Hv') | [(Hlen & _ & Hv') | [(Hlen & _ & _ & Hv')
        | (_ & _ & _ & Hv')]]]];
    rewrite Hv' in Hv; try discriminate; injection Hv as <-.
  - rewrite Hn. reflexivity.
  - destruct (String.eqb_spec (uploadService.normalize bucket) ""); [contradiction |].
    reflexivity.
  - destruct (String.eqb_spec (uploadService.normalize bucket) "") as [He|];
      [rewrite He in Hlen; simpl in Hlen; lia | reflexivity].
  - destruct (String.eqb_spec (uploadService.normalize bucket) "") as [He|];
      [rewrite He in Hlen; simpl in Hlen; lia | reflexivity].
Qed.

(** A request whose bucket name the validator refuses is answered by the
    presign, download and delete-bucket handlers without any call: with 400
    and the validator's text when the name is empty after folding and
    trimming, and with 500 and the fixed text for unexpected errors when
    the name is malformed.  The delete-bucket handler reads the name from
    the parameter [name], the other two from [bucket]. *)
Theorem handlers_on_refused_bucket ctx c (w : World R Entropy) :
  let answer bucket :=
    if String.eqb (uploadService.normalize bucket) ""
    then JSON StatusBadRequest (H_error "bucket name is required")
    else JSON StatusInternalServerError (H_error "an unexpected error occurred") in
  (forall err, uploadService.validateBucketName (Query c "bucket") = Some err ->
     GetPresignedURL svc ctx c w = (answer (Query c "bucket"), w)
     /\ DownloadFile svc ctx c w = (answer (Query c "bucket"), w))
  /\ (forall err, uploadService.validateBucketName (Query c "name") = Some err ->
        DeleteBucket svc ctx c w = (answer (Query c "name"), w)).
Proof.
  cbv zeta. split.
  - intros err Hv. pose proof (handleError_validation _ _ Hv) as Hh.
    unfold GetPresignedURL, DownloadFile, uploadService.GetDownloadURL,
      uploadService.DownloadFile, bind, ret. rewrite Hv, Hh. split; reflexivity.
  - intros err Hv. pose proof (handleError_validation _ _ Hv) as Hh.
    unfold DeleteBucket, uploadService.DeleteBucket, bind, ret. rewrite Hv, Hh. reflexivity.
Qed.

(** The statistics and the empty-bucket handlers check the parameter
    themselves and do not class errors: an empty [bucket] is answered 400
    with no call to the service, and any name the validator refuses, a
    name of blanks included, is answered 500 with the validator's own
    text. *)
Theorem stats_and_empty_on_refused_bucket ctx c (w : World R Entropy) :
  (Query c "bucket" = "" ->
     GetBucketStats svc ctx c w
       = (JSON StatusBadRequest (H_error "bucket parameter is required"), w)
     /\ EmptyBucket svc ctx c w
        = (JSON StatusBadRequest (H_error "bucket parameter is required"), w))
  /\ (forall err, Query c "bucket" <> "" ->
        uploadService.validateBucketName (Query c "bucket") = Some err ->
        GetBucketStats svc ctx c w
          = (JSON StatusInternalServerError (H_error (Errors.Error err)), w)
        /\ EmptyBucket svc ctx c w
           = (JSON StatusInternalServerError (H_error (Errors.Error err)), w)).
Proof.
  unfold GetBucketStats, EmptyBucket. split.
  - intros ->. split; reflexivity.
  - intros err Hne Hv. destruct (String.eqb_spec (Query c "bucket") ""); [contradiction |].
    unfold uploadService.GetBucketStats, uploadService.EmptyBucket, bind, ret.
    rewrite Hv. split; reflexivity.
Qed.

End HandlerValidationFacts.

Lemma handlers_on_refused_bucket_witness :
  Handler.GetPresignedURL (H := Fake.platform) Fake.service Background
    (query_request [("bucket", "Ab"); ("key", "a.png")]) (Fake.world [])
  = (Handler.JSON 500 (Handler.H_error "an unexpected error occurred"), Fake.world []).
Proof.
  exact (proj1 (proj1 (handlers_on_refused_bucket (H := Fake.platform) Fake.service Background
                         (query_request [("bucket", "Ab"); ("key", "a.png")]) (Fake.world []))
                  uploadService.err_length eq_refl)).
Defined.

Lemma stats_and_empty_on_refused_bucket_witness :
  Handler.GetBucketStats (H := Fake.platform) Fake.service Background
    (query_request [("bucket", "   ")]) (Fake.world [])
  = (Handler.JSON 500 (Handler.H_error "bucket name is required"), Fake.world []).
Proof.
  exact (proj1 (proj2 (stats_and_empty_on_refused_bucket (H := Fake.platform) Fake.service
                         Background (query_request [("bucket", "   ")]) (Fake.world []))
                  ErrBucketNameRequired ltac:(discriminate) eq_refl)).
Defined.

(** ** The statuses that are never written *)

Section NeverFacts.
Context `{Platform} {S : Type} (client : S3.Client S) (region : string).
Import Handler.

Lemma foreign_unclassed err : Errors.foreign err -> unclassed err.
Proof. intros (_ & Hn & _ & _ & Ht). split; assumption. Qed.

Lemma validation_unclassed bucket err :
  uploadService.validateBucketName bucket = Some err -> unclassed err.
Proof.
  intros Hv.
  destruct (validateBucketName_cascade bucket)
    as [[_ Hv'] | [(_ & _ & Hv') | [(_ & _ & Hv') | [(_ & _ & _ & Hv')
        | (_ & _ & _ & Hv')]]]];
    rewrite Hv' in Hv; try discriminate; injection Hv as <-; split; reflexivity.
Qed.

Lemma unclassed_code err :
  unclassed err ->
  code_of (handleError err) <> StatusNotFound
  /\ code_of (handleError err) <> StatusGatewayTimeout.
Proof.
  intros [Hn Ht].
  destruct (handleError_code err Hn Ht) as [-> | [-> | ->]]; split; discriminate.
Qed.

Lemma handleError_foreign err :
  Errors.foreign err ->
  handleError err = JSON StatusInternalServerError (H_error "an unexpected error occurred").
Proof.
  intros (Hreq & Hnf & Htype & Hex & Hto). unfold handleError.
  rewrite Hreq, Hnf, Htype, Hex, Hto. reflexivity.
Qed.

(** When the errors of the AWS client are foreign to the package, as those
    of a library that cannot know the package's sentinels are, the
    branches of [handleError] for [ErrFileNotFound] and
    [ErrOperationTimeout] are never taken over the S3 repository: what the
    presign, download, delete, create-bucket, list-buckets and
    delete-bucket handlers write is never a 404 and never a 504.  A
    download whose [GetObject] fails, for a missing object as for anything
    else, is answered by the handler with 500 and the fixed text.  (This is
    about what the handlers write; the timeout middleware in front of them
    writes its own 504.) *)
Theorem handlers_never_404_504 ctx c
    (w : World (S3.Remote S) Entropy) :
  foreign_client client ->
  let svc := uploadService.NewService (S3Repository.NewS3Repository client region) in
  let fine (r : response) := code_of r <> StatusNotFound /\ code_of r <> StatusGatewayTimeout in
  fine (fst (GetPresignedURL svc ctx c w))
  /\ fine (fst (DownloadFile svc ctx c w))
  /\ fine (fst (DeleteFile svc ctx c w))
  /\ fine (fst (CreateBucket svc ctx c w))
  /\ fine (fst (ListBuckets svc ctx c w))
  /\ fine (fst (DeleteBucket svc ctx c w))
  /\ (forall err,
        uploadService.validateBucketName (Query c "bucket") = None ->
        fst (S3.GetObject client ctx
               (S3.mkObjectInput (Some (Query c "bucket")) (Some (Query c "key")))
               (S3.backend (store w))) = inr err ->
        fst (DownloadFile svc ctx c w)
        = JSON StatusInternalServerError (H_error "an unexpected error occurred")).
Proof.
  intros (Hput & Hlist & Hdel & Hget & Hsign & Hmk & Hbuckets & Hrm). cbv zeta.
  assert (Hok : forall code body, code <> StatusNotFound -> code <> StatusGatewayTimeout ->
                  code_of (JSON code body) <> StatusNotFound
                  /\ code_of (JSON code body) <> StatusGatewayTimeout) by (intros; split; assumption).
  split.
  { unfold GetPresignedURL, uploadService.GetDownloadURL, bind, ret.
    destruct (uploadService.validateBucketName (Query c "bucket")) as [err|] eqn:Hv.
    - apply unclassed_code, (validation_unclassed _ _ Hv).
    - unfold uploadService.call_repo. simpl.
      unfold S3Repository.GetPresignURL, S3.send. simpl.
      destruct (S3.PresignGetObject client _ _ _ _) as [[url|err] b] eqn:Hc; simpl.
      + split; discriminate.
      + apply unclassed_code, foreign_unclassed.
        eapply Hsign. rewrite Hc. reflexivity. }
  split.
  { unfold DownloadFile, uploadService.DownloadFile, bind, ret.
    destruct (uploadService.validateBucketName (Query c "bucket")) as [err|] eqn:Hv.
    - apply unclassed_code, (validation_unclassed _ _ Hv).
    - unfold uploadService.call_repo. simpl.
      unfold S3Repository.Download, S3.send. simpl.
      destruct (S3.GetObject client _ _ _) as [[body|err] b] eqn:Hc; simpl.
      + split; discriminate.
      + apply unclassed_code, foreign_unclassed.
        eapply Hget. rewrite Hc. reflexivity. }
  split.
  { unfold DeleteFile, uploadService.DeleteFile, bind, ret.
    destruct (String.eqb (Query c "key") ""); [simpl; split; discriminate |].
    destruct (uploadService.validateBucketName (Query c "bucket")) as [err|] eqn:Hv.
    - apply unclassed_code, (validation_unclassed _ _ Hv).
    - unfold uploadService.call_repo. simpl.
      unfold S3Repository.Delete, S3.send. simpl.
      destruct (S3.DeleteObject client _ _ _) as [[err|] b] eqn:Hc; simpl.
      + apply unclassed_code, foreign_unclassed.
        eapply Hdel. rewrite Hc. reflexivity.
      + split; discriminate. }
  split.
  { unfold CreateBucket.
    destruct (json_bucket_name c) as [name|]; [| simpl; split; discriminate].
    destruct (String.eqb name ""); [simpl; split; discriminate |].
    unfold uploadService.CreateBucket, bind, ret.
    destruct (uploadService.validateBucketName name) as [err|] eqn:Hv.
    - apply unclassed_code, (validation_unclassed _ _ Hv).
    - unfold uploadService.call_repo. simpl.
      unfold S3Repository.CheckBucketExists, S3Repository.CreateBucket, bind, S3.send, ret.
      simpl.
      destruct (S3.HeadBucket client _ _ _) as [[herr|] b]; simpl.
      + destruct (S3.CreateBucket client _ _ _) as [[err|] b'] eqn:Hc; simpl.
        * apply unclassed_code, foreign_unclassed.
          eapply Hmk. rewrite Hc. reflexivity.
        * split; discriminate.
      + split; discriminate. }
  split.
  { unfold ListBuckets, uploadService.ListAllBuckets, bind, ret.
    unfold uploadService.call_repo. simpl.
    unfold S3Repository.ListBuckets, bind, S3.send, ret. simpl.
    destruct (S3.ListBuckets client _ _) as [[buckets|err] b] eqn:Hc; simpl.
    - split; discriminate.
    - apply unclassed_code, foreign_unclassed. eapply Hbuckets. rewrite Hc. reflexivity. }
  split.
  { unfold DeleteBucket, uploadService.DeleteBucket, bind, ret.
    destruct (uploadService.validateBucketName (Query c "name")) as [err|] eqn:Hv.
    - apply unclassed_code, (validation_unclassed _ _ Hv).
    - unfold uploadService.call_repo. simpl.
      unfold S3Repository.DeleteBucket, S3.send. simpl.
      destruct (S3.DeleteBucket client _ _ _) as [[err|] b] eqn:Hc; simpl.
      + apply unclassed_code, foreign_unclassed. eapply Hrm. rewrite Hc. reflexivity.
      + split; discriminate. }
  intros err Hv Hc.
  unfold DownloadFile, uploadService.DownloadFile, bind, ret. rewrite Hv.
  unfold uploadService.call_repo. simpl.
  unfold S3Repository.Download, S3.send. simpl.
  destruct (S3.GetObject client _ _ _) as [[body|err'] b] eqn:Hrun; simpl in *;
    [discriminate |].
  injection Hc as ->. apply handleError_foreign.
  eapply Hget. rewrite Hrun. reflexivity.
Qed.

End NeverFacts.

Lemma unreachable_client_foreign : foreign_client unreachable_client.
Proof.
  assert (Hf : Errors.foreign unreachable) by (repeat split).
  unfold foreign_client.
  repeat (split; [intros; simpl in *; simplify_eq; exact Hf |]).
  intros; simpl in *; simplify_eq; exact Hf.
Qed.

Lemma handlers_never_404_504_witness :
  fst (Handler.DownloadFile (H := Fake.platform) unreachable_service Background
         (query_request [("bucket", "my-test-bucket"); ("key", "missing.png")])
         unreachable_world)
  = Handler.JSON 500 (Handler.H_error "an unexpected error occurred").
Proof.
  exact (proj2 (proj2 (proj2 (proj2 (proj2 (proj2
    (handlers_never_404_504 (H := Fake.platform) unreachable_client "us-east-1" Background
       (query_request [("bucket", "my-test-bucket"); ("key", "missing.png")])
       unreachable_world unreachable_client_foreign))))))
    unreachable eq_refl eq_refl).
Defined.

(** ** More on the fan-out *)

Section FanoutMoreFacts.
Context `{Platform} {R : Type} (svc : uploadService.t R).
Import uploadService.

Lemma task_refused bucket err (st : fanout (R := R)) i f :
  validateBucketName bucket = Some err ->
  fo_files st !! i = Some f ->
  let st' := task svc bucket st i in
  fo_world st' = fo_world st /\ fo_files st' = fo_files st
  /\ results st' = results st
  /\ group_err st' = match group_err st with Some e0 => Some e0 | None => Some err end.
Proof.
  intros Hb Hf. cbv zeta. unfold task. rewrite Hf. unfold UploadFile. rewrite Hb. simpl.
  destruct (group_err st); simpl; rewrite (list_insert_id _ _ _ Hf); repeat split.
Qed.

Lemma run_refused bucket err : forall sched (st : fanout (R := R)),
  validateBucketName bucket = Some err ->
  (forall i, i ∈ sched -> i < length (fo_files st)) ->
  let st' := foldl (task svc bucket) st sched in
  fo_world st' = fo_world st /\ fo_files st' = fo_files st
  /\ results st' = results st
  /\ group_err st' = match group_err st, sched with
                     | Some e0, _ => Some e0
                     | None, [] => None
                     | None, _ :: _ => Some err
                     end.
Proof.
  induction sched as [|i sched IH]; intros st Hb Hlt; cbv zeta.
  - simpl. destruct (group_err st); repeat split.
  - simpl.
    destruct (lookup_lt_is_Some_2 (fo_files st) i) as [f Hf].
    { apply Hlt. apply elem_of_cons. left. reflexivity. }
    destruct (task_refused bucket err st i f Hb Hf) as (Hw & Hfs & Hr & He).
    specialize (IH (task svc bucket st i) Hb).
    destruct IH as (Hw' & Hfs' & Hr' & He').
    { intros j Hj. rewrite Hfs. apply Hlt. apply elem_of_cons. right. exact Hj. }
    rewrite Hw', Hfs', Hr', He', He, Hw, Hfs, Hr.
    destruct (group_err st); repeat split.
Qed.

(** A multi-file upload into a bucket whose name the validator refuses:
    with at least one file, the call returns the validator's error and no
    list, and the world is as it was (no stream is read, nothing is
    called); with no file at all, the name is never looked at and the call
    succeeds with the empty list. *)
Theorem UploadMultipleFiles_refused_bucket ctx bucket files sched err
    (w : World R Entropy) :
  validateBucketName bucket = Some err ->
  sched ≡ₚ seq 0 (length files) ->
  (files <> [] -> UploadMultipleFiles svc ctx bucket files sched w = ((None, Some err), w))
  /\ (files = [] -> UploadMultipleFiles svc ctx bucket files sched w = ((Some [], None), w)).
Proof.
  intros Hb Hperm.
  assert (Hlt : forall i, i ∈ sched -> i < length files).
  { intros i Hi. rewrite Hperm in Hi. apply elem_of_seq in Hi. lia. }
  destruct (run_refused bucket err sched (fanout_init ctx files w) Hb Hlt)
    as (Hw & _ & Hr & He).
  unfold UploadMultipleFiles, fanout_run. simpl in He. split.
  - intros Hne. rewrite He, Hw.
    destruct sched as [|i sched]; [| reflexivity].
    apply Permutation_nil_l in Hperm. destruct files; [contradiction | discriminate].
  - intros ->. simpl in Hperm. apply Permutation_nil_r in Hperm. subst sched. reflexivity.
Qed.

End FanoutMoreFacts.

Section MultiHandlerFacts.
Context `{Platform} {R : Type} (svc : uploadService.t R).
Import Handler.

Lemma files_to_upload_none headers :
  Forall (fun h => exists e, Open h = inr e) headers -> files_to_upload headers = [].
Proof.
  induction 1 as [|h headers [e He] _ IH]; simpl; [reflexivity |]. rewrite He. exact IH.
Qed.

Lemma files_to_upload_length headers :
  length (files_to_upload headers) <= length headers.
Proof.
  induction headers as [|h headers IH]; simpl; [lia |].
  destruct (Open h); simpl; lia.
Qed.

(** A multi-file request none of whose parts can be opened is answered 201
    with an empty list: nothing is uploaded and nothing is called, and the
    bucket name is not looked at, so this is the answer for a bad bucket
    name too. *)
Theorem UploadMultiple_nothing_opens ctx c headers (w : World R Entropy) :
  multipart_files c = Some headers -> headers <> [] ->
  Forall (fun h => exists e, Open h = inr e) headers ->
  UploadMultiple svc ctx c [] w = (JSON StatusCreated (H_urls (Some [])), w).
Proof.
  intros Hm Hne Hall. unfold UploadMultiple. rewrite Hm.
  destruct headers as [|h headers]; [contradiction |].
  cbn [length Nat.eqb]. rewrite (files_to_upload_none _ Hall). reflexivity.
Qed.

(** The list of a 201 answer to a multi-file request has one locator for
    each part that could be opened, in their order; parts that could not
    be opened are passed over without an error, so the list can be shorter
    than the request. *)
Theorem UploadMultiple_one_locator_per_opened_part ctx c headers sched
    (w : World R Entropy) urls :
  multipart_files c = Some headers ->
  sched ≡ₚ seq 0 (length (files_to_upload headers)) ->
  fst (UploadMultiple svc ctx c sched w) = JSON StatusCreated (H_urls urls) ->
  exists l, urls = Some l
            /\ length l = length (files_to_upload headers)
            /\ length l <= length headers.
Proof.
  intros Hm Hperm Hr. unfold UploadMultiple in Hr. rewrite Hm in Hr.
  destruct (Nat.eqb (length headers) 0); [discriminate |].
  unfold bind, uploadService.UploadMultipleFiles in Hr.
  assert (Hnd : NoDup sched) by (rewrite Hperm; apply NoDup_seq).
  assert (Hlt : forall i, i ∈ sched -> i < length (files_to_upload headers)).
  { intros i Hi. rewrite Hperm in Hi. apply elem_of_seq in Hi. lia. }
  pose proof (fanout_run_inv svc ctx (PostForm c "bucket") (files_to_upload headers) w
                sched Hnd Hlt) as (_ & _ & Hlr & _).
  destruct (uploadService.group_err _) as [err|].
  - simpl in Hr. unfold handleError in Hr.
    repeat match type of Hr with
           | context [if ?b then _ else _] => destruct b
           end; discriminate.
  - simpl in Hr. injection Hr as <-. eexists. split; [reflexivity |].
    split; [exact Hlr |]. rewrite Hlr. apply files_to_upload_length.
Qed.

End MultiHandlerFacts.

Lemma UploadMultipleFiles_refused_bucket_witness :
  uploadService.UploadMultipleFiles (H := Fake.platform) Fake.service Background "Ab"
    [Fake.png_file "a.png"; Fake.png_file "b.png"] [1; 0] (Fake.world [Fake.id_a])
  = ((None, Some uploadService.err_length), Fake.world [Fake.id_a]).
Proof.
  assert (Hp : [1; 0] ≡ₚ seq 0 2) by apply perm_swap.
  exact (proj1 (UploadMultipleFiles_refused_bucket (H := Fake.platform) Fake.service
                  Background "Ab" [Fake.png_file "a.png"; Fake.png_file "b.png"] [1; 0]
                  uploadService.err_length (Fake.world [Fake.id_a]) eq_refl Hp)
           ltac:(discriminate)).
Defined.

Lemma UploadMultiple_nothing_opens_witness :
  Handler.UploadMultiple (H := Fake.platform) Fake.service Background
    (Handler.mkRequest ∅ (list_to_map [("bucket", "Ab")]) None
       (Some [Handler.mkFileHeader "a.png" 12 "image/png" (inr (Errorf "open: too many files"))])
       None)
    [] (Fake.world [])
  = (Handler.JSON 201 (Handler.H_urls (Some [])), Fake.world []).
Proof.
  apply (UploadMultiple_nothing_opens (H := Fake.platform) Fake.service Background _
           [Handler.mkFileHeader "a.png" 12 "image/png" (inr (Errorf "open: too many files"))]).
  - reflexivity.
  - discriminate.
  - repeat constructor. eexists. reflexivity.
Defined.

Lemma UploadMultiple_one_locator_per_opened_part_witness :
  exists l,
    Some ["https://my-test-bucket.s3.us-east-1.amazonaws.com/0193a5b2-c3d4-7ef0-8123-456789abcdea.png"]
    = Some l /\ length l = 1 /\ length l <= 2.
Proof.
  assert (Hp : [0] ≡ₚ seq 0 1) by reflexivity.
  exact (UploadMultiple_one_locator_per_opened_part (H := Fake.platform) Fake.service
           Background
           (Handler.mkRequest ∅ (list_to_map [("bucket", "my-test-bucket")]) None
              (Some [Handler.mkFileHeader "a.png" 12 "image/png" (inr (Errorf "open failed"));
                     Handler.mkFileHeader "b.png" 12 "image/png" (inl Fake.png_stream)])
              None)
           _ [0] (Fake.world [Fake.id_a]) _ eq_refl Hp eq_refl).
Defined.

(** ** The number that [formatBytes] prints *)

Section FormatBytesMoreFacts.
Import FormatBytes.
Local Open Scope Z_scope.

(** The conversion to [float64] does not cross a power of two. *)
Lemma float64_of_int_pow2 b m :
  0 < b -> 0 <= m ->
  (2 ^ m <= b -> 2 ^ m <= Fmt.float64_of_int b)
  /\ (b <= 2 ^ m -> Fmt.float64_of_int b <= 2 ^ m).
Proof.
  intros Hb Hm. unfold Fmt.float64_of_int. rewrite Z.abs_eq by lia.
  destruct (Z.ltb_spec (Z.log2 b) 53) as [Hsmall|Hbig]; [split; auto |].
  pose proof (Z.log2_spec b Hb) as [Hlo Hhi].
  set (e := Z.log2 b) in *. set (sh := e - 52).
  assert (Hsh : 1 <= sh) by (subst sh; lia).
  assert (Hpsh : 0 < 2 ^ sh) by (apply Z.pow_pos_nonneg; lia).
  assert (He : 2 ^ e = 2 ^ 52 * 2 ^ sh).
  { rewrite <- Z.pow_add_r by lia. f_equal. subst sh. lia. }
  assert (He1 : 2 ^ Z.succ e = 2 ^ 53 * 2 ^ sh).
  { rewrite <- Z.pow_add_r by lia. f_equal. subst sh. lia. }
  assert (Hq1 : 2 ^ 52 <= b / 2 ^ sh) by (apply Z.div_le_lower_bound; lia).
  assert (Hq2 : b / 2 ^ sh < 2 ^ 53) by (apply Z.div_lt_upper_bound; lia).
  pose proof (Z.div_mod b (2 ^ sh) ltac:(lia)) as Hdm.
  pose proof (Z.mod_pos_bound b (2 ^ sh) Hpsh) as Hmod.
  rewrite Z.sgn_pos by lia. rewrite Z.mul_1_l.
  set (q := b / 2 ^ sh) in *. set (r := b mod 2 ^ sh) in *.
  split.
  - intros Hle.
    assert (Hme : m <= e).
    { destruct (Z.le_gt_cases m e) as [|Hgt]; [assumption |].
      assert (2 ^ Z.succ e <= 2 ^ m) by (apply Z.pow_le_mono_r; lia). lia. }
    assert (Hpm : 2 ^ m <= 2 ^ e) by (apply Z.pow_le_mono_r; lia).
    destruct ((2 ^ (sh - 1) <? r) || ((r =? 2 ^ (sh - 1)) && Z.odd q)); nia.
  - intros Hle.
    assert (Hem : e <= m).
    { destruct (Z.le_gt_cases e m) as [|Hgt]; [assumption |].
      assert (2 ^ Z.succ m <= 2 ^ e) by (apply Z.pow_le_mono_r; lia).
      rewrite Z.pow_succ_r in * by lia. lia. }
    destruct (Z.eq_dec e m) as [Heq|Hne].
    + subst m. assert (Hbe : b = 2 ^ e) by lia.
      assert (Hr0 : r = 0).
      { subst r. rewrite Hbe, He. apply Z.mod_mul. lia. }
      assert (Hq0 : q = 2 ^ 52).
      { subst q. rewrite Hbe, He. apply Z.div_mul. lia. }
      assert (Hhalf : 0 < 2 ^ (sh - 1)) by (apply Z.pow_pos_nonneg; lia).
      rewrite Hr0.
      destruct (Z.ltb_spec (2 ^ (sh - 1)) 0); [lia |].
      destruct (Z.eqb_spec 0 (2 ^ (sh - 1))); [lia |]. simpl. nia.
    + assert (Hpm : 2 ^ Z.succ e <= 2 ^ m) by (apply Z.pow_le_mono_r; lia).
      destruct ((2 ^ (sh - 1) <? r) || ((r =? 2 ^ (sh - 1)) && Z.odd q)); nia.
Qed.

Lemma round_half_even_between num den lo hi :
  0 < den -> lo * den <= num <= hi * den ->
  lo <= Fmt.round_half_even num den <= hi.
Proof.
  intros Hden [Hlo Hhi]. unfold Fmt.round_half_even.
  pose proof (Z.div_mod num den ltac:(lia)) as Hdm.
  pose proof (Z.mod_pos_bound num den Hden) as Hmod.
  assert (Hq1 : lo <= num / den) by (apply Z.div_le_lower_bound; lia).
  destruct (Z.eq_dec num (hi * den)) as [Heq|Hne].
  - assert (Hr : num mod den = 0) by (rewrite Heq; apply Z.mod_mul; lia).
    assert (Hq : num / den = hi) by (rewrite Heq; apply Z.div_mul; lia).
    rewrite Hr, Hq.
    destruct (Z.ltb_spec den (2 * 0)); [lia |].
    destruct (Z.eqb_spec (2 * 0) den); [lia |]. simpl. lia.
  - assert (Hq2 : num / den < hi) by (apply Z.div_lt_upper_bound; lia).
    destruct ((den <? 2 * (num mod den)) || ((2 * (num mod den) =? den) && Z.odd (num / den)));
      lia.
Qed.

(** From 1024 bytes on, the number that [formatBytes] prints before the
    unit lies between 1.0 and 1024.0, both included: counted in tenths it
    is at least 10 and at most 10240.  (The upper end is reached: a count
    just below a power of 1024 is printed as 1024.0 of the smaller unit.) *)
Theorem formatBytes_printed_range (b : Z) :
  Int.in_int64 b -> 1024 <= b ->
  exists tenths letter,
    formatBytes b =
      Returned ((Fmt.verb_d (tenths / 10) +:+ "." +:+ Fmt.verb_d (tenths mod 10))
                +:+ " " +:+ String letter "B")
    /\ 10 <= tenths <= 10240.
Proof.
  intros Hb Hge.
  destruct (loop_int64 64 b ltac:(lia) Hge Hb) as [Hloop Hk].
  set (k := division_count 64 b) in *.
  assert (Hbr : 1024 ^ Z.of_nat k <= b < 1024 ^ (Z.of_nat k + 1)).
  { apply (division_count_bracket 64 b Hge).
    destruct Hb as [_ Hmax]. unfold Int.max_int64 in Hmax. simpl. lia. }
  exists (Fmt.round_half_even (10 * Fmt.float64_of_int b) (1024 ^ Z.of_nat k)), (spec_unit k).
  split.
  - unfold formatBytes, formatBytes_fuel.
    destruct (Z.ltb_spec b unit) as [Hlt|_]; [unfold unit in Hlt; lia |].
    rewrite Hloop, (unit_letter_spec_unit _ Hk). reflexivity.
  - assert (Hp1 : 1024 ^ Z.of_nat k = 2 ^ (10 * Z.of_nat k)).
    { rewrite Z.pow_mul_r by lia. reflexivity. }
    assert (Hp2 : 1024 ^ (Z.of_nat k + 1) = 2 ^ (10 * (Z.of_nat k + 1))).
    { rewrite Z.pow_mul_r by lia. reflexivity. }
    destruct (float64_of_int_pow2 b (10 * Z.of_nat k) ltac:(lia) ltac:(lia)) as [Hlo _].
    destruct (float64_of_int_pow2 b (10 * (Z.of_nat k + 1)) ltac:(lia) ltac:(lia)) as [_ Hhi].
    rewrite <- Hp1 in Hlo. rewrite <- Hp2 in Hhi.
    specialize (Hlo ltac:(lia)). specialize (Hhi ltac:(lia)).
    assert (Hpk : 0 < 1024 ^ Z.of_nat k) by (apply Z.pow_pos_nonneg; lia).
    assert (Hs : 1024 ^ (Z.of_nat k + 1) = 1024 * 1024 ^ Z.of_nat k).
    { rewrite Z.pow_add_r by lia. lia. }
    apply round_half_even_between; [exact Hpk |]. rewrite Hs in Hhi. lia.
Qed.

End FormatBytesMoreFacts.

Lemma formatBytes_printed_range_witness :
  exists tenths letter,
    FormatBytes.formatBytes 1048575 =
      Returned ((Fmt.verb_d (tenths / 10) +:+ "." +:+ Fmt.verb_d (tenths mod 10))
                +:+ " " +:+ String letter "B")
    /\ (10 <= tenths <= 10240)%Z.
Proof.
  apply (formatBytes_printed_range 1048575);
    [unfold Int.in_int64, Int.min_int64, Int.max_int64; lia | lia].
Defined.

(** One byte less than a mebibyte is printed with the smaller unit. *)
Example run_format_just_below :
  FormatBytes.formatBytes 1048575 = Returned "1024.0 KB".
Proof. vm_compute. reflexivity. Qed.

(** ** The page that the S3 repository builds *)

Section S3ListFacts.
Context `{Platform} {S : Type} (client : S3.Client S) (region : string).
Import GoStrings.

Lemma formatBytes_returns b :
  Int.in_int64 b -> exists txt, FormatBytes.formatBytes b = Returned txt.
Proof.
  intros Hb. unfold FormatBytes.formatBytes, FormatBytes.formatBytes_fuel.
  destruct (Z.ltb_spec b FormatBytes.unit) as [Hlt|Hge]; [eauto |].
  unfold FormatBytes.unit in Hge.
  destruct (loop_int64 64 b ltac:(lia) Hge Hb) as [-> Hk].
  rewrite (unit_letter_spec_unit _ Hk). eauto.
Qed.

Lemma all_ascii_app a b :
  all_ascii (a +:+ b) = all_ascii a && all_ascii b.
Proof. unfold all_ascii. rewrite list_ascii_app, forallb_app. reflexivity. Qed.

Lemma lower_byte_plain c : plain (lower_byte c) = plain c.
Proof. destruct c as [[] [] [] [] [] [] [] []]; reflexivity. Qed.

Lemma plain_text_lower txt : plain_text (map_bytes lower_byte txt) = plain_text txt.
Proof.
  unfold plain_text. induction txt as [|c txt IH]; simpl; [reflexivity |].
  rewrite lower_byte_plain, IH. reflexivity.
Qed.

Lemma no_upper_lower txt :
  existsb (byte_in "A" "Z") (list_ascii_of_string (map_bytes lower_byte txt)) = false.
Proof.
  induction txt as [|c txt IH]; simpl; [reflexivity |].
  rewrite lower_byte_not_upper, IH. reflexivity.
Qed.

(** The extension that the repository derives from an ASCII key is empty,
    or a dot followed by bytes that are neither dots nor separators, and
    it has no capital letter. *)
Lemma summary_extension bucket obj :
  let f := S3Repository.summary (S3Repository.mk S client region) bucket obj in
  all_ascii (FileSummary.Key f) = true ->
  (FileSummary.Extension f = ""
   \/ exists e, FileSummary.Extension f = String "." e /\ plain_text e = true)
  /\ existsb (byte_in "A" "Z") (list_ascii_of_string (FileSummary.Extension f)) = false.
Proof.
  cbv zeta. unfold S3Repository.summary. simpl. intros Ha.
  set (key := S3.ToString (S3.Key obj)) in *.
  destruct (Ext_shape key) as [Hshape [stem Hstem]].
  assert (Hae : all_ascii (Ext key) = true).
  { rewrite Hstem, all_ascii_app in Ha. apply andb_prop in Ha. tauto. }
  rewrite (ToLower_ascii _ Hae). split; [| apply no_upper_lower].
  destruct Hshape as [-> | (e & -> & He)]; [left; reflexivity |].
  right. exists (map_bytes lower_byte e). split; [reflexivity |].
  rewrite plain_text_lower. exact He.
Qed.

(** [List] of the S3 repository sends one request, in which an empty token
    is no token.  An error comes back wrapped.  Otherwise the page has one
    summary for each object, in the order of the objects: key and size are
    the object's (empty and 0 where the object has none), the URL is built
    from the bucket, the region and the key, the readable size is a text
    whenever the size is an [int64], the extension of an ASCII key is empty
    or a dot and plain bytes without capitals, and the next token is the
    continuation token, empty when there is none. *)
Theorem S3_List_page ctx bucket prefix token limit (w : S3.Remote S) :
  let r := S3Repository.mk S client region in
  let out := S3Repository.List r ctx bucket prefix token limit w in
  let input := S3.mkListObjectsV2Input (Some bucket) (Some prefix)
                 (if String.eqb token "" then None else Some token) (Some limit) in
  let back := S3.ListObjectsV2 client ctx input (S3.backend w) in
  S3.requests (snd out) = S3.requests w ++ [S3.ReqListObjectsV2 input]
  /\ S3.backend (snd out) = snd back
  /\ (forall err, fst back = inr err ->
        fst out = inr (Wrapf "failed to list objects" err))
  /\ (forall output, fst back = inl output ->
        exists page,
          fst out = inl page
          /\ PaginatedFiles.NextToken page = default "" (S3.NextContinuationToken output)
          /\ length (PaginatedFiles.Files page) = length (S3.Contents output)
          /\ forall i obj, S3.Contents output !! i = Some obj ->
               exists f,
                 PaginatedFiles.Files page !! i = Some f
                 /\ FileSummary.Key f = default "" (S3.Key obj)
                 /\ FileSummary.Size f = default 0%Z (S3.Size obj)
                 /\ FileSummary.URL f = S3Repository.object_url bucket region (FileSummary.Key f)
                 /\ (Int.in_int64 (FileSummary.Size f) ->
                     exists txt, FileSummary.HumanReadableSize f = Returned txt)
                 /\ (all_ascii (FileSummary.Key f) = true ->
                     (FileSummary.Extension f = ""
                      \/ exists e, FileSummary.Extension f = String "." e
                                   /\ plain_text e = true)
                     /\ existsb (byte_in "A" "Z")
                          (list_ascii_of_string (FileSummary.Extension f)) = false)).
Proof.
  cbv zeta. unfold S3Repository.List, bind, S3.send, ret. simpl.
  destruct (S3.ListObjectsV2 client ctx _ (S3.backend w)) as [[output|err] b]; simpl.
  - split; [reflexivity |]. split; [reflexivity |]. split; [discriminate |].
    intros output' [= <-]. eexists. split; [reflexivity |]. simpl.
    split; [destruct (S3.NextContinuationToken output); reflexivity |].
    split; [apply length_map |].
    intros i obj Hi. eexists. split.
    { rewrite list_lookup_fmap, Hi. reflexivity. }
    split; [reflexivity |]. split; [reflexivity |]. split; [reflexivity |].
    split; [intros Hs; apply formatBytes_returns; exact Hs |].
    apply summary_extension.
  - split; [reflexivity |]. split; [reflexivity |]. split; [| discriminate].
    intros err' [= <-]. reflexivity.
Qed.

End S3ListFacts.

(** ** The upload handler *)

Section UploadHandlerFacts.
Context `{Platform} {R : Type} (svc : uploadService.t R).
Import Handler.

Lemma Read_no_fault (stream : Stream.t) n :
  Stream.read_fault stream = None ->
  exists rerr c1,
    Stream.Read stream n
      = ((take n (drop (Stream.pos stream) (Stream.data stream)), rerr), c1)
    /\ uploadService.read_failed rerr = None
    /\ Stream.seek_fault c1 = Stream.seek_fault stream.
Proof.
  intros Hf. unfold Stream.Read. rewrite Hf.
  destruct (Nat.leb_spec (length (Stream.data stream)) (Stream.pos stream)).
  - exists (Some io_EOF), stream. rewrite drop_ge by lia. rewrite take_nil.
    repeat split.
  - eexists None, _. repeat split.
Qed.

(** The upload handler on a part that opens, with a stream that can be
    read and rewound: a bucket name the validator refuses is answered
    without touching the stream, 400 for the empty name and 500 for a
    malformed one; with a good name, content whose sniffed type is not
    allowed is answered 400 with the text of [ErrInvalidFileType], and
    neither the store nor the identifier source has been used. *)
Theorem UploadFile_handler_refusals ctx c header stream (w : World R Entropy) :
  form_file c = Some header -> Open header = inl stream ->
  (forall err, uploadService.validateBucketName (PostForm c "bucket") = Some err ->
     UploadFile svc ctx c w
     = (if String.eqb (uploadService.normalize (PostForm c "bucket")) ""
        then JSON StatusBadRequest (H_error "bucket name is required")
        else JSON StatusInternalServerError (H_error "an unexpected error occurred"), w))
  /\ (uploadService.validateBucketName (PostForm c "bucket") = None ->
      Stream.read_fault stream = None -> Stream.seek_fault stream = None ->
      DetectContentType (take 512 (drop (Stream.pos stream) (Stream.data stream))) ∉ allow_list ->
      let out := UploadFile svc ctx c w in
      fst out = JSON StatusBadRequest
                  (H_error "file type not allowed or malicious content detected")
      /\ store (snd out) = store w /\ entropy (snd out) = entropy w).
Proof.
  intros Hform Hopen. unfold UploadFile. rewrite Hform, Hopen. split.
  - intros err Hv. pose proof (handleError_validation _ _ Hv) as Hh.
    unfold bind, uploadService.UploadFile. rewrite Hv. simpl. rewrite Hh. reflexivity.
  - intros Hv Hrf Hsf Hnot. cbv zeta.
    destruct (Read_no_fault stream 512 Hrf) as (rerr & c1 & Hread & Hrerr & Hsf1).
    assert (Hseek : Stream.SeekStart c1 = (None, Stream.set_pos c1 0)).
    { unfold Stream.SeekStart. rewrite Hsf1, Hsf. reflexivity. }
    pose proof (validateFile_unfold (file_of header stream) stream w _ _ _ _ _
                  eq_refl Hread Hseek) as Hvf.
    rewrite Hrerr in Hvf.
    destruct (uploadService.allowed _) eqn:Hal in Hvf.
    { apply allowed_allow_list in Hal. contradiction. }
    unfold bind, uploadService.UploadFile. rewrite Hv. unfold bind. rewrite Hvf.
    simpl. repeat split.
Qed.

End UploadHandlerFacts.

Lemma UploadFile_handler_refusals_witness :
  fst (Handler.UploadFile (H := Fake.platform) Fake.service Background
         (Handler.mkRequest ∅ (list_to_map [("bucket", "my-test-bucket")])
            (Some (Handler.mkFileHeader "notes.png" 5 "image/png" (inl Fake.text_stream)))
            None None)
         (Fake.world [Fake.id_a]))
  = Handler.JSON 400 (Handler.H_error "file type not allowed or malicious content detected").
Proof.
  refine (proj1 (proj2 (UploadFile_handler_refusals (H := Fake.platform) Fake.service
                          Background
                          (Handler.mkRequest ∅ (list_to_map [("bucket", "my-test-bucket")])
                             (Some (Handler.mkFileHeader "notes.png" 5 "image/png"
                                      (inl Fake.text_stream)))
                             None None)
                          (Handler.mkFileHeader "notes.png" 5 "image/png" (inl Fake.text_stream))
                          Fake.text_stream (Fake.world [Fake.id_a])
                          eq_refl eq_refl) eq_refl eq_refl eq_refl _)).
  unfold allow_list. rewrite !elem_of_cons, elem_of_nil.
  intros [Hx | [Hx | [Hx | []]]]; vm_compute in Hx; discriminate.
Defined.
